(** * A shallow embedding of the QuickJS handle facade (ts/quickjs.ts)

    The TypeScript module wraps an interpreter that lives behind a C-style
    boundary.  Every class of the module is embedded here as operations of a
    small state-and-exception monad over an explicit world: the store of
    [Lifetime] objects (they are mutable and shared by reference), the
    [QuickJSVm] objects, the module-level variables [isReady] and [singleton],
    the context table of the [QuickJS] instance, and the state of the engine
    behind the boundary.  The engine itself ([QuickJSFFI], the Emscripten
    module) is an interface of the development, exactly as it is an imported
    interface of the source file. *)

From stdpp Require Import base option list gmap strings pretty.

Open Scope Z_scope.

(** ** Addresses and references *)

(** Engine addresses are plain numbers on the host side ([JSValuePointer],
    [JSContextPointer], ...); [0] is the only falsy one. *)
Abbreviation ptr := Z.

(** Identity of a [Lifetime] object and of a [QuickJSVm] object. *)
Abbreviation loc := nat.
Abbreviation vmid := nat.

(** The four closures the source ever registers as a disposer. *)
Inductive Disposer : Type :=
| freeJSValue (vm : vmid)   (* QuickJSVm.freeJSValue, bound to its VM *)
| moduleFree                (* ptr => this.module._free(ptr) *)
| freeRuntime               (* rt_ptr => this.ffi.QTS_FreeRuntime(rt_ptr) *)
| freeContext.              (* ctx_ptr => { vmMap.delete; QTS_FreeContext } *)

#[global] Instance Disposer_eq_dec : EqDecision Disposer.
Proof. solve_decision. Defined.

(** class Lifetime<T, Owner> *)
Record Lifetime : Type := mkLifetime {
  _value : ptr;
  disposer : option Disposer;
  _owner : option vmid;
  _alive : bool
}.

Definition with_alive (b : bool) (x : Lifetime) : Lifetime :=
  {| _value := _value x; disposer := disposer x; _owner := _owner x; _alive := b |}.

(** VmCallResult<QuickJSHandle> *)
Inductive VmCallResult : Type :=
| ResValue (h : loc)
| ResError (h : loc).

(** What a VmFunctionImplementation may return. *)
Inductive HostReturn : Type :=
| RetVoid
| RetHandle (h : loc)
| RetResult (r : VmCallResult).

(** [key: string | QuickJSHandle] *)
Inductive PropKey : Type :=
| KeyString (s : string)
| KeyHandle (h : loc).

(** Ghost log of what crossed the boundary and of the disposals performed. *)
Inductive event : Type :=
| EvCall (fn : string) (args : list ptr)
| EvDispose (l : loc)
| EvDisposer (d : Disposer) (v : ptr).

Definition is_dispose (e : event) : option loc :=
  match e with EvDispose l => Some l | _ => None end.

Definition is_disposer (e : event) : option (Disposer * ptr) :=
  match e with EvDisposer d v => Some (d, v) | _ => None end.

Definition disposals (t : list event) : list loc := omap is_dispose t.
Definition disposer_runs (t : list event) : list (Disposer * ptr) := omap is_disposer t.

(** Little-endian bytes of one Int32Array element. *)
Definition int32_bytes (v : Z) : list Z :=
  [Z.land v 255; Z.land (Z.shiftr v 8) 255;
   Z.land (Z.shiftr v 16) 255; Z.land (Z.shiftr v 24) 255].

(** Reading a little-endian byte sequence back as a number. *)
Definition le_decode (bs : list Z) : Z := foldr (λ b acc, b + 256 * acc) 0 bs.

Section Facade.

Context {number : Type} `{Countable number}.

(** Host values produced by [dump]: [undefined] or what JSON can denote. *)
Local Unset Elimination Schemes.
Inductive json : Type :=
| JNull
| JBool (b : bool)
| JNum (n : number)
| JStr (s : string)
| JArr (l : list json)
| JObj (fields : list (string * json)).
Local Set Elimination Schemes.

Inductive native : Type :=
| NUndefined
| NJson (j : json).

(** An Error-shaped host object: the fields [errorToHandle] inspects. *)
Record JSError : Type := mkError {
  name : option string;
  message : option string;
  stack : option string
}.

(** Whatever a [throw] statement of the module can raise. *)
Inductive exn : Type :=
| ExnError (e : JSError)
| ExnHandle (h : loc)
| ExnNative (d : native).

Inductive outcome (A : Type) : Type :=
| Ok (a : A)
| Throw (e : exn).
Global Arguments Ok {A} a.
Global Arguments Throw {A} e.

(** The platform services the module uses besides the engine. *)
Class Platform : Type := {
  JSON_parse : string → option json;         (* None: SyntaxError *)
  Error_stack : string → option string;      (* the stack a new Error gets *)
  String_of_number : number → string;        (* template-literal conversion *)
  marshal_string : json → string;            (* a non-string sent as a string *)
  num_of_nat : nat → number                  (* the counter as a number *)
}.

(** The engine boundary: class QuickJSFFI and the Emscripten module, as
    transitions of the engine state. *)
Class QuickJSFFI (engine : Type) : Type := {
  QTS_SetHostCallback : ptr → engine → engine * unit;
  QTS_ArgvGetJSValueConstPointer : ptr → nat → engine → engine * ptr;
  QTS_Throw : ptr → ptr → engine → engine * ptr;
  QTS_NewError : ptr → engine → engine * ptr;
  QTS_NewRuntime : engine → engine * ptr;
  QTS_FreeRuntime : ptr → engine → engine * unit;
  QTS_NewContext : ptr → engine → engine * ptr;
  QTS_FreeContext : ptr → engine → engine * unit;
  QTS_FreeValuePointer : ptr → ptr → engine → engine * unit;
  QTS_DupValue : ptr → ptr → engine → engine * ptr;
  QTS_GetUndefined : engine → engine * ptr;
  QTS_GetGlobalObject : ptr → engine → engine * ptr;
  QTS_NewObject : ptr → engine → engine * ptr;
  QTS_NewObjectProto : ptr → ptr → engine → engine * ptr;
  QTS_NewFloat64 : ptr → number → engine → engine * ptr;
  QTS_GetFloat64 : ptr → ptr → engine → engine * number;
  QTS_NewString : ptr → string → engine → engine * ptr;
  QTS_GetString : ptr → ptr → engine → engine * string;
  QTS_NewFunction : ptr → ptr → string → engine → engine * ptr;
  QTS_GetProp : ptr → ptr → ptr → engine → engine * ptr;
  QTS_SetProp : ptr → ptr → ptr → ptr → engine → engine * unit;
  QTS_DefineProp :
    ptr → ptr → ptr → ptr → ptr → ptr → bool → bool → bool → engine → engine * unit;
  QTS_Call : ptr → ptr → ptr → nat → ptr → engine → engine * ptr;
  QTS_ResolveException : ptr → ptr → engine → engine * ptr;
  QTS_Dump : ptr → ptr → engine → engine * string;
  QTS_Typeof : ptr → ptr → engine → engine * string;
  QTS_Eval : ptr → string → engine → engine * ptr;
  _malloc : nat → engine → engine * ptr;
  _free : ptr → engine → engine * unit;
  HEAPU8_set : ptr → list Z → engine → engine * unit;
  addFunction : string → engine → engine * ptr
}.

Context {engine : Type} `{!QuickJSFFI engine} `{!Platform}.

(** The type of host function implementations, with their [name]. *)
Context {fnImpl : Type} (fn_name : fnImpl → string).

(** class QuickJSVm (the fields that are not shared singletons) *)
Record QuickJSVm : Type := mkVm {
  ctx : loc;
  rt : loc;
  _undefined : option loc;
  _global : option loc;
  lifetimes : list loc;
  fnNextId : nat;
  fnMap : gmap number fnImpl
}.

(** Everything mutable the module can reach. [vmMap] is the field of the
    one [QuickJS] instance. *)
Record World : Type := mkWorld {
  heap : list Lifetime;
  vms : list QuickJSVm;
  vmMap : gmap Z vmid;
  isReady : bool;
  singleton : bool;
  engine_st : engine;
  console : list exn;
  trace : list event
}.

Definition set_heap (h : list Lifetime) (w : World) : World :=
  mkWorld h (vms w) (vmMap w) (isReady w) (singleton w) (engine_st w) (console w) (trace w).
Definition set_vms (v : list QuickJSVm) (w : World) : World :=
  mkWorld (heap w) v (vmMap w) (isReady w) (singleton w) (engine_st w) (console w) (trace w).
Definition set_vmMap (m : gmap Z vmid) (w : World) : World :=
  mkWorld (heap w) (vms w) m (isReady w) (singleton w) (engine_st w) (console w) (trace w).
Definition set_isReady (b : bool) (w : World) : World :=
  mkWorld (heap w) (vms w) (vmMap w) b (singleton w) (engine_st w) (console w) (trace w).
Definition set_singleton (b : bool) (w : World) : World :=
  mkWorld (heap w) (vms w) (vmMap w) (isReady w) b (engine_st w) (console w) (trace w).
Definition set_engine (e : engine) (w : World) : World :=
  mkWorld (heap w) (vms w) (vmMap w) (isReady w) (singleton w) e (console w) (trace w).
Definition set_console (c : list exn) (w : World) : World :=
  mkWorld (heap w) (vms w) (vmMap w) (isReady w) (singleton w) (engine_st w) c (trace w).
Definition set_trace (t : list event) (w : World) : World :=
  mkWorld (heap w) (vms w) (vmMap w) (isReady w) (singleton w) (engine_st w) (console w) t.

(** ** The monad: state that survives a throw *)

Definition M (A : Type) : Type := World → World * outcome A.

Definition ret {A} (a : A) : M A := λ w, (w, Ok a).
Definition throw {A} (e : exn) : M A := λ w, (w, Throw e).
Definition bind {A B} (m : M A) (k : A → M B) : M B :=
  λ w, match m w with
       | (w', Ok a) => k a w'
       | (w', Throw e) => (w', Throw e)
       end.
Definition try_catch {A} (m : M A) (handler : exn → M A) : M A :=
  λ w, match m w with
       | (w', Throw e) => handler e w'
       | r => r
       end.

#[global] Instance M_ret : MRet M := @ret.
#[global] Instance M_bind : MBind M := λ A B k m, bind m k.

Definition get_world : M World := λ w, (w, Ok w).
Definition modify (f : World → World) : M unit := λ w, (f w, Ok tt).
Definition emit (e : event) : M unit := modify (λ w, set_trace (trace w ++ [e]) w).

Fixpoint for_each {A} (l : list A) (body : A → M unit) : M unit :=
  match l with
  | [] => ret tt
  | x :: l' => body x ;; for_each l' body
  end.

Fixpoint map_m {A B} (f : A → M B) (l : list A) : M (list B) :=
  match l with
  | [] => ret []
  | x :: l' => y ← f x; ys ← map_m f l'; ret (y :: ys)
  end.

(** [new Error(msg)] and the TypeError of a property read on nothing. *)
Definition new_Error (msg : string) : exn :=
  ExnError (mkError (Some "Error"%string) (Some msg) (Error_stack msg)).
Definition TypeError (msg : string) : exn :=
  ExnError (mkError (Some "TypeError"%string) (Some msg) (Error_stack msg)).

(** One call through the boundary. *)
Definition ffi {A} (fn : string) (args : list ptr) (f : engine → engine * A) : M A :=
  λ w, let '(e, a) := f (engine_st w) in
       (set_trace (trace w ++ [EvCall fn args]) (set_engine e w), Ok a).

(** ** class Lifetime *)

Definition deref (l : loc) : M Lifetime :=
  λ w, match heap w !! l with
       | Some x => (w, Ok x)
       | None => (w, Throw (TypeError "Cannot read properties of undefined"))
       end.

Definition get_vm (v : vmid) : M QuickJSVm :=
  λ w, match vms w !! v with
       | Some x => (w, Ok x)
       | None => (w, Throw (TypeError "Cannot read properties of undefined"))
       end.

Definition update_vm (v : vmid) (f : QuickJSVm → QuickJSVm) : M unit :=
  modify (λ w, set_vms (alter f v (vms w)) w).

Definition new_Lifetime (v : ptr) (d : option Disposer) (o : option vmid) : M loc :=
  λ w, (set_heap (heap w ++ [mkLifetime v d o true]) w, Ok (length (heap w))).

Definition Lifetime_alive (l : loc) : M bool :=
  x ← deref l; ret (_alive x).

Definition assertAlive (l : loc) : M unit :=
  x ← deref l;
  if negb (_alive x) then throw (new_Error "Not alive") else ret tt.

Definition Lifetime_value (l : loc) : M ptr :=
  assertAlive l ;;
  x ← deref l; ret (_value x).

Definition Lifetime_owner (l : loc) : M (option vmid) :=
  x ← deref l; ret (_owner x).

(** The body of each registered disposer. *)
Definition run_disposer (d : Disposer) (v : ptr) : M unit :=
  emit (EvDisposer d v) ;;
  match d with
  | freeJSValue vm =>
      s ← get_vm vm;
      c ← Lifetime_value (ctx s);
      ffi "QTS_FreeValuePointer" [c; v] (QTS_FreeValuePointer c v)
  | moduleFree => ffi "_free" [v] (_free v)
  | freeRuntime => ffi "QTS_FreeRuntime" [v] (QTS_FreeRuntime v)
  | freeContext =>
      modify (λ w, set_vmMap (delete v (vmMap w)) w) ;;
      ffi "QTS_FreeContext" [v] (QTS_FreeContext v)
  end.

Definition Lifetime_dispose (l : loc) : M unit :=
  assertAlive l ;;
  emit (EvDispose l) ;;
  x ← deref l;
  match disposer x with
  | Some d => run_disposer d (_value x)
  | None => ret tt
  end ;;
  modify (λ w, set_heap (alter (with_alive true) l (heap w)) w).

(** ** class QuickJSVm *)

(** What a host function does when applied: any computation over the world. *)
Context (host_apply : fnImpl → loc → list loc → M HostReturn).

(** VmPropertyDescriptor<QuickJSHandle> *)
Record VmPropertyDescriptor : Type := mkDescriptor {
  d_value : option loc;
  d_configurable : option bool;
  d_enumerable : option bool;
  d_get : option fnImpl;
  d_set : option fnImpl
}.

(** [Boolean(x)] on an optional boolean / an optional object. *)
Definition Boolean (b : option bool) : bool := default false b.
Definition is_defined {A} (o : option A) : bool := bool_decide (is_Some o).

Definition vm_set_undefined (h : loc) (s : QuickJSVm) : QuickJSVm :=
  mkVm (ctx s) (rt s) (Some h) (_global s) (lifetimes s) (fnNextId s) (fnMap s).
Definition vm_set_global (h : loc) (s : QuickJSVm) : QuickJSVm :=
  mkVm (ctx s) (rt s) (_undefined s) (Some h) (lifetimes s) (fnNextId s) (fnMap s).
Definition vm_push_lifetime (h : loc) (s : QuickJSVm) : QuickJSVm :=
  mkVm (ctx s) (rt s) (_undefined s) (_global s) (lifetimes s ++ [h]) (fnNextId s) (fnMap s).
Definition vm_set_fnNextId (n : nat) (s : QuickJSVm) : QuickJSVm :=
  mkVm (ctx s) (rt s) (_undefined s) (_global s) (lifetimes s) n (fnMap s).
Definition vm_fnMap_set (k : number) (fn : fnImpl) (s : QuickJSVm) : QuickJSVm :=
  mkVm (ctx s) (rt s) (_undefined s) (_global s) (lifetimes s) (fnNextId s) (<[k:=fn]> (fnMap s)).

Definition foreign_handle_error : exn := new_Error "Given handle created by a different VM".

Definition assertOwned (this : vmid) (handle : loc) : M unit :=
  o ← Lifetime_owner handle;
  match o with
  | Some v => if decide (v ≠ this) then throw foreign_handle_error else mret tt
  | None => mret tt
  end.

Definition heapValueHandle (this : vmid) (p : ptr) : M loc :=
  new_Lifetime p (Some (freeJSValue this)) (Some this).

(** [this.ctx.value] *)
Definition ctx_value (this : vmid) : M ptr :=
  s ← get_vm this; Lifetime_value (ctx s).

Definition QuickJSVm_undefined (this : vmid) : M loc :=
  s ← get_vm this;
  match _undefined s with
  | Some h => mret h
  | None =>
      p ← ffi "QTS_GetUndefined" [] QTS_GetUndefined;
      h ← new_Lifetime p None None;
      update_vm this (vm_set_undefined h);;
      mret h
  end.

Definition QuickJSVm_global (this : vmid) : M loc :=
  s ← get_vm this;
  match _global s with
  | Some h => mret h
  | None =>
      c ← ctx_value this;
      p ← ffi "QTS_GetGlobalObject" [c] (QTS_GetGlobalObject c);
      l ← heapValueHandle this p;
      update_vm this (vm_push_lifetime l);;
      h ← new_Lifetime p None (Some this);
      update_vm this (vm_set_global h);;
      mret h
  end.

Definition typeof (this : vmid) (handle : loc) : M string :=
  assertOwned this handle;;
  c ← ctx_value this;
  v ← Lifetime_value handle;
  ffi "QTS_Typeof" [c; v] (QTS_Typeof c v).

Definition newNumber (this : vmid) (num : number) : M loc :=
  c ← ctx_value this;
  p ← ffi "QTS_NewFloat64" [c] (QTS_NewFloat64 c num);
  heapValueHandle this p.

Definition getNumber (this : vmid) (handle : loc) : M number :=
  assertOwned this handle;;
  c ← ctx_value this;
  v ← Lifetime_value handle;
  ffi "QTS_GetFloat64" [c; v] (QTS_GetFloat64 c v).

Definition newString (this : vmid) (str : string) : M loc :=
  c ← ctx_value this;
  p ← ffi "QTS_NewString" [c] (QTS_NewString c str);
  heapValueHandle this p.

Definition getString (this : vmid) (handle : loc) : M string :=
  assertOwned this handle;;
  c ← ctx_value this;
  v ← Lifetime_value handle;
  ffi "QTS_GetString" [c; v] (QTS_GetString c v).

Definition newObject (this : vmid) (prototype : option loc) : M loc :=
  match prototype with
  | Some p => assertOwned this p
  | None => mret tt
  end;;
  p ← match prototype with
      | Some proto =>
          c ← ctx_value this;
          v ← Lifetime_value proto;
          ffi "QTS_NewObjectProto" [c; v] (QTS_NewObjectProto c v)
      | None =>
          c ← ctx_value this;
          ffi "QTS_NewObject" [c] (QTS_NewObject c)
      end;
  heapValueHandle this p.

Definition newFunction (this : vmid) (nm : string) (fn : fnImpl) : M loc :=
  s ← get_vm this;
  let fnId := S (fnNextId s) in
  update_vm this (vm_set_fnNextId fnId);;
  update_vm this (vm_fnMap_set (num_of_nat fnId) fn);;
  fnIdHandle ← newNumber this (num_of_nat fnId);
  c ← ctx_value this;
  idp ← Lifetime_value fnIdHandle;
  p ← ffi "QTS_NewFunction" [c; idp] (QTS_NewFunction c idp nm);
  funcHandle ← heapValueHandle this p;
  idp' ← Lifetime_value fnIdHandle;
  ffi "_free" [idp'] (_free idp');;
  mret funcHandle.

(** [typeof key === 'string' ? this.newString(key) : key] *)
Definition key_handle (this : vmid) (key : PropKey) : M loc :=
  match key with
  | KeyString k => newString this k
  | KeyHandle h => mret h
  end.

(** [if (typeof key === 'string') quickJSKey.dispose()] *)
Definition key_release (key : PropKey) (quickJSKey : loc) : M unit :=
  match key with
  | KeyString _ => Lifetime_dispose quickJSKey
  | KeyHandle _ => mret tt
  end.

Definition getProp (this : vmid) (handle : loc) (key : PropKey) : M loc :=
  quickJSKey ← key_handle this key;
  c ← ctx_value this;
  hv ← Lifetime_value handle;
  kv ← Lifetime_value quickJSKey;
  p ← ffi "QTS_GetProp" [c; hv; kv] (QTS_GetProp c hv kv);
  result ← heapValueHandle this p;
  key_release key quickJSKey;;
  mret result.

Definition setProp (this : vmid) (handle : loc) (key : PropKey) (value : loc) : M unit :=
  quickJSKey ← key_handle this key;
  c ← ctx_value this;
  hv ← Lifetime_value handle;
  kv ← Lifetime_value quickJSKey;
  vv ← Lifetime_value value;
  ffi "QTS_SetProp" [c; hv; kv; vv] (QTS_SetProp c hv kv vv);;
  key_release key quickJSKey.

(** [descriptor.get ? this.newFunction(descriptor.get.name, descriptor.get)
                     : this.undefined] *)
Definition accessor_handle (this : vmid) (f : option fnImpl) : M loc :=
  match f with
  | Some fn => newFunction this (fn_name fn) fn
  | None => QuickJSVm_undefined this
  end.

Definition defineProp (this : vmid) (handle : loc) (key : PropKey)
    (descriptor : VmPropertyDescriptor) : M unit :=
  quickJSKey ← key_handle this key;
  value ← match d_value descriptor with
          | Some v => mret v
          | None => QuickJSVm_undefined this
          end;
  let configurable := Boolean (d_configurable descriptor) in
  let enumerable := Boolean (d_enumerable descriptor) in
  let hasValue := is_defined (d_value descriptor) in
  get ← accessor_handle this (d_get descriptor);
  set ← accessor_handle this (d_set descriptor);
  c ← ctx_value this;
  hv ← Lifetime_value handle;
  kv ← Lifetime_value quickJSKey;
  vv ← Lifetime_value value;
  gv ← Lifetime_value get;
  sv ← Lifetime_value set;
  ffi "QTS_DefineProp" [c; hv; kv; vv; gv; sv]
      (QTS_DefineProp c hv kv vv gv sv configurable enumerable hasValue);;
  key_release key quickJSKey.

Definition toPointerArray (this : vmid) (handleArray : list loc) : M loc :=
  typedArray ← map_m Lifetime_value handleArray;
  let numBytes := (length typedArray * 4)%nat in
  p ← ffi "_malloc" [] (_malloc numBytes);
  ffi "HEAPU8.set" [p] (HEAPU8_set p (typedArray ≫= int32_bytes));;
  new_Lifetime p (Some moduleFree) None.

(** The tail shared by [callFunction] and [evalCode]. *)
Definition resolve_result (this : vmid) (resultPtr : ptr) : M VmCallResult :=
  c ← ctx_value this;
  errorPtr ← ffi "QTS_ResolveException" [c; resultPtr] (QTS_ResolveException c resultPtr);
  if decide (errorPtr ≠ 0) then
    c' ← ctx_value this;
    ffi "QTS_FreeValuePointer" [c'; resultPtr] (QTS_FreeValuePointer c' resultPtr);;
    h ← heapValueHandle this errorPtr;
    mret (ResError h)
  else
    h ← heapValueHandle this resultPtr;
    mret (ResValue h).

Definition callFunction (this : vmid) (func thisVal : loc) (args : list loc)
    : M VmCallResult :=
  argsArrayPtr ← toPointerArray this args;
  c ← ctx_value this;
  fv ← Lifetime_value func;
  tv ← Lifetime_value thisVal;
  av ← Lifetime_value argsArrayPtr;
  resultPtr ← ffi "QTS_Call" [c; fv; tv; av] (QTS_Call c fv tv (length args) av);
  Lifetime_dispose argsArrayPtr;;
  resolve_result this resultPtr.

Definition evalCode (this : vmid) (code : string) : M VmCallResult :=
  c ← ctx_value this;
  resultPtr ← ffi "QTS_Eval" [c] (QTS_Eval c code);
  resolve_result this resultPtr.

Definition dump (this : vmid) (handle : loc) : M native :=
  type ← typeof this handle;
  if decide (type = "string"%string) then
    s ← getString this handle; mret (NJson (JStr s))
  else if decide (type = "number"%string) then
    n ← getNumber this handle; mret (NJson (JNum n))
  else if decide (type = "undefined"%string) then
    mret NUndefined
  else
    c ← ctx_value this;
    v ← Lifetime_value handle;
    str ← ffi "QTS_Dump" [c; v] (QTS_Dump c v);
    match JSON_parse str with
    | Some j => mret (NJson j)
    | None => mret (NJson (JStr str))
    end.

(** Property read on a parsed object (its keys are unique). *)
Fixpoint json_field (k : string) (fields : list (string * json)) : option json :=
  match fields with
  | [] => None
  | (k', v) :: rest => if decide (k' = k) then Some v else json_field k rest
  end.

(** [dumped && typeof dumped === 'object' && typeof dumped.message === 'string'],
    giving the message and the name to use. *)
Definition error_shape (dumped : native) : option (string * option string) :=
  match dumped with
  | NJson (JObj fields) =>
      match json_field "message" fields with
      | Some (JStr m) =>
          Some (m, match json_field "name" fields with
                   | Some (JStr n) => Some n
                   | _ => None
                   end)
      | _ => None
      end
  | _ => None
  end.

(** [new Error(message)], renamed when the dump carried a name. *)
Definition rebuilt_exception (m : string) (n : option string) : exn :=
  ExnError (mkError (Some (default "Error"%string n)) (Some m) (Error_stack m)).

Definition unwrapResult (this : vmid) (result : VmCallResult) : M loc :=
  match result with
  | ResError e =>
      dumped ← dump this e;
      Lifetime_dispose e;;
      match error_shape dumped with
      | Some (m, n) => throw (rebuilt_exception m n)
      | None => throw (ExnNative dumped)
      end
  | ResValue v => mret v
  end.

Definition dispose_if_alive (l : loc) : M unit :=
  a ← Lifetime_alive l;
  if (a : bool) then Lifetime_dispose l else mret tt.

Definition QuickJSVm_dispose (this : vmid) : M unit :=
  s ← get_vm this;
  for_each (lifetimes s) dispose_if_alive;;
  Lifetime_dispose (ctx s);;
  Lifetime_dispose (rt s).

(** [error.name], [error.message], [error.stack] on whatever was caught:
    [None] is [undefined]; reading a property of [undefined] or [null]
    throws. *)
Definition error_field (sel : JSError → option string) (k : string) (error : exn)
    : M (option string) :=
  match error with
  | ExnError e => mret (sel e)
  | ExnHandle _ => mret None
  | ExnNative NUndefined | ExnNative (NJson JNull) =>
      throw (TypeError "Cannot read properties of undefined")
  | ExnNative (NJson (JObj fields)) =>
      mret (match json_field k fields with
            | Some (JStr s) => Some s
            | Some j => Some (marshal_string j)
            | None => None
            end)
  | ExnNative _ => mret None
  end.

Definition errorToHandle (this : vmid) (error : exn) : M loc :=
  match error with
  | ExnHandle h => mret h
  | _ =>
      c ← ctx_value this;
      p ← ffi "QTS_NewError" [c] (QTS_NewError c);
      errorHandle ← heapValueHandle this p;
      n ← error_field name "name" error;
      match n with
      | Some x =>
          handle ← newString this x;
          setProp this errorHandle (KeyString "name") handle;;
          Lifetime_dispose handle
      | None => mret tt
      end;;
      m ← error_field message "message" error;
      match m with
      | Some x =>
          handle ← newString this x;
          setProp this errorHandle (KeyString "message") handle;;
          Lifetime_dispose handle
      | None => mret tt
      end;;
      st ← error_field stack "stack" error;
      match st with
      | Some x =>
          handle ← newString this x;
          Lifetime_dispose handle
      | None => mret tt
      end;;
      mret errorHandle
  end.

(** The handle created for argument [i] of a callback. *)
Definition arg_handle (this : vmid) (argv : ptr) (i : nat) : M loc :=
  p ← ffi "QTS_ArgvGetJSValueConstPointer" [argv; Z.of_nat i]
        (QTS_ArgvGetJSValueConstPointer argv i);
  new_Lifetime p None (Some this).

(** The [try] block of the dispatch: what becomes [ownedResultPtr]. *)
Definition host_call (this : vmid) (fn : fnImpl) (thisHandle : loc)
    (argHandles : list loc) : M ptr :=
  result ← host_apply fn thisHandle argHandles;
  match result with
  | RetVoid => mret 0
  | RetResult (ResError e) => throw (ExnHandle e)
  | RetHandle handle | RetResult (ResValue handle) =>
      c ← ctx_value this;
      hv ← Lifetime_value handle;
      p ← ffi "QTS_DupValue" [c; hv] (QTS_DupValue c hv);
      Lifetime_dispose handle;;
      mret p
  end.

(** The [catch] block of the dispatch. *)
Definition host_throw (this : vmid) (error : exn) : M ptr :=
  errorHandle ← errorToHandle this error;
  c ← ctx_value this;
  ev ← Lifetime_value errorHandle;
  p ← ffi "QTS_Throw" [c; ev] (QTS_Throw c ev);
  Lifetime_dispose errorHandle;;
  mret p.

Definition QuickJSVm_cToHostCallbackFunction (this : vmid)
    (ctx_ptr this_ptr : ptr) (argc : nat) (argv fn_data : ptr) : M ptr :=
  c ← ctx_value this;
  if decide (ctx_ptr ≠ c) then
    throw (new_Error "QuickJSVm instance received C -> JS call with mismatched ctx")
  else
    fnId ← ffi "QTS_GetFloat64" [ctx_ptr; fn_data] (QTS_GetFloat64 ctx_ptr fn_data);
    s ← get_vm this;
    match fnMap s !! fnId with
    | None =>
        throw (new_Error ("QuickJSVm had no callback with id " +:+ String_of_number fnId))
    | Some fn =>
        thisHandle ← new_Lifetime this_ptr None (Some this);
        argHandles ← map_m (arg_handle this argv) (seq 0 argc);
        ownedResultPtr ← try_catch (host_call this fn thisHandle argHandles)
                                   (host_throw this);
        dispose_if_alive thisHandle;;
        for_each argHandles dispose_if_alive;;
        mret ownedResultPtr
    end.

(** ** class QuickJS and the module-level state *)

Definition dquote : string := String (Ascii.ascii_of_nat 34) EmptyString.

Definition not_ready_error : exn :=
  new_Error "QuickJS WASM module not initialized. Either wait for `ready` or use getInstance()".
Definition second_instance_error : exn :=
  new_Error "Cannot create another QuickJS instance. Use the instance already created (try getInstance())".

Definition QuickJS_constructor : M unit :=
  w ← get_world;
  if negb (isReady w) then throw not_ready_error
  else if singleton w then throw second_instance_error
  else
    modify (λ w, set_singleton true (set_vmMap ∅ w));;
    fp ← ffi "addFunction" [] (addFunction "iiiiii");
    ffi "QTS_SetHostCallback" [fp] (QTS_SetHostCallback fp).

Definition createVm : M vmid :=
  rp ← ffi "QTS_NewRuntime" [] QTS_NewRuntime;
  r ← new_Lifetime rp (Some freeRuntime) None;
  rv ← Lifetime_value r;
  cp ← ffi "QTS_NewContext" [rv] (QTS_NewContext rv);
  c ← new_Lifetime cp (Some freeContext) None;
  w ← get_world;
  let vm := length (vms w) in
  modify (λ w, set_vms (vms w ++ [mkVm c r None None [] 0 ∅]) w);;
  cv ← Lifetime_value c;
  modify (λ w, set_vmMap (<[cv:=vm]> (vmMap w)) w);;
  mret vm.


Definition console_error (error : exn) : M unit :=
  modify (λ w, set_console (console w ++ [error]) w).

(** The routing inside the trampoline's [try]. *)
Definition route (ctx_ptr this_ptr : ptr) (argc : nat) (argv fn_data_ptr : ptr) : M ptr :=
  w ← get_world;
  match vmMap w !! ctx_ptr with
  | None =>
      callee ← ffi "QTS_GetString" [ctx_ptr; fn_data_ptr] (QTS_GetString ctx_ptr fn_data_ptr);
      throw (new_Error ("QuickJSVm(ctx = " +:+ pretty ctx_ptr
                        +:+ ") not found for C function call "
                        +:+ dquote +:+ callee +:+ dquote))
  | Some vm => QuickJSVm_cToHostCallbackFunction vm ctx_ptr this_ptr argc argv fn_data_ptr
  end.

Definition QuickJS_cToHostCallbackFunction
    (ctx_ptr this_ptr : ptr) (argc : nat) (argv fn_data_ptr : ptr) : M ptr :=
  try_catch (route ctx_ptr this_ptr argc argv fn_data_ptr)
            (λ error, console_error error;; mret 0).

(** [ready]: the module's initialisation callback has run by the time an
    [await ready] resumes. *)
Definition ready : M unit := modify (set_isReady true).

Definition getInstance : M unit :=
  ready;;
  w ← get_world;
  if negb (singleton w) then QuickJS_constructor else mret tt.

(** ** Vocabulary for the statements below *)

(** [l] refers to the live object [x]. *)
Definition live (w : World) (l : loc) (x : Lifetime) : Prop :=
  heap w !! l = Some x ∧ _alive x = true.

Definition alive_in (w : World) (l : loc) : bool :=
  match heap w !! l with
  | Some x => _alive x
  | None => false
  end.

(** The disposer can do its work: the one that reads a VM's context needs
    that context to be readable. *)
Definition can_run (w : World) (d : option Disposer) : Prop :=
  match d with
  | Some (freeJSValue v) => ∃ s c, vms w !! v = Some s ∧ live w (ctx s) c
  | _ => True
  end.

(** The VM [this] exists and its context has address [c]. *)
Definition vm_ctx (w : World) (this : vmid) (c : ptr) : Prop :=
  ∃ s x, vms w !! this = Some s ∧ live w (ctx s) x ∧ _value x = c.

(** The handle passes the ownership check of [this]. *)
Definition owned_by (this : vmid) (x : Lifetime) : Prop :=
  ∀ v, _owner x = Some v → v = this.

(** The address a handle wraps. *)
Definition value_in (w : World) (l : loc) : ptr :=
  from_option _value 0 (heap w !! l).






Definition boundary_number (c : ptr) (n : number) (e : engine) : number :=
  (QTS_GetFloat64 c (QTS_NewFloat64 c n e).2 (QTS_NewFloat64 c n e).1).2.


Definition engine_keeps_number (c : ptr) (n : number) : Prop :=
  ∀ e, boundary_number c n e = n.

(** The step from [w] to [w'] only talked to the engine: no object, table
    or module variable changed and nothing was disposed. *)
Definition only_engine (w w' : World) : Prop :=
  heap w' = heap w ∧ vms w' = vms w ∧ vmMap w' = vmMap w ∧
  isReady w' = isReady w ∧ singleton w' = singleton w ∧
  console w' = console w ∧ disposals (trace w') = disposals (trace w).

(** The boundary calls logged in a trace, and how many went to one entry. *)
Definition is_call (e : event) : option (string * list ptr) :=
  match e with EvCall fn args => Some (fn, args) | _ => None end.
Definition calls (t : list event) : list (string * list ptr) := omap is_call t.

(** The address of the context of VM [vm], as a disposer bound to [vm]
    reads it. *)
Definition ctx_of (w : World) (vm : vmid) : ptr :=
  from_option (λ s, value_in w (ctx s)) 0 (vms w !! vm).

(** The one boundary call a disposer makes for the address [v]. *)
Definition release_call (w : World) (d : Disposer) (v : ptr) : string * list ptr :=
  match d with
  | freeJSValue vm => ("QTS_FreeValuePointer"%string, [ctx_of w vm; v])
  | moduleFree => ("_free"%string, [v])
  | freeRuntime => ("QTS_FreeRuntime"%string, [v])
  | freeContext => ("QTS_FreeContext"%string, [v])
  end.

(** The boundary calls that disposing the alive objects among [ls] makes. *)
Definition release_calls (w : World) (ls : list loc) : list (string * list ptr) :=
  ls ≫= λ l,
    match heap w !! l with
    | Some x =>
        if _alive x
        then from_option (λ d, [release_call w d (_value x)]) [] (disposer x)
        else []
    | None => []
    end.

(** The engine's own step when the disposer [d] runs on the address [v]. *)
Definition release_engine (w : World) (d : Disposer) (v : ptr) (e : engine) : engine :=
  match d with
  | freeJSValue vm => (QTS_FreeValuePointer (ctx_of w vm) v e).1
  | moduleFree => (_free v e).1
  | freeRuntime => (QTS_FreeRuntime v e).1
  | freeContext => (QTS_FreeContext v e).1
  end.

(** What [dispose()] of the object [l] appends to the trace: the disposal
    and, when the object has a disposer, its run and its call across the
    boundary; and what it does to the engine. *)
Definition dispose_events (w : World) (l : loc) : list event :=
  match heap w !! l with
  | Some x =>
      EvDispose l ::
      from_option (λ d, [EvDisposer d (_value x);
                         EvCall (release_call w d (_value x)).1
                                (release_call w d (_value x)).2])
                  [] (disposer x)
  | None => []
  end.

Definition dispose_engine (w : World) (l : loc) (e : engine) : engine :=
  match heap w !! l with
  | Some x => from_option (λ d, release_engine w d (_value x) e) e (disposer x)
  | None => e
  end.

(** The same for one round of the cleanup loop,
    [if (lifetime.alive) lifetime.dispose()]. *)
Definition cleanup_events (w : World) (l : loc) : list event :=
  if alive_in w l then dispose_events w l else [].

Definition cleanup_engine (w : World) (e : engine) (l : loc) : engine :=
  if alive_in w l then dispose_engine w l e else e.

(** What the engine is asked when [errorToHandle] sets one attribute of the
    error at [ep]: a string for the value, a string for the key, the
    assignment, and the release of the key and then of the value. *)
Definition attribute_engine (c ep : ptr) (field x : string) (e : engine) : engine :=
  let v := QTS_NewString c x e in
  let k := QTS_NewString c field v.1 in
  let s := QTS_SetProp c ep k.2 v.2 k.1 in
  let f := QTS_FreeValuePointer c k.2 s.1 in
  (QTS_FreeValuePointer c v.2 f.1).1.

(** The stack is only made into a string that is released again. *)
Definition stack_engine (c : ptr) (x : string) (e : engine) : engine :=
  let v := QTS_NewString c x e in
  (QTS_FreeValuePointer c v.2 v.1).1.

(** Turning an Error into an engine error, as the engine sees it: a fresh
    error object, then its [name] and its [message] set when the Error has
    them, in this order, then the stack; and the address of the error. *)
Definition error_engine (c : ptr) (err : JSError) (e : engine) : engine * ptr :=
  let n := QTS_NewError c e in
  let e1 := from_option (λ x, attribute_engine c n.2 "name" x n.1) n.1 (name err) in
  let e2 := from_option (λ x, attribute_engine c n.2 "message" x e1) e1 (message err) in
  (from_option (λ x, stack_engine c x e2) e2 (stack err), n.2).

(** How many of the logged calls went to the entry [fn]. *)
Definition count_calls (fn : string) (cs : list (string * list ptr)) : nat :=
  length (filter (λ c, c.1 = fn) cs).

(** One of the two attribute blocks of [errorToHandle]. *)
Definition error_attribute (this : vmid) (errorHandle : loc) (field x : string) : M unit :=
  handle ← newString this x;
  setProp this errorHandle (KeyString field) handle;;
  Lifetime_dispose handle.

(** The callback dispatch reading the identifier out of the data slot. *)
Definition callback_id (c fn_data : ptr) : M number :=
  ffi "QTS_GetFloat64" [c; fn_data] (QTS_GetFloat64 c fn_data).

(** The prologue of the callback dispatch: the handles a host function is
    entered with. *)
Definition call_handles (this : vmid) (this_ptr : ptr) (argc : nat) (argv : ptr)
    : M (loc * list loc) :=
  thisHandle ← new_Lifetime this_ptr None (Some this);
  argHandles ← map_m (arg_handle this argv) (seq 0 argc);
  mret (thisHandle, argHandles).

(** How many accessor functions a descriptor carries. *)
Definition accessors (d : VmPropertyDescriptor) : nat :=
  ((if d_get d is Some _ then 1 else 0) + (if d_set d is Some _ then 1 else 0))%nat.

(** Whether the record of a VM holds its [undefined] handle already. *)
Definition has_undefined (s : QuickJSVm) : nat :=
  if _undefined s is Some _ then 1%nat else 0%nat.

(** The VM [this] went from the record [s] in [w] to [s1] in [w1] by steps
    that only create: nothing was disposed, and the calls [cs] were made. *)
Definition vm_grows (this : vmid) (s : QuickJSVm) (w : World)
    (s1 : QuickJSVm) (w1 : World) (cs : list (string * list ptr)) : Prop :=
  vms w1 !! this = Some s1 ∧ ctx s1 = ctx s ∧
  (∃ ext, heap w1 = heap w ++ ext) ∧
  (∀ u, _undefined s1 = Some u → ∃ xu, live w1 u xu) ∧
  disposals (trace w1) = disposals (trace w) ∧
  calls (trace w1) = calls (trace w) ++ cs ∧
  fnNextId s1 = (fnNextId s + count_calls "QTS_NewFunction" cs)%nat ∧
  (count_calls "QTS_GetUndefined" cs + has_undefined s = has_undefined s1)%nat ∧
  Forall (λ c, c.1 ∈ ["QTS_GetUndefined"; "QTS_NewFloat64"; "QTS_NewFunction"; "_free"]%string)
         cs.


End Facade.

(** ** A small engine to run the facade on

    Cells are allocated in order; the address of cell [k] is [k + 1], so no
    address is [0].  Freeing does nothing, which is enough to observe what
    the facade itself does. *)
Module Toy.

Inductive cell : Type :=
| CUndefined
| CNum (n : Z)
| CStr (s : string)
| CObj
| CPending                 (* the result of guest code that threw *)
| CErr (text : string).    (* an error value, with its dump *)

Abbreviation engine := (list cell).

(** Modelled from the spec: the text that crosses the Engine Boundary in
    [newString(ctx, s)] and [getString(ctx, v)] (the boundary's bindings,
    ffi.ts and c/interface.c, are not among the sources).  The transport is
    Emscripten's [cwrap] (Makefile, EXTRA_EXPORTED_RUNTIME_METHODS), which
    hands text over as a NUL-terminated string: what arrives ends before
    the first U+0000. *)
Fixpoint c_string (s : string) : string :=
  match s with
  | EmptyString => EmptyString
  | String a rest =>
      if decide (a = Ascii.zero) then EmptyString else String a (c_string rest)
  end.

(** The text the engine prints for the error that guest code threw:
    an object with the fields [name] and [message]. *)
Definition error_text : string :=
  "{" +:+ dquote +:+ "name" +:+ dquote +:+ ":" +:+ dquote +:+ "TypeError" +:+ dquote
  +:+ "," +:+ dquote +:+ "message" +:+ dquote +:+ ":" +:+ dquote +:+ "bad" +:+ dquote
  +:+ "}".

Definition alloc (c : cell) (e : engine) : engine * ptr :=
  (e ++ [c], Z.of_nat (length e) + 1).

Definition peek (p : ptr) (e : engine) : option cell := e !! Z.to_nat (p - 1).

Definition type_tag (c : option cell) : string :=
  match c with
  | Some (CNum _) => "number"
  | Some (CStr _) => "string"
  | Some CUndefined => "undefined"
  | _ => "object"
  end.

#[export] Instance ffi : QuickJSFFI (number:=Z) engine := {|
  QTS_SetHostCallback _ e := (e, tt);
  QTS_ArgvGetJSValueConstPointer argv i e := (e, argv + Z.of_nat i);
  QTS_Throw _ v e := (e, v);
  QTS_NewError _ e := alloc (CErr "{}") e;
  QTS_NewRuntime e := alloc CObj e;
  QTS_FreeRuntime _ e := (e, tt);
  QTS_NewContext _ e := alloc CObj e;
  QTS_FreeContext _ e := (e, tt);
  QTS_FreeValuePointer _ _ e := (e, tt);
  QTS_DupValue _ v e := (e, v);
  QTS_GetUndefined e := alloc CUndefined e;
  QTS_GetGlobalObject _ e := alloc CObj e;
  QTS_NewObject _ e := alloc CObj e;
  QTS_NewObjectProto _ _ e := alloc CObj e;
  QTS_NewFloat64 _ n e := alloc (CNum n) e;
  QTS_GetFloat64 _ p e := (e, match peek p e with Some (CNum n) => n | _ => 0 end);
  QTS_NewString _ s e := alloc (CStr (c_string s)) e;
  QTS_GetString _ p e := (e, match peek p e with Some (CStr s) => s | _ => "" end);
  QTS_NewFunction _ _ _ e := alloc CObj e;
  QTS_GetProp _ _ _ e := alloc CUndefined e;
  QTS_SetProp _ _ _ _ e := (e, tt);
  QTS_DefineProp _ _ _ _ _ _ _ _ _ e := (e, tt);
  QTS_Call _ _ _ _ _ e := alloc CUndefined e;
  QTS_ResolveException _ p e :=
    match peek p e with
    | Some CPending => alloc (CErr error_text) e
    | _ => (e, 0)
    end;
  QTS_Dump _ p e := (e, match peek p e with Some (CErr t) => t | _ => "{}" end);
  QTS_Typeof _ p e := (e, type_tag (peek p e));
  QTS_Eval _ code e :=
    if decide (code = "throw"%string) then alloc CPending e else alloc (CNum 2) e;
  _malloc _ e := alloc CObj e;
  _free _ e := (e, tt);
  HEAPU8_set _ _ e := (e, tt);
  addFunction _ e := alloc CObj e
|}.

(** [JSON.parse] on the texts the small engine prints, [error_text] and the
    empty object; no other text reaches it in what follows. *)
#[export] Instance platform : Platform (number:=Z) := {|
  JSON_parse s :=
    if decide (s = error_text)
    then Some (JObj [("name"%string, JStr "TypeError"); ("message"%string, JStr "bad")])
    else if decide (s = "{}"%string) then Some (JObj []) else None;
  Error_stack _ := None;
  String_of_number n := pretty n;
  marshal_string _ := ""%string;
  num_of_nat n := Z.of_nat n
|}.

(** Two host functions: one reads its arguments and returns nothing, one
    hands its first argument back. *)
Inductive fn : Type := FnReadArgs | FnFirst.

Definition fn_name (f : fn) : string :=
  match f with FnReadArgs => "readArgs" | FnFirst => "first" end.

Definition host_apply (f : fn) (thisHandle : loc) (argHandles : list loc)
    : M (number:=Z) (engine:=engine) (fnImpl:=fn) HostReturn :=
  match f with
  | FnReadArgs =>
      vs ← map_m Lifetime_value argHandles;
      emit (EvCall "host:readArgs" vs);;
      mret RetVoid
  | FnFirst =>
      match argHandles with
      | h :: _ => mret (RetHandle h)
      | [] => mret RetVoid
      end
  end.

Definition W : Type := World (number:=Z) (engine:=engine) (fnImpl:=fn).

(** The process before anything ran. *)
Definition boot : W := mkWorld [] [] ∅ false false [] [] [].

(** Run a computation and keep the world / the outcome. *)
Definition exec {A} (m : M A) (w : W) : W := (m w).1.
Definition eval {A} (m : M A) (w : W) : outcome A := (m w).2.

(** *** Scenarios *)

Abbreviation TM := (M (number:=Z) (engine:=engine) (fnImpl:=fn)).

(** One lifetime guarding address 7, released with the module's [_free]. *)
Definition one_lifetime : W :=
  set_heap [mkLifetime 7 (Some moduleFree) None true] boot.

(** Dispose, read the value and the flag, dispose again. *)
Definition dispose_twice : TM (ptr * bool) :=
  Lifetime_dispose 0%nat;;
  v ← Lifetime_value 0%nat;
  a ← Lifetime_alive 0%nat;
  Lifetime_dispose 0%nat;;
  mret (v, a).

(** The manager and two VMs: VM 0 owns handle 4 (the string x), VM 1 owns
    handle 5 (the string k).  Objects 0-3 are the runtimes and contexts. *)
Definition two_vms : W :=
  exec (getInstance;;
        a ← createVm;
        b ← createVm;
        newString a "x";;
        newString b "k";;
        (mret tt : TM unit)) boot.

Definition no_descriptor : VmPropertyDescriptor (fnImpl:=fn) :=
  mkDescriptor None None None None None.

(** VM 0 evaluated code that threw: handle 4 wraps the error (address 7)
    and is owned by VM 0. *)
Definition two_vms_error : W :=
  exec (getInstance;;
        a ← createVm;
        b ← createVm;
        (evalCode a "throw" : TM VmCallResult)) boot.

(** One VM with the host function [FnReadArgs] registered under id 1; the
    engine holds that id at address 4 and the context is address 3. *)
Definition one_callback : W :=
  exec (getInstance;;
        a ← createVm;
        (newFunction a "readArgs" FnReadArgs : TM loc)) boot.

(** The same with the host function [FnFirst]. *)
Definition one_callback_first : W :=
  exec (getInstance;;
        a ← createVm;
        (newFunction a "first" FnFirst : TM loc)) boot.

(** Guest code calls the function with two arguments, found at 200 and 201. *)
Definition guest_call : TM ptr :=
  QuickJS_cToHostCallbackFunction host_apply 3 100 2 200 4.

(** One VM whose global object was fetched, so that its table has an entry. *)
Definition one_vm_global : W :=
  exec (getInstance;;
        a ← createVm;
        (QuickJSVm_global a : TM loc)) boot.

(** One VM whose [undefined] handle was fetched: it is object 2. *)
Definition one_vm_undefined : W :=
  exec (getInstance;;
        a ← createVm;
        (QuickJSVm_undefined a : TM loc)) boot.


(** A host side whose functions all raise a RangeError. *)
Definition host_raise (f : fn) (thisHandle : loc) (argHandles : list loc)
    : TM HostReturn :=
  throw (ExnError (mkError (Some "RangeError"%string) (Some "no"%string) None)).


End Toy.

(** * Properties *)

Section FacadeProps.

Context {number : Type} `{Countable number}.
Context {engine : Type} `{!QuickJSFFI (number:=number) engine} `{!Platform (number:=number)}.
Context {fnImpl : Type} (fn_name : fnImpl → string).
Context (host_apply : fnImpl → loc → list loc
                      → M (number:=number) (engine:=engine) (fnImpl:=fnImpl) HostReturn).

Implicit Types (w : World (number:=number) (engine:=engine) (fnImpl:=fnImpl)).
Implicit Types (l h : loc) (this vm : vmid) (x : Lifetime).

(** Unfolding one monadic step. *)
Lemma bind_ok {A B} (m : M A) (k : A → M B) w w1 a :
  m w = (w1, Ok a) → (m ≫= k) w = k a w1.
Proof. intros Hm. unfold mbind, M_bind, bind. by rewrite Hm. Qed.

Lemma bind_throw {A B} (m : M A) (k : A → M B) w w1 e :
  m w = (w1, Throw e) → (m ≫= k) w = (w1, Throw e).
Proof. intros Hm. unfold mbind, M_bind, bind. by rewrite Hm. Qed.

Lemma deref_ok w l x : heap w !! l = Some x → deref l w = (w, Ok x).
Proof. intros Hl. unfold deref. by rewrite Hl. Qed.

Lemma get_vm_ok w this (s : QuickJSVm) : vms w !! this = Some s → get_vm this w = (w, Ok s).
Proof. intros Hs. unfold get_vm. by rewrite Hs. Qed.

Lemma Lifetime_owner_ok w l x :
  heap w !! l = Some x → Lifetime_owner l w = (w, Ok (_owner x)).
Proof. intros Hl. unfold Lifetime_owner. by rewrite (bind_ok _ _ _ _ _ (deref_ok _ _ _ Hl)). Qed.

Lemma Lifetime_alive_ok w l x :
  heap w !! l = Some x → Lifetime_alive l w = (w, Ok (_alive x)).
Proof. intros Hl. unfold Lifetime_alive. by rewrite (bind_ok _ _ _ _ _ (deref_ok _ _ _ Hl)). Qed.

Lemma assertAlive_ok w l x :
  heap w !! l = Some x → _alive x = true → assertAlive l w = (w, Ok tt).
Proof.
  intros Hl Ha. unfold assertAlive.
  rewrite (bind_ok _ _ _ _ _ (deref_ok _ _ _ Hl)). by rewrite Ha.
Qed.

Lemma assertAlive_dead w l x :
  heap w !! l = Some x → _alive x = false →
  assertAlive l w = (w, Throw (new_Error "Not alive")).
Proof.
  intros Hl Ha. unfold assertAlive.
  rewrite (bind_ok _ _ _ _ _ (deref_ok _ _ _ Hl)). by rewrite Ha.
Qed.

Lemma Lifetime_value_ok w l x :
  heap w !! l = Some x → _alive x = true → Lifetime_value l w = (w, Ok (_value x)).
Proof.
  intros Hl Ha. unfold Lifetime_value.
  rewrite (bind_ok _ _ _ _ _ (assertAlive_ok _ _ _ Hl Ha)).
  by rewrite (bind_ok _ _ _ _ _ (deref_ok _ _ _ Hl)).
Qed.

Lemma assertOwned_spec w this h x :
  heap w !! h = Some x →
  assertOwned this h w =
    (w, match _owner x with
        | Some v => if decide (v ≠ this) then Throw foreign_handle_error else Ok tt
        | None => Ok tt
        end).
Proof.
  intros Hh. unfold assertOwned.
  rewrite (bind_ok _ _ _ _ _ (Lifetime_owner_ok _ _ _ Hh)).
  destruct (_owner x) as [v|]; [|done]. by destruct (decide (v ≠ this)).
Qed.

(** C10: a handle without an owner tag passes the ownership check of every
    VM; the check of VM [vm] rejects a handle exactly when the handle carries
    an owner tag and that tag is not [vm]. *)
Theorem assertOwned_rejects_only_foreign_owner w h x (Hh : heap w !! h = Some x) :
  ∀ vm,
    (_owner x = None → assertOwned vm h w = (w, Ok tt)) ∧
    (assertOwned vm h w ≠ (w, Ok tt) → ∃ v, _owner x = Some v ∧ v ≠ vm) ∧
    ((∃ v, _owner x = Some v ∧ v ≠ vm) →
       assertOwned vm h w = (w, Throw foreign_handle_error)).
Proof.
  intros vm. rewrite (assertOwned_spec _ _ _ _ Hh).
  destruct (_owner x) as [v|] eqn:Ho.
  - destruct (decide (v ≠ vm)) as [Hne|Heq].
    + split; [done|]. split; [by eauto|done].
    + split; [done|]. split; [done|].
      intros (v' & [= <-] & Hv'). done.
  - split; [done|]. split; [done|]. by intros (v & ? & _).
Qed.

(** The memoized [undefined] handle, when first created, has no owner tag. *)
Lemma undefined_handle_unowned w this (s : QuickJSVm) :
  vms w !! this = Some s → _undefined s = None →
  ∃ w' h x, QuickJSVm_undefined this w = (w', Ok h) ∧
            heap w' !! h = Some x ∧ _owner x = None.
Proof.
  intros Hs Hu. unfold QuickJSVm_undefined.
  rewrite (bind_ok _ _ _ _ _ (get_vm_ok _ _ _ Hs)), Hu.
  unfold ffi, new_Lifetime, update_vm, modify, mbind, M_bind, bind, mret, M_ret, ret.
  destruct (QTS_GetUndefined (engine_st w)) as [e p]. cbn.
  eexists _, _, _. split; [reflexivity|]. cbn.
  split.
  - rewrite lookup_app_r by lia. rewrite Nat.sub_diag. reflexivity.
  - reflexivity.
Qed.

(** C8: constructing the runtime manager fails before the engine module is
    initialised and fails while an instance exists; a construction that
    succeeds records the instance, so that every later attempt fails;
    [getInstance] hands back the recorded instance without constructing. *)
Theorem QuickJS_constructor_once w :
  (isReady w = false → QuickJS_constructor w = (w, Throw not_ready_error)) ∧
  (isReady w = true → singleton w = true →
     QuickJS_constructor w = (w, Throw second_instance_error)) ∧
  (∀ w', QuickJS_constructor w = (w', Ok tt) →
     singleton w = false ∧ singleton w' = true ∧
     QuickJS_constructor w' = (w', Throw second_instance_error)) ∧
  (singleton w = true → getInstance w = (set_isReady true w, Ok tt)).
Proof.
  unfold getInstance, ready, QuickJS_constructor, get_world, modify, ffi,
    mbind, M_bind, bind, mret, M_ret, ret, throw.
  destruct w as [hp vs mp rdy sg e cs tr]; cbn.
  split; [by intros ->|]. split; [by intros -> ->|]. split.
  - intros w'. destruct rdy; cbn; [|done]. destruct sg; cbn; [done|].
    destruct (addFunction "iiiiii" e) as [e1 fp]; cbn.
    destruct (QTS_SetHostCallback fp e1) as [e2 []]; cbn.
    intros [= <-]. done.
  - by intros ->.
Qed.

(** C4: the trampoline always returns normally.  When no VM is registered
    for the context address, or when the VM's dispatch raises, the exception
    is logged and the result is [0]. *)
Theorem trampoline_never_throws w (ctx_ptr this_ptr : ptr) (argc : nat) (argv fn_data : ptr) :
  (∃ w' p, QuickJS_cToHostCallbackFunction host_apply ctx_ptr this_ptr argc argv fn_data w
           = (w', Ok p)) ∧
  (vmMap w !! ctx_ptr = None →
     ∃ w' e, QuickJS_cToHostCallbackFunction host_apply ctx_ptr this_ptr argc argv fn_data w
             = (w', Ok 0) ∧ console w' = console w ++ [e]) ∧
  (∀ vm w1 e,
     vmMap w !! ctx_ptr = Some vm →
     QuickJSVm_cToHostCallbackFunction host_apply vm ctx_ptr this_ptr argc argv fn_data w
       = (w1, Throw e) →
     QuickJS_cToHostCallbackFunction host_apply ctx_ptr this_ptr argc argv fn_data w
       = (set_console (console w1 ++ [e]) w1, Ok 0)).
Proof.
  unfold QuickJS_cToHostCallbackFunction, try_catch. split; [|split].
  - destruct (route _ _ _ _ _ _ w) as [w1 [p|e]]; [by eauto|].
    by eexists _, _.
  - intros Hnone. unfold route, get_world, ffi, throw, mbind, M_bind, bind. cbn.
    rewrite Hnone. destruct (QTS_GetString _ _ _) as [e1 callee]. cbn.
    by eexists _, _.
  - intros vm w1 e Hvm Hd. unfold route, get_world, mbind, M_bind, bind. cbn.
    rewrite Hvm, Hd. done.
Qed.

(** ** Disposal *)

Lemma ffi_eq {A} (fn : string) (args : list ptr) (f : engine → engine * A) w :
  ffi fn args f w =
    (set_trace (trace w ++ [EvCall fn args]) (set_engine (f (engine_st w)).1 w),
     Ok (f (engine_st w)).2).
Proof. unfold ffi. by destruct (f (engine_st w)). Qed.

Lemma ffi_unit_eq (fn : string) (args : list ptr) (f : engine → engine * unit) w :
  ffi fn args f w =
    (set_trace (trace w ++ [EvCall fn args]) (set_engine (f (engine_st w)).1 w), Ok tt).
Proof. unfold ffi. by destruct (f (engine_st w)) as [e []]. Qed.

Lemma set_heap_same w : set_heap (heap w) w = w.
Proof. by destruct w. Qed.

Lemma alter_alive_id (hp : list Lifetime) l x :
  hp !! l = Some x → _alive x = true → alter (with_alive true) l hp = hp.
Proof.
  intros Hl Ha. apply list_eq. intros i.
  destruct (decide (i = l)) as [->|Hne].
  - rewrite list_lookup_alter_eq, Hl. cbn. f_equal. destruct x; cbn in *. by subst.
  - by rewrite list_lookup_alter_ne.
Qed.

Lemma disposals_snoc t e : disposals (t ++ [e]) = disposals t ++ from_option (λ l, [l]) [] (is_dispose e).
Proof. unfold disposals. rewrite omap_app. cbn. by destruct (is_dispose e). Qed.

Lemma disposer_runs_snoc t e :
  disposer_runs (t ++ [e]) = disposer_runs t ++ from_option (λ r, [r]) [] (is_disposer e).
Proof. unfold disposer_runs. rewrite omap_app. cbn. by destruct (is_disposer e). Qed.

Lemma ctx_value_ok w this c : vm_ctx w this c → ctx_value this w = (w, Ok c).
Proof.
  intros (s & x & Hs & [Hx Ha] & <-). unfold ctx_value.
  rewrite (bind_ok _ _ _ _ _ (get_vm_ok _ _ _ Hs)).
  by apply Lifetime_value_ok.
Qed.

(** A disposer that can run does run; it leaves the objects as they are and
    is logged once. *)
Lemma run_disposer_ok w d v :
  can_run w (Some d) →
  ∃ w', run_disposer d v w = (w', Ok tt) ∧
        heap w' = heap w ∧ vms w' = vms w ∧
        disposals (trace w') = disposals (trace w) ∧
        disposer_runs (trace w') = disposer_runs (trace w) ++ [(d, v)].
Proof.
  intros Hrun. unfold run_disposer.
  erewrite bind_ok; [|reflexivity].
  destruct d as [vm| | |]; cbn in Hrun.
  - destruct Hrun as (s & c & Hs & Hc & Ha).
    erewrite bind_ok; [|by apply get_vm_ok].
    erewrite bind_ok; [|by apply Lifetime_value_ok].
    rewrite ffi_unit_eq. eexists. split; [reflexivity|]. cbn.
    rewrite !disposals_snoc, !disposer_runs_snoc. cbn. by rewrite !app_nil_r.
  - rewrite ffi_unit_eq. eexists. split; [reflexivity|]. cbn.
    rewrite !disposals_snoc, !disposer_runs_snoc. cbn. by rewrite !app_nil_r.
  - rewrite ffi_unit_eq. eexists. split; [reflexivity|]. cbn.
    rewrite !disposals_snoc, !disposer_runs_snoc. cbn. by rewrite !app_nil_r.
  - erewrite bind_ok; [|reflexivity].
    rewrite ffi_unit_eq. eexists. split; [reflexivity|]. cbn.
    rewrite !disposals_snoc, !disposer_runs_snoc. cbn. by rewrite !app_nil_r.
Qed.

(** [dispose()] on a live object whose disposer can run: it returns, the
    disposer (if any) ran once, and the store of objects is what it was: the
    object is as alive as before. *)
Lemma Lifetime_dispose_ok w l x :
  live w l x → can_run w (disposer x) →
  ∃ w', Lifetime_dispose l w = (w', Ok tt) ∧
        heap w' = heap w ∧ vms w' = vms w ∧
        disposals (trace w') = disposals (trace w) ++ [l] ∧
        disposer_runs (trace w') =
          disposer_runs (trace w) ++ from_option (λ d, [(d, _value x)]) [] (disposer x).
Proof.
  intros [Hl Ha] Hrun. unfold Lifetime_dispose.
  rewrite (bind_ok _ _ _ _ _ (assertAlive_ok _ _ _ Hl Ha)).
  erewrite bind_ok; [|reflexivity].
  set (w0 := set_trace (trace w ++ [EvDispose l]) w).
  assert (Hl0 : heap w0 !! l = Some x) by done.
  rewrite (bind_ok _ _ _ _ _ (deref_ok _ _ _ Hl0)).
  destruct (disposer x) as [d|] eqn:Hd.
  - destruct (run_disposer_ok w0 d (_value x)) as (w1 & Hw1 & Hh & Hv & Hdl & Hdr).
    { exact Hrun. }
    rewrite (bind_ok _ _ _ _ _ Hw1).
    eexists. split; [reflexivity|].
    cbn [heap vms trace set_heap]. rewrite Hh.
    split; [by eapply alter_alive_id|]. split; [done|].
    rewrite Hdl, Hdr. subst w0. cbn [trace set_trace].
    rewrite disposals_snoc, disposer_runs_snoc. cbn. by rewrite app_nil_r.
  - unfold mbind, M_bind, bind, mret, M_ret, ret. cbn.
    eexists. split; [reflexivity|]. cbn.
    split; [by eapply alter_alive_id|]. split; [done|].
    rewrite disposals_snoc, disposer_runs_snoc. cbn. by rewrite !app_nil_r.
Qed.

(** The object stays readable after [dispose()], and [dispose()] can be
    called again. *)
Lemma Lifetime_dispose_leaves_alive w l x :
  live w l x → can_run w (disposer x) →
  ∃ w', Lifetime_dispose l w = (w', Ok tt) ∧
        Lifetime_alive l w' = (w', Ok true) ∧
        Lifetime_value l w' = (w', Ok (_value x)) ∧
        ∃ w'', Lifetime_dispose l w' = (w'', Ok tt).
Proof.
  intros Hlive Hrun.
  destruct (Lifetime_dispose_ok w l x Hlive Hrun) as (w' & Hd & Hh & Hv & _).
  destruct Hlive as [Hl Ha].
  assert (Hlive' : live w' l x) by (split; [by rewrite Hh|done]).
  assert (Hrun' : can_run w' (disposer x)).
  { destruct (disposer x) as [[vm| | |]|]; try done.
    destruct Hrun as (s & c & Hs & Hc & Hca). exists s, c.
    split; [by rewrite Hv|]. split; [by rewrite Hh|done]. }
  exists w'. split; [done|]. split.
  { rewrite (Lifetime_alive_ok _ _ _ (proj1 Hlive')). by rewrite Ha. }
  split; [exact (Lifetime_value_ok _ _ _ (proj1 Hlive') Ha)|].
  destruct (Lifetime_dispose_ok w' l x Hlive' Hrun') as (w'' & Hd' & _). eauto.
Qed.


(** ** Tearing a VM down *)

Lemma alive_in_heap w w' l : heap w' = heap w → alive_in w' l = alive_in w l.
Proof. unfold alive_in. by intros ->. Qed.

Lemma dispose_if_alive_ok w l x :
  heap w !! l = Some x → can_run w (disposer x) →
  ∃ w', dispose_if_alive l w = (w', Ok tt) ∧
        heap w' = heap w ∧ vms w' = vms w ∧
        disposals (trace w') = disposals (trace w) ++ (if alive_in w l then [l] else []).
Proof.
  intros Hl Hrun. unfold dispose_if_alive, alive_in.
  rewrite (bind_ok _ _ _ _ _ (Lifetime_alive_ok _ _ _ Hl)), Hl.
  destruct (_alive x) eqn:Ha.
  - destruct (Lifetime_dispose_ok w l x) as (w' & Hd & Hh & Hv & Ht & _); [done..|].
    exists w'. by rewrite Hd.
  - exists w. by rewrite app_nil_r.
Qed.

Lemma dispose_table_ok (ls : list loc) : ∀ w,
  Forall (λ l, ∃ x, heap w !! l = Some x ∧ can_run w (disposer x)) ls →
  ∃ w', for_each ls dispose_if_alive w = (w', Ok tt) ∧
        heap w' = heap w ∧ vms w' = vms w ∧
        disposals (trace w') =
          disposals (trace w) ++ filter (λ l, alive_in w l) ls.
Proof.
  induction ls as [|l ls IH]; intros w Hall.
  - exists w. by rewrite app_nil_r.
  - apply Forall_cons in Hall as [(x & Hl & Hrun) Hall].
    destruct (dispose_if_alive_ok w l x Hl Hrun) as (w1 & Hd & Hh & Hv & Ht).
    destruct (IH w1) as (w2 & Hloop & Hh2 & Hv2 & Ht2).
    { eapply Forall_impl; [exact Hall|]. cbn. intros l' (x' & Hl' & Hrun').
      exists x'. rewrite Hh. split; [done|].
      destruct (disposer x') as [[v| | |]|]; try done.
      destruct Hrun' as (s & c & Hs & Hc & Hca). exists s, c.
      split; [by rewrite Hv|]. split; [by rewrite Hh|done]. }
    exists w2. cbn [for_each]. rewrite (bind_ok _ _ _ _ _ Hd).
    split; [done|]. split; [congruence|]. split; [congruence|].
    rewrite Ht2, Ht, <- app_assoc. f_equal.
    rewrite (list_filter_iff (λ l0, alive_in w1 l0) (λ l0, alive_in w l0))
      by (intros l0; by rewrite (alive_in_heap w w1 l0 Hh)).
    rewrite filter_cons. by destruct (alive_in w l).
Qed.

(** The disposals of a teardown: the alive entries of the table in table
    order, then the context, then the runtime. *)
Lemma QuickJSVm_dispose_disposals w this (s : QuickJSVm) c r
    (Hvm : vms w !! this = Some s)
    (Hctx : live w (ctx s) c) (Hctx_run : can_run w (disposer c))
    (Hrt : live w (rt s) r) (Hrt_run : can_run w (disposer r))
    (Htable : Forall (λ l, ∃ x, heap w !! l = Some x ∧ can_run w (disposer x))
                     (lifetimes s)) :
  ∃ w', QuickJSVm_dispose this w = (w', Ok tt) ∧
        disposals (trace w') =
          disposals (trace w) ++ filter (λ l, alive_in w l) (lifetimes s)
                              ++ [ctx s; rt s].
Proof.
  unfold QuickJSVm_dispose. rewrite (bind_ok _ _ _ _ _ (get_vm_ok _ _ _ Hvm)).
  destruct (dispose_table_ok (lifetimes s) w Htable) as (w1 & Hloop & Hh1 & Hv1 & Ht1).
  rewrite (bind_ok _ _ _ _ _ Hloop).
  assert (Hrun_stable : ∀ w' d, heap w' = heap w → vms w' = vms w →
            can_run w d → can_run w' d).
  { intros w' [[v| | |]|] Hh Hv; try done.
    intros (s' & c' & Hs' & Hc' & Hca'). exists s', c'.
    split; [by rewrite Hv|]. split; [by rewrite Hh|done]. }
  destruct Hctx as [Hc Hca]. destruct Hrt as [Hr Hra].
  destruct (Lifetime_dispose_ok w1 (ctx s) c) as (w2 & Hd2 & Hh2 & Hv2 & Ht2 & _).
  { split; [by rewrite Hh1|done]. }
  { by apply Hrun_stable. }
  rewrite (bind_ok _ _ _ _ _ Hd2).
  destruct (Lifetime_dispose_ok w2 (rt s) r) as (w3 & Hd3 & Hh3 & Hv3 & Ht3 & _).
  { split; [by rewrite Hh2, Hh1|done]. }
  { apply Hrun_stable; [congruence..|done]. }
  exists w3. split; [done|].
  rewrite Ht3, Ht2, Ht1, <- !app_assoc. done.
Qed.


(** ** Round trips through the engine *)

Lemma vm_ctx_ext w w' this c :
  vms w' = vms w → (∃ ext, heap w' = heap w ++ ext) → vm_ctx w this c → vm_ctx w' this c.
Proof.
  intros Hv [ext Hh] (s & x & Hs & [Hx Ha] & Hc). exists s, x.
  split; [by rewrite Hv|]. split; [|done]. split; [|done].
  rewrite Hh. by apply lookup_app_l_Some.
Qed.

Lemma heapValueHandle_eq w this (p : ptr) :
  heapValueHandle this p w =
    (set_heap (heap w ++ [mkLifetime p (Some (freeJSValue this)) (Some this) true]) w,
     Ok (length (heap w))).
Proof. done. Qed.

Lemma lookup_pushed (hp : list Lifetime) x : (hp ++ [x]) !! length hp = Some x.
Proof. rewrite lookup_app_r by lia. by rewrite Nat.sub_diag. Qed.



(** ** Calling into the engine *)

Lemma alive_in_live w l : alive_in w l = true → ∃ x, live w l x.
Proof.
  unfold alive_in, live. destruct (heap w !! l) as [x|]; [|done]. by exists x.
Qed.

Lemma value_in_live w l x : live w l x → value_in w l = _value x.
Proof. intros [Hl _]. unfold value_in. by rewrite Hl. Qed.

Lemma live_ext w w' l x :
  (∃ ext, heap w' = heap w ++ ext) → live w l x → live w' l x.
Proof. intros [ext Hh] [Hl Ha]. split; [|done]. rewrite Hh. by apply lookup_app_l_Some. Qed.

Lemma map_m_value_ok w (args : list loc) :
  Forall (λ a, alive_in w a = true) args →
  map_m Lifetime_value args w = (w, Ok (map (value_in w) args)).
Proof.
  induction 1 as [|a args Ha _ IH]; [done|].
  destruct (alive_in_live _ _ Ha) as [x Hx]. cbn [map_m map].
  erewrite bind_ok; [|apply (Lifetime_value_ok _ _ _ (proj1 Hx) (proj2 Hx))].
  rewrite (bind_ok _ _ _ _ _ IH). by rewrite (value_in_live _ _ _ Hx).
Qed.





(** ** Reading values out and unwrapping results *)

Lemma assertOwned_ok w this h x :
  heap w !! h = Some x → owned_by this x → assertOwned this h w = (w, Ok tt).
Proof.
  intros Hh Hown. rewrite (assertOwned_spec _ _ _ _ Hh).
  destruct (_owner x) as [v|] eqn:Ho; [|done].
  rewrite decide_False; [done|]. intros Hne. apply Hne. by apply Hown.
Qed.

Lemma assertOwned_foreign w this h x v :
  heap w !! h = Some x → _owner x = Some v → v ≠ this →
  assertOwned this h w = (w, Throw foreign_handle_error).
Proof.
  intros Hh Ho Hne. rewrite (assertOwned_spec _ _ _ _ Hh), Ho. by rewrite decide_True.
Qed.

Section checked_reads.
Context (w : World (number:=number) (engine:=engine) (fnImpl:=fnImpl)).
Context (this : vmid) (c : ptr) (h : loc) (x : Lifetime).
Context (Hctx : vm_ctx w this c) (Hh : live w h x) (Hown : owned_by this x).

Local Ltac checked_read :=
  erewrite bind_ok; [|by apply (assertOwned_ok _ _ _ _ (proj1 Hh))];
  rewrite (bind_ok _ _ _ _ _ (ctx_value_ok _ _ _ Hctx));
  erewrite bind_ok; [|by apply (Lifetime_value_ok _ _ _ (proj1 Hh) (proj2 Hh))];
  apply ffi_eq.

Lemma typeof_ok :
  typeof this h w =
    (set_trace (trace w ++ [EvCall "QTS_Typeof" [c; _value x]])
               (set_engine (QTS_Typeof c (_value x) (engine_st w)).1 w),
     Ok (QTS_Typeof c (_value x) (engine_st w)).2).
Proof. unfold typeof. checked_read. Qed.

Lemma getString_ok :
  getString this h w =
    (set_trace (trace w ++ [EvCall "QTS_GetString" [c; _value x]])
               (set_engine (QTS_GetString c (_value x) (engine_st w)).1 w),
     Ok (QTS_GetString c (_value x) (engine_st w)).2).
Proof. unfold getString. checked_read. Qed.

Lemma getNumber_ok :
  getNumber this h w =
    (set_trace (trace w ++ [EvCall "QTS_GetFloat64" [c; _value x]])
               (set_engine (QTS_GetFloat64 c (_value x) (engine_st w)).1 w),
     Ok (QTS_GetFloat64 c (_value x) (engine_st w)).2).
Proof. unfold getNumber. checked_read. Qed.
End checked_reads.

(** [dump] of a handle that passes the ownership check returns, and touches
    neither the objects nor the disposal log. *)
Lemma dump_ok w this c h x :
  vm_ctx w this c → live w h x → owned_by this x →
  ∃ w1 d, dump this h w = (w1, Ok d) ∧
          heap w1 = heap w ∧ vms w1 = vms w ∧
          disposals (trace w1) = disposals (trace w).
Proof.
  intros Hctx Hh Hown. unfold dump.
  rewrite (bind_ok _ _ _ _ _ (typeof_ok w this c h x Hctx Hh Hown)).
  set (w1 := set_trace _ _). set (type := (QTS_Typeof _ _ _).2).
  assert (Ht1 : disposals (trace w1) = disposals (trace w)).
  { subst w1. cbn [trace set_trace]. rewrite disposals_snoc. cbn. by rewrite app_nil_r. }
  destruct (decide (type = "string"%string)); [|destruct (decide (type = "number"%string));
    [|destruct (decide (type = "undefined"%string))]].
  - rewrite (bind_ok _ _ _ _ _ (getString_ok w1 this c h x Hctx Hh Hown)).
    eexists _, _. split; [reflexivity|]. cbn [heap vms trace set_trace set_engine].
    rewrite disposals_snoc. cbn. by rewrite app_nil_r.
  - rewrite (bind_ok _ _ _ _ _ (getNumber_ok w1 this c h x Hctx Hh Hown)).
    eexists _, _. split; [reflexivity|]. cbn [heap vms trace set_trace set_engine].
    rewrite disposals_snoc. cbn. by rewrite app_nil_r.
  - by eexists _, _.
  - rewrite (bind_ok _ _ _ _ _ (ctx_value_ok w1 _ _ Hctx)).
    erewrite bind_ok; [|by apply (Lifetime_value_ok w1 _ _ (proj1 Hh) (proj2 Hh))].
    erewrite bind_ok; [|apply ffi_eq].
    destruct (JSON_parse _); (eexists _, _; split; [reflexivity|]);
      cbn [heap vms trace set_trace set_engine];
      rewrite disposals_snoc; cbn; by rewrite app_nil_r.
Qed.

(** The shape test of [unwrapResult], spelled out. *)
Lemma error_shape_Some (d : native (number:=number)) m n :
  error_shape d = Some (m, n) ↔
  ∃ fields, d = NJson (JObj fields) ∧
            json_field "message" fields = Some (JStr m) ∧
            n = match json_field "name" fields with
                | Some (JStr s) => Some s
                | _ => None
                end.
Proof.
  unfold error_shape. split.
  - destruct d as [|[| | | | |fields]]; try done.
    destruct (json_field "message" fields) as [[| | |s| |]|] eqn:Hm; try done.
    intros [= <- <-]. by exists fields.
  - intros (fields & -> & -> & ->). done.
Qed.

(** The operations that check ownership reject a handle of another VM. *)
Lemma foreign_handle_rejected w this h x v :
  heap w !! h = Some x → _owner x = Some v → v ≠ this →
  typeof this h w = (w, Throw foreign_handle_error) ∧
  getNumber this h w = (w, Throw foreign_handle_error) ∧
  getString this h w = (w, Throw foreign_handle_error) ∧
  newObject this (Some h) w = (w, Throw foreign_handle_error) ∧
  dump this h w = (w, Throw foreign_handle_error).
Proof.
  intros Hh Ho Hne.
  pose proof (assertOwned_foreign _ _ _ _ _ Hh Ho Hne) as Hcheck.
  unfold dump, typeof, getNumber, getString, newObject.
  repeat split.
  all: try (erewrite bind_throw; [reflexivity|exact Hcheck]).
  erewrite bind_throw; [reflexivity|].
  erewrite bind_throw; [reflexivity|exact Hcheck].
Qed.

(** C6 (amended): [unwrapResult] hands a [{value}] back untouched.  On an
    [{error}] whose handle passes this VM's ownership check it dumps the
    error, disposes the handle, and then raises: an Error built from the
    dump's [message] and [name] when the dump is shaped like an error (an
    object with a string [message]; the name stays 'Error' unless [name] is
    a string), the dumped value itself otherwise.  On an [{error}] whose
    handle belongs to another VM it raises the ownership error of [dump]
    and changes nothing: the handle is not disposed. *)
Theorem unwrapResult_raises_dumped_error w this c (Hctx : vm_ctx w this c) :
  (∀ v, unwrapResult this (ResValue v) w = (w, Ok v)) ∧
  (∀ e x, live w e x → owned_by this x → can_run w (disposer x) →
     ∃ w1 dumped w' thrown,
       dump this e w = (w1, Ok dumped) ∧
       Lifetime_dispose e w1 = (w', Ok tt) ∧
       disposals (trace w') = disposals (trace w) ++ [e] ∧
       unwrapResult this (ResError e) w = (w', Throw thrown) ∧
       (∀ fields m,
          dumped = NJson (JObj fields) → json_field "message" fields = Some (JStr m) →
          thrown = ExnError (mkError
                     (Some match json_field "name" fields with
                           | Some (JStr n) => n
                           | _ => "Error"%string
                           end)
                     (Some m) (Error_stack m))) ∧
       ((∀ fields m, ¬ (dumped = NJson (JObj fields) ∧
                        json_field "message" fields = Some (JStr m))) →
          thrown = ExnNative dumped)) ∧
  (∀ e x v, heap w !! e = Some x → _owner x = Some v → v ≠ this →
     unwrapResult this (ResError e) w = (w, Throw foreign_handle_error)).
Proof.
  split; [done|]. split.
  - intros e x He Hown Hrun.
    destruct (dump_ok w this c e x Hctx He Hown) as (w1 & dumped & Hdump & Hh & Hv & Ht).
    destruct (Lifetime_dispose_ok w1 e x) as (w' & Hdisp & _ & _ & Ht' & _).
    { destruct He as [Hl Ha]. split; [by rewrite Hh|done]. }
    { destruct (disposer x) as [[v'| | |]|]; try done.
      destruct Hrun as (s & xc & Hs & Hc & Hca). exists s, xc.
      split; [by rewrite Hv|]. split; [by rewrite Hh|done]. }
    exists w1, dumped, w'.
    exists (match error_shape dumped with
            | Some (m, n) => rebuilt_exception m n
            | None => ExnNative dumped
            end).
    split; [done|]. split; [done|]. split; [by rewrite Ht', Ht|]. split.
    { unfold unwrapResult. rewrite (bind_ok _ _ _ _ _ Hdump), (bind_ok _ _ _ _ _ Hdisp).
      by destruct (error_shape dumped) as [[m n]|]. }
    split.
    + intros fields m -> Hm. unfold error_shape. rewrite Hm. unfold rebuilt_exception.
      by destruct (json_field "name" fields) as [[| | |s| |]|].
    + intros Hnot. destruct (error_shape dumped) as [[m n]|] eqn:Hshape; [|done].
      apply error_shape_Some in Hshape as (fields & -> & Hm & _).
      destruct (Hnot fields m). done.
  - intros e x v He Ho Hne. unfold unwrapResult.
    erewrite bind_throw; [reflexivity|].
    by destruct (foreign_handle_rejected w this e x v He Ho Hne) as (_ & _ & _ & _ & Hd).
Qed.

(** ** The ownership check across the facade *)

(** [getProp] and [setProp] with a key handle read their handles without
    asking who owns them. *)
Lemma getProp_ignores_owner w this c handle key xh xk :
  vm_ctx w this c → live w handle xh → live w key xk →
  ∃ w', getProp this handle (KeyHandle key) w = (w', Ok (length (heap w))).
Proof.
  intros Hctx [Hh Hha] [Hk Hka]. unfold getProp, key_handle, key_release.
  erewrite bind_ok; [|reflexivity].
  rewrite (bind_ok _ _ _ _ _ (ctx_value_ok _ _ _ Hctx)).
  erewrite bind_ok; [|by apply Lifetime_value_ok].
  erewrite bind_ok; [|by apply Lifetime_value_ok].
  erewrite bind_ok; [|apply ffi_eq].
  erewrite bind_ok; [|apply heapValueHandle_eq].
  erewrite bind_ok; [|reflexivity]. by eexists.
Qed.

Lemma setProp_ignores_owner w this c handle key value xh xk xv :
  vm_ctx w this c → live w handle xh → live w key xk → live w value xv →
  ∃ w', setProp this handle (KeyHandle key) value w = (w', Ok tt).
Proof.
  intros Hctx [Hh Hha] [Hk Hka] [Hv Hva]. unfold setProp, key_handle, key_release.
  erewrite bind_ok; [|reflexivity].
  rewrite (bind_ok _ _ _ _ _ (ctx_value_ok _ _ _ Hctx)).
  erewrite bind_ok; [|by apply Lifetime_value_ok].
  erewrite bind_ok; [|by apply Lifetime_value_ok].
  erewrite bind_ok; [|by apply Lifetime_value_ok].
  erewrite bind_ok; [|apply ffi_unit_eq]. by eexists.
Qed.

End FacadeProps.

(** * Further properties of the module *)

(** ** Marshalling addresses into the argument array *)

(** One element of the Int32Array: four bytes, least significant first,
    that read back as the number modulo 2^32; the bytes of an array of such
    elements are four per element. *)
Lemma int32_bytes_round_trip (v : Z) (argv : list Z) :
  Forall (λ b, 0 ≤ b < 256) (int32_bytes v) ∧
  le_decode (int32_bytes v) = v mod 2 ^ 32 ∧
  length (argv ≫= int32_bytes) = (length argv * 4)%nat.
Proof.
  assert (Hb : ∀ a, Z.land a 255 = a mod 256).
  { intros a. change 255 with (Z.ones 8). by rewrite Z.land_ones. }
  split; [|split].
  - unfold int32_bytes. rewrite !Hb.
    repeat constructor; apply Z.mod_pos_bound; lia.
  - unfold int32_bytes, le_decode. cbn [foldr]. rewrite !Hb.
    rewrite !Z.shiftr_div_pow2 by lia.
    change (2 ^ 8) with 256. change (2 ^ 16) with 65536.
    change (2 ^ 24) with 16777216. change (2 ^ 32) with 4294967296.
    Z.div_mod_to_equations. lia.
  - induction argv as [|a argv IH]; [done|].
    cbn [mbind list_bind]. rewrite length_app, IH. cbn. lia.
Qed.

Section FacadeMore.

Context {number : Type} `{Countable number}.
Context {engine : Type} `{!QuickJSFFI (number:=number) engine} `{!Platform (number:=number)}.
Context {fnImpl : Type} (fn_name : fnImpl → string).
Context (host_apply : fnImpl → loc → list loc
                      → M (number:=number) (engine:=engine) (fnImpl:=fnImpl) HostReturn).

Implicit Types (w : World (number:=number) (engine:=engine) (fnImpl:=fnImpl)).
Implicit Types (l h : loc) (this vm : vmid) (x : Lifetime).

(** ** The argument array of a call *)

Lemma int32_word (vs : list Z) : ∀ i v,
  vs !! i = Some v → take 4 (drop (i * 4) (vs ≫= int32_bytes)) = int32_bytes v.
Proof.
  induction vs as [|v0 vs IH]; intros i v Hi; [done|].
  destruct i as [|i]; cbn in Hi.
  - injection Hi as ->. cbn [mbind list_bind]. done.
  - cbn [mbind list_bind]. change (S i * 4)%nat with (4 + i * 4)%nat.
    rewrite <- drop_drop. change (drop 4 (int32_bytes v0 ++ vs ≫= int32_bytes))
      with (vs ≫= int32_bytes). by apply IH.
Qed.

(** X1: toPointerArray: for handles that are alive it allocates four bytes
    per handle and writes their addresses there as 32-bit words, least
    significant byte first and in the order of the handles: word [i] of what
    is written decodes to the address of handle [i] modulo 2^32.  The
    buffer comes back as a new lifetime without owner whose disposer is the
    module's [_free]; nothing is disposed. *)
Theorem toPointerArray_writes_addresses w this (handles : list loc)
    (Hlive : Forall (λ h, alive_in w h = true) handles) :
  let bytes := map (value_in w) handles ≫= int32_bytes in
  let m := _malloc (length handles * 4)%nat (engine_st w) in
  ∃ w',
    toPointerArray this handles w = (w', Ok (length (heap w))) ∧
    heap w' = heap w ++ [mkLifetime m.2 (Some moduleFree) None true] ∧
    engine_st w' = (HEAPU8_set m.2 bytes m.1).1 ∧
    trace w' = trace w ++ [EvCall "_malloc" []; EvCall "HEAPU8.set" [m.2]] ∧
    length bytes = (length handles * 4)%nat ∧
    Forall (λ b, 0 ≤ b < 256) bytes ∧
    ∀ i h, handles !! i = Some h →
           le_decode (take 4 (drop (i * 4) bytes)) = value_in w h mod 2 ^ 32.
Proof.
  intros bytes m. unfold toPointerArray.
  rewrite (bind_ok _ _ _ _ _ (map_m_value_ok _ _ Hlive)). cbv zeta.
  rewrite length_map.
  erewrite bind_ok; [|apply ffi_eq].
  erewrite bind_ok; [|apply ffi_unit_eq].
  eexists. split; [reflexivity|].
  cbn [heap trace engine_st set_heap set_trace set_engine].
  split; [done|]. split; [done|]. split; [by rewrite <- app_assoc|].
  destruct (int32_bytes_round_trip 0 (map (value_in w) handles)) as (_ & _ & Hlen).
  split; [subst bytes; by rewrite Hlen, length_map|].
  split.
  - subst bytes. clear. induction handles as [|h hs IH]; [constructor|].
    cbn [map mbind list_bind]. apply Forall_app. split; [|exact IH].
    by destruct (int32_bytes_round_trip (value_in w h) []) as [Hb _].
  - intros i h Hi. subst bytes.
    rewrite (int32_word _ i (value_in w h)) by (by rewrite list_lookup_fmap, Hi).
    by destruct (int32_bytes_round_trip (value_in w h) []) as (_ & Hd & _).
Qed.

(** ** getInstance *)

(** X3: getInstance: it always succeeds and leaves the manager constructed; it
    registers the trampoline with the engine exactly when no instance
    existed, and calling it again changes nothing. *)
Theorem getInstance_constructs_once w :
  ∃ w1, getInstance w = (w1, Ok tt) ∧
        isReady w1 = true ∧ singleton w1 = true ∧
        getInstance w1 = (w1, Ok tt) ∧
        (singleton w = true → trace w1 = trace w ∧ vmMap w1 = vmMap w) ∧
        (singleton w = false →
           ∃ fp, trace w1 = trace w ++ [EvCall "addFunction" [];
                                        EvCall "QTS_SetHostCallback" [fp]]
                 ∧ vmMap w1 = ∅).
Proof.
  unfold getInstance, ready, QuickJS_constructor, get_world, modify, ffi.
  unfold mbind, M_bind, bind, mret, M_ret, ret, throw.
  destruct w as [hp vs mp rdy sg e cs tr]. cbn.
  destruct sg; cbn.
  - eexists. split; [reflexivity|]. cbn. repeat split; try done.
  - destruct (addFunction "iiiiii" e) as [e1 fp]. cbn.
    destruct (QTS_SetHostCallback fp e1) as [e2 []]. cbn.
    eexists. split; [reflexivity|]. cbn. repeat split; try done.
    intros _. exists fp. split; [|done]. by rewrite <- app_assoc.
Qed.


(** ** What a disposal changes *)

Lemma calls_snoc t e : calls (t ++ [e]) = calls t ++ from_option (λ c, [c]) [] (is_call e).
Proof. unfold calls. rewrite omap_app. cbn. by destruct (is_call e). Qed.

Lemma only_engine_refl w : only_engine w w.
Proof. by repeat split. Qed.


Lemma only_engine_call w e fn args :
  only_engine w (set_trace (trace w ++ [EvCall fn args]) (set_engine e w)).
Proof.
  repeat split; try done. cbn [trace set_trace]. rewrite disposals_snoc. cbn.
  by rewrite app_nil_r.
Qed.

Lemma vm_ctx_ctx_of w this c : vm_ctx w this c → ctx_of w this = c.
Proof.
  intros (s & x & Hs & Hx & <-). unfold ctx_of. rewrite Hs. cbn.
  by apply value_in_live.
Qed.

Lemma run_disposer_fields w d v :
  can_run w (Some d) →
  ∃ w', run_disposer d v w = (w', Ok tt) ∧
        heap w' = heap w ∧ vms w' = vms w ∧
        vmMap w' = (if decide (d = freeContext) then delete v (vmMap w) else vmMap w) ∧
        isReady w' = isReady w ∧ singleton w' = singleton w ∧ console w' = console w ∧
        disposals (trace w') = disposals (trace w) ∧
        calls (trace w') = calls (trace w) ++ [release_call w d v].
Proof.
  intros Hrun. unfold run_disposer.
  erewrite bind_ok; [|reflexivity].
  destruct d as [vm| | |]; cbn in Hrun.
  - destruct Hrun as (s & c & Hs & Hc & Ha).
    erewrite bind_ok; [|by apply get_vm_ok].
    erewrite bind_ok; [|by apply Lifetime_value_ok].
    rewrite ffi_unit_eq. eexists. split; [reflexivity|]. cbn.
    rewrite !disposals_snoc, !calls_snoc. cbn. rewrite !app_nil_r.
    repeat split; try done. unfold ctx_of, value_in. by rewrite Hs; cbn; rewrite Hc.
  - rewrite ffi_unit_eq. eexists. split; [reflexivity|]. cbn.
    rewrite !disposals_snoc, !calls_snoc. cbn. by rewrite !app_nil_r.
  - rewrite ffi_unit_eq. eexists. split; [reflexivity|]. cbn.
    rewrite !disposals_snoc, !calls_snoc. cbn. by rewrite !app_nil_r.
  - erewrite bind_ok; [|reflexivity].
    rewrite ffi_unit_eq. eexists. split; [reflexivity|]. cbn.
    rewrite !disposals_snoc, !calls_snoc. cbn. by rewrite !app_nil_r.
Qed.

Lemma Lifetime_dispose_fields w l x :
  live w l x → can_run w (disposer x) →
  ∃ w', Lifetime_dispose l w = (w', Ok tt) ∧
        heap w' = heap w ∧ vms w' = vms w ∧
        vmMap w' = (if decide (disposer x = Some freeContext)
                    then delete (_value x) (vmMap w) else vmMap w) ∧
        isReady w' = isReady w ∧ singleton w' = singleton w ∧ console w' = console w ∧
        disposals (trace w') = disposals (trace w) ++ [l] ∧
        calls (trace w') =
          calls (trace w) ++ from_option (λ d, [release_call w d (_value x)]) [] (disposer x).
Proof.
  intros [Hl Ha] Hrun. unfold Lifetime_dispose.
  rewrite (bind_ok _ _ _ _ _ (assertAlive_ok _ _ _ Hl Ha)).
  erewrite bind_ok; [|reflexivity].
  set (w0 := set_trace (trace w ++ [EvDispose l]) w).
  assert (Hl0 : heap w0 !! l = Some x) by done.
  assert (Ht0 : disposals (trace w0) = disposals (trace w) ++ [l]).
  { subst w0. cbn [trace set_trace]. by rewrite disposals_snoc. }
  assert (Hc0 : calls (trace w0) = calls (trace w)).
  { subst w0. cbn [trace set_trace]. rewrite calls_snoc. cbn. by rewrite app_nil_r. }
  rewrite (bind_ok _ _ _ _ _ (deref_ok _ _ _ Hl0)).
  destruct (disposer x) as [d|] eqn:Hd.
  - destruct (run_disposer_fields w0 d (_value x))
      as (w1 & Hw1 & Hh & Hv & Hm & Hr & Hs & Hcs & Hdl & Hcl); [exact Hrun|].
    rewrite (bind_ok _ _ _ _ _ Hw1).
    eexists. split; [reflexivity|].
    cbn [heap vms vmMap isReady singleton console trace set_heap]. rewrite Hh.
    split; [by eapply alter_alive_id|]. split; [done|].
    split. { rewrite Hm. destruct d; by repeat case_decide. }
    split; [done|]. split; [done|]. split; [done|].
    split; [by rewrite Hdl|]. by rewrite Hcl, Hc0.
  - unfold mbind, M_bind, bind, mret, M_ret, ret. cbn.
    eexists. split; [reflexivity|]. cbn.
    split; [by eapply alter_alive_id|].
    rewrite disposals_snoc, calls_snoc. cbn. by rewrite !app_nil_r.
Qed.

Lemma can_run_stable w w' d :
  heap w' = heap w → vms w' = vms w → can_run w d → can_run w' d.
Proof.
  intros Hh Hv. destruct d as [[v| | |]|]; try done.
  intros (s & c & Hs & Hc & Hca). exists s, c.
  split; [by rewrite Hv|]. split; [by rewrite Hh|done].
Qed.

Lemma release_call_stable w w' d v :
  heap w' = heap w → vms w' = vms w → release_call w' d v = release_call w d v.
Proof.
  intros Hh Hv. destruct d; try done. cbn. unfold ctx_of, value_in. by rewrite Hv, Hh.
Qed.

(** The cleanup loop over a table none of whose entries frees a context. *)
Lemma dispose_table_fields (ls : list loc) : ∀ w,
  Forall (λ l, ∃ x, heap w !! l = Some x ∧ can_run w (disposer x)
                    ∧ disposer x ≠ Some freeContext) ls →
  ∃ w', for_each ls dispose_if_alive w = (w', Ok tt) ∧
        heap w' = heap w ∧ vms w' = vms w ∧ vmMap w' = vmMap w ∧
        isReady w' = isReady w ∧ singleton w' = singleton w ∧ console w' = console w ∧
        disposals (trace w') = disposals (trace w) ++ filter (λ l, alive_in w l) ls ∧
        calls (trace w') = calls (trace w) ++ release_calls w ls.
Proof.
  induction ls as [|l ls IH]; intros w Hall.
  - exists w. unfold release_calls. cbn. by rewrite !app_nil_r.
  - apply Forall_cons in Hall as [(x & Hl & Hrun & Hnc) Hall].
    assert (Hstep : ∃ w1, dispose_if_alive l w = (w1, Ok tt) ∧
        heap w1 = heap w ∧ vms w1 = vms w ∧ vmMap w1 = vmMap w ∧
        isReady w1 = isReady w ∧ singleton w1 = singleton w ∧ console w1 = console w ∧
        disposals (trace w1) = disposals (trace w) ++ (if alive_in w l then [l] else []) ∧
        calls (trace w1) = calls (trace w) ++ release_calls w [l]).
    { unfold dispose_if_alive, alive_in, release_calls. cbn [mbind list_bind].
      rewrite (bind_ok _ _ _ _ _ (Lifetime_alive_ok _ _ _ Hl)), Hl.
      destruct (_alive x) eqn:Ha.
      - destruct (Lifetime_dispose_fields w l x)
          as (w1 & Hd & Hh & Hv & Hm & Hr & Hs & Hcs & Ht & Hc); [done..|].
        exists w1. rewrite Hd, Hm, Hc, app_nil_r. by rewrite decide_False.
      - exists w. by rewrite !app_nil_r. }
    destruct Hstep as (w1 & Hd & Hh & Hv & Hm & Hr & Hs & Hcs & Ht & Hc).
    destruct (IH w1) as (w2 & Hloop & Hh2 & Hv2 & Hm2 & Hr2 & Hs2 & Hcs2 & Ht2 & Hc2).
    { eapply Forall_impl; [exact Hall|]. cbn. intros l' (x' & Hl' & Hrun' & Hnc').
      exists x'. rewrite Hh. split; [done|]. split; [|done].
      by eapply can_run_stable. }
    exists w2. cbn [for_each]. rewrite (bind_ok _ _ _ _ _ Hd).
    split; [done|]. repeat (split; [congruence|]).
    split.
    + rewrite Ht2, Ht, <- app_assoc. f_equal.
      rewrite (list_filter_iff (λ l0, alive_in w1 l0) (λ l0, alive_in w l0))
        by (intros l0; by rewrite (alive_in_heap w w1 l0 Hh)).
      rewrite filter_cons. by destruct (alive_in w l).
    + rewrite Hc2, Hc, <- app_assoc. f_equal.
      unfold release_calls. cbn [mbind list_bind]. rewrite app_nil_r. f_equal.
      apply list_bind_ext; [|done]. intros l0. rewrite Hh.
      destruct (heap w !! l0) as [x0|]; [|done]. destruct (_alive x0); [|done].
      destruct (disposer x0) as [d0|]; [|done]. cbn.
      by rewrite (release_call_stable w w1 d0 _ Hh Hv).
Qed.

(** QuickJSVm.dispose, with everything it changes. *)
Lemma QuickJSVm_dispose_fields w this (s : QuickJSVm) c r :
  vms w !! this = Some s →
  live w (ctx s) c → disposer c = Some freeContext →
  live w (rt s) r → disposer r = Some freeRuntime →
  Forall (λ l, ∃ x, heap w !! l = Some x ∧ can_run w (disposer x)
                    ∧ disposer x ≠ Some freeContext) (lifetimes s) →
  ∃ w', QuickJSVm_dispose this w = (w', Ok tt) ∧
        heap w' = heap w ∧ vms w' = vms w ∧
        vmMap w' = delete (_value c) (vmMap w) ∧
        isReady w' = isReady w ∧ singleton w' = singleton w ∧ console w' = console w ∧
        disposals (trace w') =
          disposals (trace w) ++ filter (λ l, alive_in w l) (lifetimes s) ++ [ctx s; rt s] ∧
        calls (trace w') =
          calls (trace w) ++ release_calls w (lifetimes s)
            ++ [("QTS_FreeContext"%string, [_value c]);
                ("QTS_FreeRuntime"%string, [_value r])].
Proof.
  intros Hvm [Hc Hca] Hcd [Hr Hra] Hrd Htable.
  unfold QuickJSVm_dispose. rewrite (bind_ok _ _ _ _ _ (get_vm_ok _ _ _ Hvm)).
  destruct (dispose_table_fields (lifetimes s) w Htable)
    as (w1 & Hloop & Hh1 & Hv1 & Hm1 & Hr1 & Hs1 & Hcs1 & Ht1 & Hc1).
  rewrite (bind_ok _ _ _ _ _ Hloop).
  destruct (Lifetime_dispose_fields w1 (ctx s) c)
    as (w2 & Hd2 & Hh2 & Hv2 & Hm2 & Hr2 & Hs2 & Hcs2 & Ht2 & Hc2).
  { split; [by rewrite Hh1|done]. }
  { by rewrite Hcd. }
  rewrite (bind_ok _ _ _ _ _ Hd2).
  destruct (Lifetime_dispose_fields w2 (rt s) r)
    as (w3 & Hd3 & Hh3 & Hv3 & Hm3 & Hr3 & Hs3 & Hcs3 & Ht3 & Hc3).
  { split; [by rewrite Hh2, Hh1|done]. }
  { by rewrite Hrd. }
  exists w3. split; [done|].
  rewrite Hcd in Hm2, Hc2. rewrite Hrd in Hm3, Hc3. cbn in Hc2, Hc3.
  rewrite decide_True in Hm2 by done. rewrite decide_False in Hm3 by done.
  repeat (split; [congruence|]). split.
  - rewrite Ht3, Ht2, Ht1, <- !app_assoc. done.
  - rewrite Hc3, Hc2, Hc1, <- !app_assoc. done.
Qed.

(** ** The order of a teardown *)

Lemma run_disposer_trace w d v :
  can_run w (Some d) →
  ∃ w', run_disposer d v w = (w', Ok tt) ∧
        heap w' = heap w ∧ vms w' = vms w ∧
        trace w' = trace w ++ [EvDisposer d v;
                               EvCall (release_call w d v).1 (release_call w d v).2] ∧
        engine_st w' = release_engine w d v (engine_st w).
Proof.
  intros Hrun. unfold run_disposer.
  erewrite bind_ok; [|reflexivity].
  destruct d as [vm| | |]; cbn in Hrun.
  - destruct Hrun as (s & c & Hs & Hc & Ha).
    erewrite bind_ok; [|by apply get_vm_ok].
    erewrite bind_ok; [|by apply Lifetime_value_ok].
    rewrite ffi_unit_eq. eexists. split; [reflexivity|].
    cbn [heap vms trace engine_st set_trace set_engine release_call release_engine fst snd].
    assert (Hcx : ctx_of w vm = _value c).
    { unfold ctx_of, value_in. by rewrite Hs; cbn; rewrite Hc. }
    rewrite Hcx, <- app_assoc. done.
  - rewrite ffi_unit_eq. eexists. split; [reflexivity|].
    cbn [heap vms trace engine_st set_trace set_engine release_call release_engine fst snd].
    by rewrite <- app_assoc.
  - rewrite ffi_unit_eq. eexists. split; [reflexivity|].
    cbn [heap vms trace engine_st set_trace set_engine release_call release_engine fst snd].
    by rewrite <- app_assoc.
  - erewrite bind_ok; [|reflexivity].
    rewrite ffi_unit_eq. eexists. split; [reflexivity|].
    cbn [heap vms trace engine_st set_trace set_engine set_vmMap release_call
         release_engine fst snd].
    by rewrite <- app_assoc.
Qed.

Lemma Lifetime_dispose_trace w l x :
  live w l x → can_run w (disposer x) →
  ∃ w', Lifetime_dispose l w = (w', Ok tt) ∧
        heap w' = heap w ∧ vms w' = vms w ∧
        trace w' = trace w ++ dispose_events w l ∧
        engine_st w' = dispose_engine w l (engine_st w).
Proof.
  intros [Hl Ha] Hrun. unfold Lifetime_dispose, dispose_events, dispose_engine.
  rewrite (bind_ok _ _ _ _ _ (assertAlive_ok _ _ _ Hl Ha)).
  erewrite bind_ok; [|reflexivity].
  set (w0 := set_trace (trace w ++ [EvDispose l]) w).
  assert (Hl0 : heap w0 !! l = Some x) by done.
  rewrite (bind_ok _ _ _ _ _ (deref_ok _ _ _ Hl0)), Hl.
  destruct (disposer x) as [d|] eqn:Hd.
  - destruct (run_disposer_trace w0 d (_value x)) as (w1 & Hw1 & Hh & Hv & Ht & He);
      [exact Hrun|].
    rewrite (bind_ok _ _ _ _ _ Hw1).
    eexists. split; [reflexivity|].
    cbn [heap vms trace engine_st set_heap from_option]. rewrite Hh.
    split; [by eapply alter_alive_id|]. split; [done|].
    rewrite Ht, He. split; [|by destruct d].
    subst w0. cbn [trace set_trace]. by rewrite <- app_assoc.
  - unfold mbind, M_bind, bind, mret, M_ret, ret. cbn.
    eexists. split; [reflexivity|]. cbn.
    split; [by eapply alter_alive_id|]. done.
Qed.

Lemma cleanup_stable w w' l e :
  heap w' = heap w → vms w' = vms w →
  cleanup_events w' l = cleanup_events w l ∧ cleanup_engine w' e l = cleanup_engine w e l ∧
  dispose_events w' l = dispose_events w l ∧ dispose_engine w' l e = dispose_engine w l e.
Proof.
  intros Hh Hv.
  assert (Hev : dispose_events w' l = dispose_events w l).
  { unfold dispose_events. rewrite Hh. destruct (heap w !! l) as [x|]; [|done].
    destruct (disposer x) as [d|]; [|done]. cbn.
    by rewrite (release_call_stable w w' d _ Hh Hv). }
  assert (Hen : dispose_engine w' l e = dispose_engine w l e).
  { unfold dispose_engine. rewrite Hh. destruct (heap w !! l) as [x|]; [|done].
    destruct (disposer x) as [[vm| | |]|]; try done. cbn.
    unfold ctx_of, value_in. by rewrite Hv, Hh. }
  unfold cleanup_events, cleanup_engine. rewrite (alive_in_heap w w' l Hh).
  by rewrite Hev, Hen.
Qed.

(** The cleanup loop over the table of a VM. *)
Lemma dispose_table_trace (ls : list loc) : ∀ w,
  Forall (λ l, ∃ x, heap w !! l = Some x ∧ can_run w (disposer x)) ls →
  ∃ w', for_each ls dispose_if_alive w = (w', Ok tt) ∧
        heap w' = heap w ∧ vms w' = vms w ∧
        trace w' = trace w ++ (ls ≫= cleanup_events w) ∧
        engine_st w' = foldl (cleanup_engine w) (engine_st w) ls.
Proof.
  induction ls as [|l ls IH]; intros w Hall.
  - exists w. cbn. by rewrite app_nil_r.
  - apply Forall_cons in Hall as [(x & Hl & Hrun) Hall].
    assert (Hstep : ∃ w1, dispose_if_alive l w = (w1, Ok tt) ∧
              heap w1 = heap w ∧ vms w1 = vms w ∧
              trace w1 = trace w ++ cleanup_events w l ∧
              engine_st w1 = cleanup_engine w (engine_st w) l).
    { unfold dispose_if_alive, cleanup_events, cleanup_engine, alive_in.
      rewrite (bind_ok _ _ _ _ _ (Lifetime_alive_ok _ _ _ Hl)), Hl.
      destruct (_alive x) eqn:Ha.
      - by apply (Lifetime_dispose_trace w l x).
      - exists w. by rewrite app_nil_r. }
    destruct Hstep as (w1 & Hd & Hh & Hv & Ht & He).
    destruct (IH w1) as (w2 & Hloop & Hh2 & Hv2 & Ht2 & He2).
    { eapply Forall_impl; [exact Hall|]. cbn. intros l' (x' & Hl' & Hrun').
      exists x'. rewrite Hh. split; [done|]. by eapply can_run_stable. }
    exists w2. cbn [for_each]. rewrite (bind_ok _ _ _ _ _ Hd).
    split; [done|]. split; [congruence|]. split; [congruence|].
    split.
    + rewrite Ht2, Ht, <- app_assoc. cbn [mbind list_bind]. f_equal. f_equal.
      apply list_bind_ext; [|done]. intros l0.
      by destruct (cleanup_stable w w1 l0 (engine_st w) Hh Hv) as [-> _].
    + rewrite He2, He. cbn [foldl]. generalize (cleanup_engine w (engine_st w) l).
      intros e0. clear -Hh Hv. revert e0.
      induction ls as [|l1 ls IH]; intros e0; [done|]. cbn [foldl].
      destruct (cleanup_stable w w1 l1 e0 Hh Hv) as (_ & -> & _). apply IH.
Qed.

(** C7: [dispose()] of a VM runs [dispose()] on the entries of its table
    that are alive, in table order and skipping the others, then on the
    context, then on the runtime, and does nothing else: the trace grows by
    exactly these disposals, each followed by the run of its disposer and
    the disposer's call across the boundary, and the engine has taken the
    releases in that order.  When every entry of the table is alive, as
    every object the module creates is, all of them are disposed. *)
Theorem QuickJSVm_dispose_order w this (s : QuickJSVm) c r
    (Hvm : vms w !! this = Some s)
    (Hctx : live w (ctx s) c) (Hctx_run : can_run w (disposer c))
    (Hrt : live w (rt s) r) (Hrt_run : can_run w (disposer r))
    (Htable : Forall (λ l, ∃ x, heap w !! l = Some x ∧ can_run w (disposer x))
                     (lifetimes s)) :
  ∃ w', QuickJSVm_dispose this w = (w', Ok tt) ∧
        disposals (trace w') =
          disposals (trace w) ++ filter (λ l, alive_in w l) (lifetimes s)
                              ++ [ctx s; rt s] ∧
        trace w' =
          trace w ++ (lifetimes s ≫= cleanup_events w)
                  ++ dispose_events w (ctx s) ++ dispose_events w (rt s) ∧
        engine_st w' =
          dispose_engine w (rt s)
            (dispose_engine w (ctx s)
               (foldl (cleanup_engine w) (engine_st w) (lifetimes s))) ∧
        (Forall (λ l, alive_in w l = true) (lifetimes s) →
         disposals (trace w') = disposals (trace w) ++ lifetimes s ++ [ctx s; rt s]).
Proof.
  destruct (QuickJSVm_dispose_disposals w this s c r Hvm Hctx Hctx_run Hrt Hrt_run Htable)
    as (w0 & Hrun0 & Hdisp).
  unfold QuickJSVm_dispose in *.
  rewrite (bind_ok _ _ _ _ _ (get_vm_ok _ _ _ Hvm)) in *.
  destruct (dispose_table_trace (lifetimes s) w Htable) as (w1 & Hloop & Hh1 & Hv1 & Ht1 & He1).
  rewrite (bind_ok _ _ _ _ _ Hloop) in *.
  destruct (Lifetime_dispose_trace w1 (ctx s) c) as (w2 & Hd2 & Hh2 & Hv2 & Ht2 & He2).
  { destruct Hctx as [Hc Hca]. split; [by rewrite Hh1|done]. }
  { by eapply can_run_stable. }
  rewrite (bind_ok _ _ _ _ _ Hd2) in *.
  destruct (Lifetime_dispose_trace w2 (rt s) r) as (w3 & Hd3 & Hh3 & Hv3 & Ht3 & He3).
  { destruct Hrt as [Hr Hra]. split; [by rewrite Hh2, Hh1|done]. }
  { eapply can_run_stable; [| |exact Hrt_run]; congruence. }
  rewrite Hd3 in Hrun0. injection Hrun0 as <-.
  exists w3. split; [done|]. split; [done|].
  assert (Hh21 : heap w2 = heap w) by congruence.
  assert (Hv21 : vms w2 = vms w) by congruence.
  destruct (cleanup_stable w w1 (ctx s) (engine_st w1) Hh1 Hv1) as (_ & _ & Hev1 & Hen1).
  destruct (cleanup_stable w w2 (rt s) (engine_st w2) Hh21 Hv21) as (_ & _ & Hev2 & Hen2).
  split; [by rewrite Ht3, Ht2, Ht1, Hev1, Hev2, <- !app_assoc|].
  split; [by rewrite He3, Hen2, He2, Hen1, He1|].
  intros Hall. rewrite Hdisp. f_equal. f_equal.
  clear -Hall. induction Hall as [|l ls Hl _ IH]; [done|].
  rewrite filter_cons, Hl. cbn. by rewrite IH.
Qed.

(** ** Creating and tearing down a VM *)

Lemma vm_ctx_grow w w' this c :
  (∃ ext, vms w' = vms w ++ ext) → (∃ ext, heap w' = heap w ++ ext) →
  vm_ctx w this c → vm_ctx w' this c.
Proof.
  intros [vext Hv] [ext Hh] (s & x & Hs & [Hx Ha] & Hc). exists s, x.
  split; [rewrite Hv; by apply lookup_app_l_Some|]. split; [|done]. split; [|done].
  rewrite Hh. by apply lookup_app_l_Some.
Qed.

(** QuickJS.createVm, with everything it changes. *)
Lemma createVm_fields w :
  ∃ w' rp cp,
    createVm w = (w', Ok (length (vms w))) ∧
    heap w' = heap w ++ [mkLifetime rp (Some freeRuntime) None true;
                         mkLifetime cp (Some freeContext) None true] ∧
    vms w' = vms w ++ [mkVm (S (length (heap w))) (length (heap w)) None None [] 0 ∅] ∧
    vmMap w' = <[cp := length (vms w)]> (vmMap w) ∧
    isReady w' = isReady w ∧ singleton w' = singleton w ∧ console w' = console w ∧
    disposals (trace w') = disposals (trace w) ∧
    calls (trace w') = calls (trace w) ++ [("QTS_NewRuntime"%string, []);
                                           ("QTS_NewContext"%string, [rp])].
Proof.
  unfold createVm.
  erewrite bind_ok; [|apply ffi_eq].
  erewrite bind_ok; [|reflexivity].
  erewrite bind_ok; [|by eapply Lifetime_value_ok; [apply lookup_pushed|]].
  erewrite bind_ok; [|apply ffi_eq].
  erewrite bind_ok; [|reflexivity].
  erewrite bind_ok; [|reflexivity].
  erewrite bind_ok; [|reflexivity].
  erewrite bind_ok; cycle 1.
  { eapply Lifetime_value_ok;
      [cbn [heap set_heap set_trace set_engine set_vms]; apply lookup_pushed
      |reflexivity]. }
  erewrite bind_ok; [|reflexivity].
  eexists _, _, _. split; [reflexivity|].
  cbn [heap vms vmMap isReady singleton console trace engine_st
       set_heap set_trace set_engine set_vms set_vmMap _value].
  rewrite !disposals_snoc, !calls_snoc, <- !app_assoc, length_app. cbn.
  rewrite !app_nil_r, Nat.add_1_r. done.
Qed.

(** X4: QuickJS.createVm: it always succeeds; the new VM has a readable context, is the
    VM the manager's table routes that context address to, and the VMs and
    handles that existed are as they were. *)
Theorem createVm_registers w :
  ∃ w' c,
    createVm w = (w', Ok (length (vms w))) ∧
    vm_ctx w' (length (vms w)) c ∧
    vmMap w' !! c = Some (length (vms w)) ∧
    (∀ v c0, vm_ctx w v c0 → vm_ctx w' v c0) ∧
    (∀ h x, heap w !! h = Some x → heap w' !! h = Some x) ∧
    disposals (trace w') = disposals (trace w).
Proof.
  destruct (createVm_fields w) as (w' & rp & cp & Hrun & Hh & Hv & Hm & _ & _ & _ & Hd & _).
  exists w', cp. split; [done|]. split; [|split; [|split; [|split]]].
  - exists (mkVm (S (length (heap w))) (length (heap w)) None None [] 0 ∅),
           (mkLifetime cp (Some freeContext) None true).
    split; [rewrite Hv; apply list_lookup_middle; done|].
    split; [|reflexivity]. split; [|reflexivity].
    rewrite Hh. cbn [ctx].
    rewrite (lookup_app_r (heap w)) by lia.
    by replace (S (length (heap w)) - length (heap w))%nat with 1%nat by lia.
  - rewrite Hm. apply lookup_insert_eq.
  - intros v c0. apply vm_ctx_grow; by eexists.
  - intros h x Hx. rewrite Hh. by apply lookup_app_l_Some.
  - done.
Qed.


Lemma trampoline_unrouted w (ctx_ptr this_ptr : ptr) (argc : nat) (argv fn_data : ptr) :
  vmMap w !! ctx_ptr = None →
  ∃ w' e, QuickJS_cToHostCallbackFunction host_apply ctx_ptr this_ptr argc argv fn_data w
            = (w', Ok 0) ∧
          console w' = console w ++ [e] ∧ heap w' = heap w ∧
          disposals (trace w') = disposals (trace w).
Proof.
  intros Hnone. unfold QuickJS_cToHostCallbackFunction, try_catch, route.
  erewrite bind_ok; [|reflexivity]. rewrite Hnone.
  erewrite bind_ok; [|apply ffi_eq]. unfold throw, console_error, modify.
  erewrite bind_ok; [|reflexivity].
  eexists _, _. split; [reflexivity|]. cbn [console heap trace set_console set_trace set_engine].
  rewrite disposals_snoc. cbn. by rewrite app_nil_r.
Qed.

(** X5: QuickJSVm.dispose with the context disposer of createVm: tearing a VM
    down removes its entry from the manager's table, releases the alive
    table entries, then frees the context and then the runtime; a callback
    that still arrives for that context is answered with 0 and logged. *)
Theorem vm_teardown_unregisters w this (s : QuickJSVm) c r
    (Hvm : vms w !! this = Some s)
    (Hctx : live w (ctx s) c) (Hctx_d : disposer c = Some freeContext)
    (Hrt : live w (rt s) r) (Hrt_d : disposer r = Some freeRuntime)
    (Htable : Forall (λ l, ∃ x, heap w !! l = Some x ∧ can_run w (disposer x)
                                ∧ disposer x ≠ Some freeContext) (lifetimes s)) :
  ∃ w', QuickJSVm_dispose this w = (w', Ok tt) ∧
        vmMap w' = delete (_value c) (vmMap w) ∧
        calls (trace w') =
          calls (trace w) ++ release_calls w (lifetimes s)
            ++ [("QTS_FreeContext"%string, [_value c]);
                ("QTS_FreeRuntime"%string, [_value r])] ∧
        ∀ this_ptr argc argv fn_data,
          ∃ w'' e,
            QuickJS_cToHostCallbackFunction host_apply (_value c) this_ptr argc argv fn_data w'
              = (w'', Ok 0) ∧
            console w'' = console w' ++ [e].
Proof.
  destruct (QuickJSVm_dispose_fields w this s c r Hvm Hctx Hctx_d Hrt Hrt_d Htable)
    as (w' & Hrun & _ & _ & Hm & _ & _ & _ & _ & Hc).
  exists w'. split; [done|]. split; [done|]. split; [done|].
  intros this_ptr argc argv fn_data.
  destruct (trampoline_unrouted w' (_value c) this_ptr argc argv fn_data)
    as (w'' & e & Ht & Hlog & _); [rewrite Hm; apply lookup_delete_eq|].
  by exists w'', e.
Qed.

(** ** The memoized handles *)

Lemma update_vm_lookup w this (s : QuickJSVm) (f : QuickJSVm → QuickJSVm) :
  vms w !! this = Some s →
  vms (set_vms (alter f this (vms w)) w) !! this = Some (f s).
Proof. intros Hs. cbn. by rewrite list_lookup_alter_eq, Hs. Qed.

(** X6: QuickJSVm.undefined: the first read asks the engine once and stores a
    handle with no owner and no disposer; every later read returns that
    same handle and does nothing else. *)
Theorem undefined_is_memoized w this (s : QuickJSVm)
    (Hvm : vms w !! this = Some s) (Hfirst : _undefined s = None) :
  ∃ w1 u xu,
    QuickJSVm_undefined this w = (w1, Ok u) ∧
    QuickJSVm_undefined this w1 = (w1, Ok u) ∧
    live w1 u xu ∧ _owner xu = None ∧ disposer xu = None ∧
    calls (trace w1) = calls (trace w) ++ [("QTS_GetUndefined"%string, [])] ∧
    disposals (trace w1) = disposals (trace w).
Proof.
  unfold QuickJSVm_undefined at 1.
  rewrite (bind_ok _ _ _ _ _ (get_vm_ok _ _ _ Hvm)), Hfirst.
  erewrite bind_ok; [|apply ffi_eq].
  erewrite bind_ok; [|reflexivity].
  erewrite bind_ok; [|reflexivity].
  set (w1 := set_vms _ _).
  eexists w1, _, _. split; [reflexivity|].
  assert (Hs1 : vms w1 !! this = Some (vm_set_undefined (length (heap w)) s)).
  { subst w1. cbn [vms set_vms set_heap set_trace set_engine].
    by rewrite list_lookup_alter_eq, Hvm. }
  split.
  { unfold QuickJSVm_undefined. by rewrite (bind_ok _ _ _ _ _ (get_vm_ok _ _ _ Hs1)). }
  subst w1. cbn [heap vms trace set_vms set_heap set_trace set_engine].
  split; [split; [apply lookup_pushed|reflexivity]|].
  split; [reflexivity|]. split; [reflexivity|].
  rewrite calls_snoc, disposals_snoc. cbn. by rewrite app_nil_r.
Qed.

(** X7: QuickJSVm.global: the first read fetches the global object once; the
    handle it returns is owned by the VM but has no disposer, while a second
    handle on the same address, which does free it, is appended to the VM's
    table for teardown.  Every later read returns the same handle and does
    nothing else. *)
Theorem global_is_memoized w this c (s : QuickJSVm)
    (Hctx : vm_ctx w this c)
    (Hvm : vms w !! this = Some s) (Hfirst : _global s = None) :
  ∃ w1 g xg s1 l xl,
    QuickJSVm_global this w = (w1, Ok g) ∧
    QuickJSVm_global this w1 = (w1, Ok g) ∧
    live w1 g xg ∧ _owner xg = Some this ∧ disposer xg = None ∧
    vms w1 !! this = Some s1 ∧ lifetimes s1 = lifetimes s ++ [l] ∧
    live w1 l xl ∧ _value xl = _value xg ∧ disposer xl = Some (freeJSValue this) ∧
    calls (trace w1) = calls (trace w) ++ [("QTS_GetGlobalObject"%string, [c])] ∧
    disposals (trace w1) = disposals (trace w).
Proof.
  unfold QuickJSVm_global at 1.
  rewrite (bind_ok _ _ _ _ _ (get_vm_ok _ _ _ Hvm)), Hfirst.
  rewrite (bind_ok _ _ _ _ _ (ctx_value_ok _ _ _ Hctx)).
  erewrite bind_ok; [|apply ffi_eq].
  erewrite bind_ok; [|apply heapValueHandle_eq].
  erewrite bind_ok; [|reflexivity].
  erewrite bind_ok; [|reflexivity].
  erewrite bind_ok; [|reflexivity].
  match goal with |- context [@mret _ _ _ _ ?W] => set (w1 := W) end.
  set (p := (QTS_GetGlobalObject c (engine_st w)).2).
  assert (Hs1 : vms w1 !! this
                = Some (vm_set_global (S (length (heap w)))
                          (vm_push_lifetime (length (heap w)) s))).
  { subst w1. cbn [vms heap set_vms set_heap set_trace set_engine].
    rewrite list_lookup_alter_eq, list_lookup_alter_eq, Hvm. cbn.
    rewrite length_app. cbn. by rewrite Nat.add_1_r. }
  assert (Hh1 : heap w1 = heap w
                  ++ [mkLifetime p (Some (freeJSValue this)) (Some this) true;
                      mkLifetime p None (Some this) true]).
  { subst w1. cbn [heap set_vms set_heap set_trace set_engine]. by rewrite <- app_assoc. }
  exists w1, (S (length (heap w))), (mkLifetime p None (Some this) true).
  eexists _, (length (heap w)), (mkLifetime p (Some (freeJSValue this)) (Some this) true).
  split. { cbn [heap set_heap set_trace set_engine set_vms]. rewrite length_app. cbn.
           by rewrite Nat.add_1_r. }
  split.
  { unfold QuickJSVm_global. by rewrite (bind_ok _ _ _ _ _ (get_vm_ok _ _ _ Hs1)). }
  split.
  { split; [|done]. rewrite Hh1, (lookup_app_r (heap w)) by lia.
    by replace (S (length (heap w)) - length (heap w))%nat with 1%nat by lia. }
  split; [done|]. split; [done|]. split; [exact Hs1|]. split; [done|].
  split.
  { split; [|done]. rewrite Hh1. by apply list_lookup_middle. }
  split; [done|]. split; [done|].
  subst w1. cbn [trace set_vms set_heap set_trace set_engine].
  rewrite calls_snoc, disposals_snoc. cbn. by rewrite app_nil_r.
Qed.

(** ** Handles made by a VM *)

Lemma vm_ctx_update w w' this c v (f : QuickJSVm → QuickJSVm) :
  vms w' = alter f v (vms w) → heap w' = heap w → (∀ s, ctx (f s) = ctx s) →
  vm_ctx w this c → vm_ctx w' this c.
Proof.
  intros Hv Hh Hf (s & x & Hs & [Hx Ha] & Hc).
  destruct (decide (v = this)) as [->|Hne].
  - exists (f s), x. unfold live.
    rewrite Hv, list_lookup_alter_eq, Hs, Hf, Hh. by repeat split.
  - exists s, x. unfold live.
    rewrite Hv, list_lookup_alter_ne, Hh by done. by repeat split.
Qed.

Lemma newString_eq w this c (str : string) :
  vm_ctx w this c →
  newString this str w =
    (set_heap (heap w ++ [mkLifetime (QTS_NewString c str (engine_st w)).2
                                     (Some (freeJSValue this)) (Some this) true])
       (set_trace (trace w ++ [EvCall "QTS_NewString" [c]])
          (set_engine (QTS_NewString c str (engine_st w)).1 w)),
     Ok (length (heap w))).
Proof.
  intros Hctx. unfold newString.
  rewrite (bind_ok _ _ _ _ _ (ctx_value_ok _ _ _ Hctx)).
  erewrite bind_ok; [|apply ffi_eq]. by rewrite heapValueHandle_eq.
Qed.

Lemma newNumber_eq w this c (n : number) :
  vm_ctx w this c →
  newNumber this n w =
    (set_heap (heap w ++ [mkLifetime (QTS_NewFloat64 c n (engine_st w)).2
                                     (Some (freeJSValue this)) (Some this) true])
       (set_trace (trace w ++ [EvCall "QTS_NewFloat64" [c]])
          (set_engine (QTS_NewFloat64 c n (engine_st w)).1 w)),
     Ok (length (heap w))).
Proof.
  intros Hctx. unfold newNumber.
  rewrite (bind_ok _ _ _ _ _ (ctx_value_ok _ _ _ Hctx)).
  erewrite bind_ok; [|apply ffi_eq]. by rewrite heapValueHandle_eq.
Qed.

Lemma newObject_eq w this c :
  vm_ctx w this c →
  newObject this None w =
    (set_heap (heap w ++ [mkLifetime (QTS_NewObject c (engine_st w)).2
                                     (Some (freeJSValue this)) (Some this) true])
       (set_trace (trace w ++ [EvCall "QTS_NewObject" [c]])
          (set_engine (QTS_NewObject c (engine_st w)).1 w)),
     Ok (length (heap w))).
Proof.
  intros Hctx. unfold newObject.
  erewrite bind_ok; [|reflexivity].
  erewrite bind_ok; cycle 1.
  { rewrite (bind_ok _ _ _ _ _ (ctx_value_ok _ _ _ Hctx)). apply ffi_eq. }
  by rewrite heapValueHandle_eq.
Qed.

(** A handle that [heapValueHandle] just made for VM [a]. *)
Lemma fresh_handle_bound w0 w1 a c b (p : ptr) :
  vm_ctx w0 a c → b ≠ a →
  heap w1 = heap w0 ++ [mkLifetime p (Some (freeJSValue a)) (Some a) true] →
  vms w1 = vms w0 →
  typeof b (length (heap w0)) w1 = (w1, Throw foreign_handle_error) ∧
  getString b (length (heap w0)) w1 = (w1, Throw foreign_handle_error) ∧
  getNumber b (length (heap w0)) w1 = (w1, Throw foreign_handle_error) ∧
  dump b (length (heap w0)) w1 = (w1, Throw foreign_handle_error) ∧
  ∃ w2 t, typeof a (length (heap w0)) w1 = (w2, Ok t).
Proof.
  intros Hctx Hne Hh Hv.
  assert (Hx : heap w1 !! length (heap w0)
               = Some (mkLifetime p (Some (freeJSValue a)) (Some a) true)).
  { rewrite Hh. apply lookup_pushed. }
  destruct (foreign_handle_rejected w1 b _ _ a Hx eq_refl) as (Ht & Hn & Hs & _ & Hd);
    [done|].
  repeat (split; [done|]).
  assert (Hctx1 : vm_ctx w1 a c) by (eapply vm_ctx_ext; [done| by eexists |done]).
  eexists _, _. eapply typeof_ok; [exact Hctx1|by split|].
  by intros v [= <-].
Qed.

(** X8: newString / newNumber / newObject with heapValueHandle and assertOwned:
    a handle made by one VM is accepted by that VM and refused, with the
    ownership error and before the engine is touched, by [typeof],
    [getString], [getNumber] and [dump] of any other VM. *)
Theorem fresh_handles_are_bound_to_their_vm w a c (Hctx : vm_ctx w a c) :
  ∀ (make : M loc) b,
    (make = newObject a None ∨ (∃ s, make = newString a s) ∨ (∃ n, make = newNumber a n)) →
    b ≠ a →
    ∃ w1 h,
      make w = (w1, Ok h) ∧
      typeof b h w1 = (w1, Throw foreign_handle_error) ∧
      getString b h w1 = (w1, Throw foreign_handle_error) ∧
      getNumber b h w1 = (w1, Throw foreign_handle_error) ∧
      dump b h w1 = (w1, Throw foreign_handle_error) ∧
      ∃ w2 t, typeof a h w1 = (w2, Ok t).
Proof.
  intros make b Hmake Hne.
  destruct Hmake as [->|[[s ->]|[n ->]]].
  - eexists _, _. split; [by apply newObject_eq|].
    by eapply fresh_handle_bound.
  - eexists _, _. split; [by apply newString_eq|].
    by eapply fresh_handle_bound.
  - eexists _, _. split; [by apply newNumber_eq|].
    by eapply fresh_handle_bound.
Qed.

(** newFunction, with everything it changes. *)
Lemma newFunction_fields w this (s : QuickJSVm) xc (nm : string) (fn : fnImpl)
    (Hvm : vms w !! this = Some s) (Hc : live w (ctx s) xc) :
  ∃ w1 f xf s1 idp,
    newFunction this nm fn w = (w1, Ok f) ∧
    live w1 f xf ∧ _owner xf = Some this ∧ disposer xf = Some (freeJSValue this) ∧
    vms w1 !! this = Some s1 ∧
    fnNextId s1 = S (fnNextId s) ∧
    fnMap s1 !! num_of_nat (S (fnNextId s)) = Some fn ∧
    (∀ k, k ≠ num_of_nat (S (fnNextId s)) → fnMap s1 !! k = fnMap s !! k) ∧
    ctx s1 = ctx s ∧ rt s1 = rt s ∧ lifetimes s1 = lifetimes s ∧
    _undefined s1 = _undefined s ∧ (∃ ext, heap w1 = heap w ++ ext) ∧
    calls (trace w1) =
      calls (trace w) ++ [("QTS_NewFloat64"%string, [_value xc]);
                          ("QTS_NewFunction"%string, [_value xc; idp]);
                          ("_free"%string, [idp])] ∧
    disposals (trace w1) = disposals (trace w).
Proof.
  assert (Hctx : vm_ctx w this (_value xc)) by (by exists s, xc).
  unfold newFunction.
  rewrite (bind_ok _ _ _ _ _ (get_vm_ok _ _ _ Hvm)). cbn zeta.
  erewrite bind_ok; [|reflexivity].
  erewrite bind_ok; [|reflexivity].
  match goal with |- context [(newNumber _ _ ≫= _) ?W] => set (w0 := W) end.
  assert (Hs0 : vms w0 !! this
                = Some (vm_fnMap_set (num_of_nat (S (fnNextId s))) fn
                          (vm_set_fnNextId (S (fnNextId s)) s))).
  { subst w0. cbn [vms set_vms]. by rewrite !list_lookup_alter_eq, Hvm. }
  assert (Hctx0 : vm_ctx w0 this (_value xc)).
  { eexists _, xc. split; [exact Hs0|]. by split. }
  rewrite (bind_ok _ _ _ _ _ (newNumber_eq _ _ _ _ Hctx0)).
  set (idp := (QTS_NewFloat64 _ _ _).2).
  match goal with |- context [(ctx_value _ ≫= _) ?W] => set (w1 := W) end.
  assert (Hctx1 : vm_ctx w1 this (_value xc)).
  { eapply vm_ctx_ext; [| |exact Hctx0]; [done|by eexists]. }
  assert (Hid : heap w1 !! length (heap w0)
                = Some (mkLifetime idp (Some (freeJSValue this)) (Some this) true)).
  { apply lookup_pushed. }
  rewrite (bind_ok _ _ _ _ _ (ctx_value_ok _ _ _ Hctx1)).
  erewrite bind_ok; [|by apply (Lifetime_value_ok _ _ _ Hid)].
  erewrite bind_ok; [|apply ffi_eq].
  erewrite bind_ok; [|apply heapValueHandle_eq].
  erewrite bind_ok; cycle 1.
  { eapply Lifetime_value_ok;
      [cbn [heap set_heap set_trace set_engine]; apply lookup_app_l_Some, Hid
      |reflexivity]. }
  erewrite bind_ok; [|apply ffi_unit_eq].
  eexists _, _, _, _, idp. split; [reflexivity|].
  cbn [heap vms trace set_heap set_trace set_engine].
  split; [split; [apply lookup_pushed|reflexivity]|].
  split; [reflexivity|]. split; [reflexivity|].
  split; [exact Hs0|]. split; [reflexivity|].
  split; [apply lookup_insert_eq|].
  split; [intros k Hk; by apply lookup_insert_ne|].
  split; [reflexivity|]. split; [reflexivity|]. split; [reflexivity|].
  split; [reflexivity|].
  split; [subst w1 w0; cbn [heap set_heap set_trace set_engine set_vms];
          rewrite <- app_assoc; by eexists|].
  subst w1 w0. cbn [heap vms trace set_heap set_trace set_engine set_vms _value].
  rewrite !calls_snoc, !disposals_snoc, <- !app_assoc. cbn. by rewrite !app_nil_r.
Qed.


(** ** Property access with a string key *)


(** ** Dumping a value *)



(** ** One-off evaluation *)



(** ** The callback dispatch of a VM *)

(** X13: QuickJSVm.cToHostCallbackFunction: a call that carries another context
    address than the VM's is refused at once; a call whose identifier is
    not in the callback table is refused after the identifier was read.  In
    both cases no handle is created, nothing is disposed and the host is not
    entered. *)
Theorem dispatch_refuses_unknown_calls w this c (s : QuickJSVm)
    (Hvm : vms w !! this = Some s) (Hc : vm_ctx w this c) :
  (∀ ctx_ptr this_ptr argc argv fn_data,
     ctx_ptr ≠ c →
     QuickJSVm_cToHostCallbackFunction host_apply this ctx_ptr this_ptr argc argv fn_data w
       = (w, Throw (new_Error
                      "QuickJSVm instance received C -> JS call with mismatched ctx"))) ∧
  (∀ this_ptr argc argv fn_data w0 fnId,
     callback_id c fn_data w = (w0, Ok fnId) →
     fnMap s !! fnId = None →
     QuickJSVm_cToHostCallbackFunction host_apply this c this_ptr argc argv fn_data w
       = (w0, Throw (new_Error ("QuickJSVm had no callback with id "
                                +:+ String_of_number fnId)))
     ∧ only_engine w w0).
Proof.
  split.
  - intros ctx_ptr this_ptr argc argv fn_data Hne.
    unfold QuickJSVm_cToHostCallbackFunction.
    rewrite (bind_ok _ _ _ _ _ (ctx_value_ok _ _ _ Hc)). by rewrite decide_True.
  - intros this_ptr argc argv fn_data w0 fnId Hid Hnone.
    unfold QuickJSVm_cToHostCallbackFunction.
    rewrite (bind_ok _ _ _ _ _ (ctx_value_ok _ _ _ Hc)).
    rewrite decide_False by (by intros ?).
    unfold callback_id in Hid. rewrite (bind_ok _ _ _ _ _ Hid).
    rewrite ffi_eq in Hid. injection Hid as <- <-.
    erewrite bind_ok; [|by apply get_vm_ok]. rewrite Hnone.
    split; [done|]. apply only_engine_call.
Qed.

Lemma arg_handles_fields this (argv : ptr) (n : nat) : ∀ k w,
  ∃ w' ps,
    map_m (arg_handle this argv) (seq k n) w = (w', Ok (seq (length (heap w)) n)) ∧
    heap w' = heap w ++ map (λ p, mkLifetime p None (Some this) true) ps ∧
    length ps = n ∧ vms w' = vms w ∧ vmMap w' = vmMap w ∧
    disposals (trace w') = disposals (trace w).
Proof.
  induction n as [|n IH]; intros k w.
  - exists w, []. cbn. by rewrite app_nil_r.
  - cbn [seq map_m].
    erewrite bind_ok; cycle 1.
    { unfold arg_handle. erewrite bind_ok; [|apply ffi_eq]. reflexivity. }
    set (p := (QTS_ArgvGetJSValueConstPointer _ _ _).2).
    match goal with |- context [(map_m _ _ ≫= _) ?W] => set (w1 := W) end.
    destruct (IH (S k) w1) as (w2 & ps & Hrun & Hh & Hlen & Hv & Hm & Ht).
    rewrite (bind_ok _ _ _ _ _ Hrun).
    exists w2, (p :: ps). split.
    { unfold mret, M_ret, ret. cbn [seq].
      replace (length (heap w1)) with (S (length (heap w))); [done|].
      subst w1. cbn [heap set_heap set_trace set_engine]. rewrite length_app. cbn. lia. }
    rewrite Hh, Hv, Hm, Ht. subst w1.
    cbn [heap vms vmMap trace set_heap set_trace set_engine].
    rewrite disposals_snoc, <- app_assoc. cbn. rewrite app_nil_r.
    repeat split; try done. by rewrite Hlen.
Qed.

Lemma filter_alive_all w (ls : list loc) :
  Forall (λ l, alive_in w l = true) ls → filter (λ l, alive_in w l) ls = ls.
Proof.
  induction 1 as [|l ls Hl _ IH]; [done|].
  rewrite filter_cons, IH. by rewrite Hl.
Qed.

Lemma release_calls_none w (ls : list loc) :
  Forall (λ l, ∃ x, heap w !! l = Some x ∧ disposer x = None) ls →
  release_calls w ls = [].
Proof.
  induction 1 as [|l ls (x & Hl & Hd) _ IH]; [done|].
  unfold release_calls in *. cbn [mbind list_bind]. rewrite IH, Hl, Hd.
  by destruct (_alive x).
Qed.

(** X14: QuickJSVm.cToHostCallbackFunction, host returning nothing: the host
    function is entered with one [this] handle and exactly [argc] argument
    handles, all new, owned by the VM and without disposer.  When it returns
    no value the dispatch answers the null address, asks the engine nothing
    more, and disposes the [this] handle and then every argument handle, in
    order. *)
Theorem dispatch_of_void_host_function w this c (s : QuickJSVm) (fn : fnImpl)
    (this_ptr : ptr) (argc : nat) (argv fn_data : ptr) w0 fnId w1 th args w2
    (Hc : vm_ctx w this c) (Hvm : vms w !! this = Some s)
    (Hid : callback_id c fn_data w = (w0, Ok fnId))
    (Hfn : fnMap s !! fnId = Some fn)
    (Hentry : call_handles this this_ptr argc argv w0 = (w1, Ok (th, args)))
    (Hhost : host_apply fn th args w1 = (w2, Ok RetVoid))
    (Hkeep : heap w1 `prefix_of` heap w2) :
  th = length (heap w) ∧ args = seq (S (length (heap w))) argc ∧
  Forall (λ l, ∃ x, live w1 l x ∧ _owner x = Some this ∧ disposer x = None) (th :: args) ∧
  ∃ w',
    QuickJSVm_cToHostCallbackFunction host_apply this c this_ptr argc argv fn_data w
      = (w', Ok 0) ∧
    disposals (trace w') = disposals (trace w2) ++ th :: args ∧
    calls (trace w') = calls (trace w2).
Proof.
  unfold callback_id in Hid. rewrite ffi_eq in Hid. injection Hid as <- <-.
  set (fnId := (QTS_GetFloat64 c fn_data (engine_st w)).2) in *.
  set (w0 := set_trace _ _) in *.
  unfold call_handles in Hentry.
  erewrite bind_ok in Hentry; [|reflexivity].
  set (xt := mkLifetime this_ptr None (Some this) true) in *.
  match type of Hentry with context [(map_m _ _ ≫= _) ?W] => set (wt := W) in * end.
  destruct (arg_handles_fields this argv argc 0%nat wt)
    as (wa & ps & Hrun & Hha & Hlen & Hva & _ & Hta).
  rewrite (bind_ok _ _ _ _ _ Hrun) in Hentry.
  assert (Hlt : length (heap wt) = S (length (heap w))).
  { subst wt. cbn [heap set_heap]. rewrite length_app. cbn. lia. }
  rewrite Hlt in Hrun, Hentry.
  injection Hentry as <- <- <-.
  assert (Hheap1 : heap wa = (heap w ++ [xt])
                              ++ map (λ p, mkLifetime p None (Some this) true) ps)
    by exact Hha.
  assert (Hhandles : Forall (λ l, ∃ x, live wa l x ∧ _owner x = Some this ∧ disposer x = None)
                            (length (heap w) :: seq (S (length (heap w))) argc)).
  { constructor.
    - exists xt. split; [|done]. split; [|done].
      rewrite Hheap1. apply lookup_app_l_Some, lookup_pushed.
    - apply Forall_forall. intros l Hl. apply elem_of_seq in Hl as [Hlo Hhi].
      destruct (lookup_lt_is_Some_2 ps (l - S (length (heap w)))) as [p Hp]; [lia|].
      exists (mkLifetime p None (Some this) true). split; [|done]. split; [|done].
      rewrite Hheap1, lookup_app_r by (rewrite length_app; cbn; lia).
      rewrite length_app. cbn [length]. rewrite Nat.add_1_r, list_lookup_fmap, Hp. done. }
  split; [done|]. split; [done|]. split; [exact Hhandles|].
  unfold QuickJSVm_cToHostCallbackFunction.
  rewrite (bind_ok _ _ _ _ _ (ctx_value_ok _ _ _ Hc)).
  rewrite decide_False by (by intros ?).
  erewrite bind_ok; [|apply ffi_eq]. fold fnId. fold w0.
  erewrite bind_ok; [|by apply get_vm_ok]. rewrite Hfn.
  erewrite bind_ok; [|reflexivity]. fold xt.
  erewrite bind_ok; [|exact Hrun].
  erewrite bind_ok; cycle 1.
  { unfold try_catch, host_call. rewrite (bind_ok _ _ _ _ _ Hhost). reflexivity. }
  change (heap w0) with (heap w).
  assert (Hin2 : Forall (λ l, ∃ x, heap w2 !! l = Some x ∧ _alive x = true ∧ disposer x = None)
                        (length (heap w) :: seq (S (length (heap w))) argc)).
  { eapply Forall_impl; [exact Hhandles|]. cbn. intros l (x & [Hl Ha] & _ & Hd).
    exists x. split; [by eapply prefix_lookup_Some|done]. }
  destruct (dispose_table_fields (length (heap w) :: seq (S (length (heap w))) argc) w2)
    as (w3 & Hloop & _ & _ & _ & _ & _ & _ & Ht3 & Hc3).
  { eapply Forall_impl; [exact Hin2|]. cbn. intros l (x & Hl & _ & Hd).
    exists x. rewrite Hd. by repeat split. }
  cbn [for_each] in Hloop.
  assert (Hseq : ∀ A (m1 m2 : M unit) (k : M A) w w',
            (m1 ≫= λ _, m2) w = (w', Ok tt) → (m1 ≫= λ _, m2 ≫= λ _, k) w = k w').
  { intros A m1 m2 k wi wo. unfold mbind, M_bind, bind.
    destruct (m1 wi) as [wj [[]|e]]; [|done]. by intros ->. }
  exists w3. split; [exact (Hseq _ _ _ (mret 0) _ _ Hloop)|].
  rewrite Ht3, Hc3. split.
  - f_equal. apply filter_alive_all.
    eapply Forall_impl; [exact Hin2|]. cbn. intros l (x & Hl & Ha & _).
    unfold alive_in. by rewrite Hl.
  - rewrite release_calls_none; [by rewrite app_nil_r|].
    eapply Forall_impl; [exact Hin2|]. cbn. intros l (x & Hl & _ & Hd). by exists x.
Qed.

(** The dispatch up to the point where the host function is entered. *)
Lemma dispatch_entry w this c (s : QuickJSVm) (fn : fnImpl)
    (this_ptr : ptr) (argc : nat) (argv fn_data : ptr) w0 fnId w1 th args :
  vm_ctx w this c → vms w !! this = Some s →
  callback_id c fn_data w = (w0, Ok fnId) →
  fnMap s !! fnId = Some fn →
  call_handles this this_ptr argc argv w0 = (w1, Ok (th, args)) →
  Forall (λ l, ∃ x, live w1 l x ∧ disposer x = None) (th :: args) ∧
  vms w1 = vms w ∧ (∃ ext, heap w1 = heap w ++ ext) ∧
  QuickJSVm_cToHostCallbackFunction host_apply this c this_ptr argc argv fn_data w
    = (try_catch (host_call host_apply this fn th args) (host_throw this)
       ≫= λ p, dispose_if_alive th ≫= λ _, for_each args dispose_if_alive ≫= λ _, mret p) w1.
Proof.
  intros Hc Hvm Hid Hfn Hentry.
  unfold callback_id in Hid. rewrite ffi_eq in Hid. injection Hid as <- <-.
  set (fnId := (QTS_GetFloat64 c fn_data (engine_st w)).2) in *.
  set (w0 := set_trace _ _) in *.
  unfold call_handles in Hentry.
  erewrite bind_ok in Hentry; [|reflexivity].
  set (xt := mkLifetime this_ptr None (Some this) true) in *.
  match type of Hentry with context [(map_m _ _ ≫= _) ?W] => set (wt := W) in * end.
  destruct (arg_handles_fields this argv argc 0%nat wt)
    as (wa & ps & Hrun & Hha & Hlen & Hva & _ & Hta).
  rewrite (bind_ok _ _ _ _ _ Hrun) in Hentry.
  assert (Hlt : length (heap wt) = S (length (heap w))).
  { subst wt. cbn [heap set_heap]. rewrite length_app. cbn. lia. }
  rewrite Hlt in Hrun, Hentry.
  injection Hentry as <- <- <-.
  assert (Hheap1 : heap wa = (heap w ++ [xt])
                              ++ map (λ p, mkLifetime p None (Some this) true) ps)
    by exact Hha.
  split; [|split; [exact Hva|split]].
  - constructor.
    + exists xt. split; [|done]. split; [|done].
      rewrite Hheap1. apply lookup_app_l_Some, lookup_pushed.
    + apply Forall_forall. intros l Hl. apply elem_of_seq in Hl as [Hlo Hhi].
      destruct (lookup_lt_is_Some_2 ps (l - S (length (heap w)))) as [p Hp]; [lia|].
      exists (mkLifetime p None (Some this) true). split; [|done]. split; [|done].
      rewrite Hheap1, lookup_app_r by (rewrite length_app; cbn; lia).
      rewrite length_app. cbn [length]. rewrite Nat.add_1_r, list_lookup_fmap, Hp. done.
  - eexists. rewrite Hheap1, <- app_assoc. done.
  - unfold QuickJSVm_cToHostCallbackFunction.
    rewrite (bind_ok _ _ _ _ _ (ctx_value_ok _ _ _ Hc)).
    rewrite decide_False by (by intros ?).
    erewrite bind_ok; [|apply ffi_eq]. fold fnId. fold w0.
    erewrite bind_ok; [|by apply get_vm_ok]. rewrite Hfn.
    erewrite bind_ok; [|reflexivity]. fold xt.
    erewrite bind_ok; [|exact Hrun]. done.
Qed.

(** The cleanup at the end of the dispatch. *)
Lemma dispatch_cleanup w1 w2 (th : loc) (args : list loc) (p : ptr) :
  Forall (λ l, ∃ x, live w1 l x ∧ disposer x = None) (th :: args) →
  heap w1 `prefix_of` heap w2 →
  ∃ w3, (dispose_if_alive th ≫= λ _, for_each args dispose_if_alive ≫= λ _, mret p) w2
          = (w3, Ok p) ∧
        disposals (trace w3) = disposals (trace w2) ++ th :: args ∧
        calls (trace w3) = calls (trace w2).
Proof.
  intros Hhandles Hkeep.
  assert (Hin2 : Forall (λ l, ∃ x, heap w2 !! l = Some x ∧ _alive x = true ∧ disposer x = None)
                        (th :: args)).
  { eapply Forall_impl; [exact Hhandles|]. cbn. intros l (x & [Hl Ha] & Hd).
    exists x. split; [by eapply prefix_lookup_Some|done]. }
  destruct (dispose_table_fields (th :: args) w2)
    as (w3 & Hloop & _ & _ & _ & _ & _ & _ & Ht3 & Hc3).
  { eapply Forall_impl; [exact Hin2|]. cbn. intros l (x & Hl & _ & Hd).
    exists x. rewrite Hd. by repeat split. }
  cbn [for_each] in Hloop.
  exists w3. split.
  { revert Hloop. unfold mbind, M_bind, bind.
    destruct (dispose_if_alive th w2) as [wj [[]|e]]; [|done]. by intros ->. }
  rewrite Ht3, Hc3. split.
  - f_equal. apply filter_alive_all.
    eapply Forall_impl; [exact Hin2|]. cbn. intros l (x & Hl & Ha & _).
    unfold alive_in. by rewrite Hl.
  - rewrite release_calls_none; [by rewrite app_nil_r|].
    eapply Forall_impl; [exact Hin2|]. cbn. intros l (x & Hl & _ & Hd). by exists x.
Qed.

(** X15: QuickJSVm.cToHostCallbackFunction, host answering with a handle: a
    handle returned by the host function (bare or as [{value}]) is
    duplicated for the engine and then disposed, and the duplicate is the
    answer; a handle returned as [{error}] or thrown is handed to QTS_Throw
    and then disposed, and the engine's exception marker is the answer.  In
    both cases the [this] and argument handles are disposed afterwards. *)
Theorem dispatch_of_host_handle w this c (s : QuickJSVm) (fn : fnImpl)
    (this_ptr : ptr) (argc : nat) (argv fn_data : ptr) w0 fnId w1 th args w2 hd xd
    (Hc : vm_ctx w this c) (Hvm : vms w !! this = Some s)
    (Hid : callback_id c fn_data w = (w0, Ok fnId))
    (Hfn : fnMap s !! fnId = Some fn)
    (Hentry : call_handles this this_ptr argc argv w0 = (w1, Ok (th, args)))
    (Hkeep : heap w1 `prefix_of` heap w2)
    (Hc2 : vm_ctx w2 this c)
    (Hd : live w2 hd xd) (Hrun : can_run w2 (disposer xd)) :
  ((host_apply fn th args w1 = (w2, Ok (RetHandle hd)) ∨
    host_apply fn th args w1 = (w2, Ok (RetResult (ResValue hd)))) →
   ∃ w',
     QuickJSVm_cToHostCallbackFunction host_apply this c this_ptr argc argv fn_data w
       = (w', Ok (QTS_DupValue c (_value xd) (engine_st w2)).2) ∧
     disposals (trace w') = disposals (trace w2) ++ hd :: th :: args ∧
     calls (trace w') =
       calls (trace w2) ++ ("QTS_DupValue"%string, [c; _value xd])
         :: from_option (λ d, [release_call w2 d (_value xd)]) [] (disposer xd)) ∧
  ((host_apply fn th args w1 = (w2, Ok (RetResult (ResError hd))) ∨
    host_apply fn th args w1 = (w2, Throw (ExnHandle hd))) →
   ∃ w',
     QuickJSVm_cToHostCallbackFunction host_apply this c this_ptr argc argv fn_data w
       = (w', Ok (QTS_Throw c (_value xd) (engine_st w2)).2) ∧
     disposals (trace w') = disposals (trace w2) ++ hd :: th :: args ∧
     calls (trace w') =
       calls (trace w2) ++ ("QTS_Throw"%string, [c; _value xd])
         :: from_option (λ d, [release_call w2 d (_value xd)]) [] (disposer xd)).
Proof.
  destruct (dispatch_entry w this c s fn this_ptr argc argv fn_data w0 fnId w1 th args
              Hc Hvm Hid Hfn Hentry) as (Hhandles & _ & _ & Hdispatch).
  rewrite Hdispatch. clear Hdispatch.
  (* what both tails do once the engine call [f] is chosen *)
  assert (Htail : ∀ (fn_call : string) (f : ptr → ptr → engine → engine * ptr),
    ∃ w3,
      (c0 ← ctx_value this; hv ← Lifetime_value hd;
       p ← ffi fn_call [c0; hv] (f c0 hv); Lifetime_dispose hd;; mret p) w2
        = (w3, Ok (f c (_value xd) (engine_st w2)).2) ∧
      heap w3 = heap w2 ∧
      disposals (trace w3) = disposals (trace w2) ++ [hd] ∧
      calls (trace w3) =
        calls (trace w2) ++ (fn_call, [c; _value xd])
          :: from_option (λ d, [release_call w2 d (_value xd)]) [] (disposer xd)).
  { intros fn_call f.
    rewrite (bind_ok _ _ _ _ _ (ctx_value_ok _ _ _ Hc2)).
    erewrite bind_ok; [|by apply (Lifetime_value_ok _ _ _ (proj1 Hd) (proj2 Hd))].
    erewrite bind_ok; [|apply ffi_eq].
    set (w2' := set_trace _ _).
    destruct (Lifetime_dispose_fields w2' hd xd)
      as (w3 & Hdisp & Hh3 & _ & _ & _ & _ & _ & Ht3 & Hc3).
    { exact Hd. }
    { by eapply can_run_stable; [| |exact Hrun]. }
    rewrite (bind_ok _ _ _ _ _ Hdisp). exists w3. split; [done|].
    split; [by rewrite Hh3|]. rewrite Ht3, Hc3. subst w2'.
    cbn [trace set_trace set_engine]. rewrite disposals_snoc, calls_snoc. cbn.
    rewrite app_nil_r, <- app_assoc. by split. }
  assert (Hfinish : ∀ w3 (p : ptr),
    heap w3 = heap w2 →
    ∃ w', (dispose_if_alive th ≫= λ _, for_each args dispose_if_alive ≫= λ _, mret p) w3
            = (w', Ok p) ∧
          disposals (trace w') = disposals (trace w3) ++ th :: args ∧
          calls (trace w') = calls (trace w3)).
  { intros w3 p Hh3. apply (dispatch_cleanup w1). { exact Hhandles. } by rewrite Hh3. }
  split.
  - intros Hhost.
    destruct (Htail "QTS_DupValue"%string QTS_DupValue) as (w3 & Hrun3 & Hh3 & Ht3 & Hc3).
    destruct (Hfinish w3 (QTS_DupValue c (_value xd) (engine_st w2)).2 Hh3)
      as (w' & Hfin & Ht' & Hc').
    exists w'. split.
    + erewrite bind_ok; [exact Hfin|].
      unfold try_catch, host_call.
      destruct Hhost as [Hhost|Hhost]; rewrite (bind_ok _ _ _ _ _ Hhost);
        unfold QTS_DupValue in Hrun3 |- *; by rewrite Hrun3.
    + rewrite Ht', Hc', Ht3, Hc3, <- app_assoc. done.
  - intros Hhost.
    destruct (Htail "QTS_Throw"%string QTS_Throw) as (w3 & Hrun3 & Hh3 & Ht3 & Hc3).
    destruct (Hfinish w3 (QTS_Throw c (_value xd) (engine_st w2)).2 Hh3)
      as (w' & Hfin & Ht' & Hc').
    exists w'. split.
    + erewrite bind_ok; [exact Hfin|].
      unfold try_catch, host_call.
      destruct Hhost as [Hhost|Hhost].
      * rewrite (bind_ok _ _ _ _ _ Hhost). unfold throw, host_throw, errorToHandle.
        erewrite bind_ok; [|reflexivity]. exact Hrun3.
      * rewrite (bind_throw _ _ _ _ _ Hhost). unfold host_throw, errorToHandle.
        erewrite bind_ok; [|reflexivity]. exact Hrun3.
    + rewrite Ht', Hc', Ht3, Hc3, <- app_assoc. done.
Qed.

(** ** Turning a host error into an engine error *)

(** The engine after the disposal of a value handle of the VM. *)
Lemma Lifetime_dispose_value_engine w this c l x w' :
  vm_ctx w this c → live w l x → disposer x = Some (freeJSValue this) →
  Lifetime_dispose l w = (w', Ok tt) →
  engine_st w' = (QTS_FreeValuePointer c (_value x) (engine_st w)).1.
Proof.
  intros Hctx Hl Hd Hrun.
  destruct (Lifetime_dispose_trace w l x) as (w1 & Hrun1 & _ & _ & _ & He); [done| |].
  { rewrite Hd. destruct Hctx as (s & xc & ? & ? & ?). by exists s, xc. }
  rewrite Hrun in Hrun1. injection Hrun1 as <-.
  rewrite He. unfold dispose_engine. rewrite (proj1 Hl), Hd. cbn [from_option release_engine].
  by rewrite (vm_ctx_ctx_of _ _ _ Hctx).
Qed.

Lemma setProp_string_fields w this c handle xh (k : string) value xv :
  vm_ctx w this c → live w handle xh → live w value xv →
  ∃ w1 kp,
    setProp this handle (KeyString k) value w = (w1, Ok tt) ∧
    heap w1 = heap w ++ [mkLifetime kp (Some (freeJSValue this)) (Some this) true] ∧
    vms w1 = vms w ∧
    disposals (trace w1) = disposals (trace w) ++ [length (heap w)] ∧
    calls (trace w1) =
      calls (trace w) ++ [("QTS_NewString"%string, [c]);
                          ("QTS_SetProp"%string, [c; _value xh; kp; _value xv]);
                          ("QTS_FreeValuePointer"%string, [c; kp])] ∧
    kp = (QTS_NewString c k (engine_st w)).2 ∧
    engine_st w1 =
      (QTS_FreeValuePointer c kp
         (QTS_SetProp c (_value xh) kp (_value xv) (QTS_NewString c k (engine_st w)).1).1).1.
Proof.
  intros Hctx Hh Hv. unfold setProp, key_handle, key_release.
  rewrite (bind_ok _ _ _ _ _ (newString_eq _ _ _ k Hctx)).
  set (kp := (QTS_NewString _ _ _).2).
  set (xk := mkLifetime kp _ _ _).
  match goal with |- context [(ctx_value _ ≫= _) ?W] => set (w1 := W) end.
  assert (Hext : ∃ ext, heap w1 = heap w ++ ext) by by eexists.
  assert (Hctx1 : vm_ctx w1 this c) by exact (vm_ctx_ext w w1 this c eq_refl Hext Hctx).
  assert (Hk1 : live w1 (length (heap w)) xk) by (split; [apply lookup_pushed|done]).
  pose proof (live_ext _ _ _ _ Hext Hh) as Hh1.
  pose proof (live_ext _ _ _ _ Hext Hv) as Hv1.
  rewrite (bind_ok _ _ _ _ _ (ctx_value_ok _ _ _ Hctx1)).
  erewrite bind_ok; [|by apply (Lifetime_value_ok _ _ _ (proj1 Hh1) (proj2 Hh1))].
  erewrite bind_ok; [|by apply (Lifetime_value_ok _ _ _ (proj1 Hk1) (proj2 Hk1))].
  erewrite bind_ok; [|by apply (Lifetime_value_ok _ _ _ (proj1 Hv1) (proj2 Hv1))].
  erewrite bind_ok; [|apply ffi_unit_eq].
  match goal with |- context [Lifetime_dispose _ ?W] => set (w2 := W) end.
  assert (Hext2 : ∃ ext, heap w2 = heap w1 ++ ext) by (exists []; by rewrite app_nil_r).
  pose proof (vm_ctx_ext w1 w2 this c eq_refl Hext2 Hctx1) as Hctx2.
  assert (Ht2 : disposals (trace w2) = disposals (trace w)).
  { subst w2 w1. cbn [trace set_heap set_trace set_engine].
    rewrite !disposals_snoc. cbn. by rewrite !app_nil_r. }
  assert (Hc2 : calls (trace w2)
                = calls (trace w) ++ [("QTS_NewString"%string, [c]);
                                      ("QTS_SetProp"%string, [c; _value xh; kp; _value xv])]).
  { subst w2 w1. cbn [trace set_heap set_trace set_engine].
    rewrite !calls_snoc, <- app_assoc. done. }
  destruct (Lifetime_dispose_fields w2 (length (heap w)) xk)
    as (w3 & Hd & Hh3 & Hv3 & _ & _ & _ & _ & Ht3 & Hc3).
  { exact (live_ext w1 w2 _ _ Hext2 Hk1). }
  { destruct Hctx2 as (s2 & x2 & ? & ? & ?). by exists s2, x2. }
  exists w3, kp. split; [exact Hd|].
  split; [by rewrite Hh3|]. split; [by rewrite Hv3|].
  rewrite Ht3, Hc3, Ht2, Hc2. split; [done|].
  cbn [disposer xk from_option release_call _value].
  split; [by rewrite (vm_ctx_ctx_of _ _ _ Hctx2), <- app_assoc|].
  split; [done|].
  by rewrite (Lifetime_dispose_value_engine w2 this c _ xk w3 Hctx2
                (live_ext w1 w2 _ _ Hext2 Hk1) eq_refl Hd).
Qed.

Lemma error_attribute_fields w this c eh xe (field x : string) :
  vm_ctx w this c → live w eh xe →
  ∃ w1 p kp,
    error_attribute this eh field x w = (w1, Ok tt) ∧
    (∃ ext, heap w1 = heap w ++ ext) ∧ vms w1 = vms w ∧
    disposals (trace w1) = disposals (trace w) ++ [S (length (heap w)); length (heap w)] ∧
    calls (trace w1) =
      calls (trace w) ++ [("QTS_NewString"%string, [c]); ("QTS_NewString"%string, [c]);
                          ("QTS_SetProp"%string, [c; _value xe; kp; p]);
                          ("QTS_FreeValuePointer"%string, [c; kp]);
                          ("QTS_FreeValuePointer"%string, [c; p])] ∧
    engine_st w1 = attribute_engine c (_value xe) field x (engine_st w).
Proof.
  intros Hctx He. unfold error_attribute.
  rewrite (bind_ok _ _ _ _ _ (newString_eq _ _ _ x Hctx)).
  set (p := (QTS_NewString _ _ _).2).
  set (xp := mkLifetime p _ _ _).
  match goal with |- context [(setProp _ _ _ _ ≫= _) ?W] => set (w1 := W) end.
  assert (Hext : ∃ ext, heap w1 = heap w ++ ext) by by eexists.
  assert (Hctx1 : vm_ctx w1 this c) by exact (vm_ctx_ext w w1 this c eq_refl Hext Hctx).
  assert (Hp1 : live w1 (length (heap w)) xp) by (split; [apply lookup_pushed|done]).
  destruct (setProp_string_fields w1 this c eh xe field (length (heap w)) xp)
    as (w2 & kp & Hset & Hh2 & Hv2 & Ht2 & Hc2 & Hkp & He2);
    [done|by eapply live_ext|done|].
  rewrite (bind_ok _ _ _ _ _ Hset).
  assert (Hext2 : ∃ ext, heap w2 = heap w1 ++ ext) by by eexists.
  pose proof (vm_ctx_ext w1 w2 this c Hv2 Hext2 Hctx1) as Hctx2.
  destruct (Lifetime_dispose_fields w2 (length (heap w)) xp)
    as (w3 & Hd & Hh3 & Hv3 & _ & _ & _ & _ & Ht3 & Hc3).
  { exact (live_ext w1 w2 _ _ Hext2 Hp1). }
  { destruct Hctx2 as (s2 & x2 & ? & ? & ?). by exists s2, x2. }
  exists w3, p, kp. split; [exact Hd|].
  split. { eexists. rewrite Hh3, Hh2. subst w1. cbn [heap set_heap].
           by rewrite <- app_assoc. }
  split; [by rewrite Hv3, Hv2|].
  assert (Hlen1 : length (heap w1) = S (length (heap w))).
  { subst w1. cbn [heap set_heap]. rewrite length_app. cbn. lia. }
  assert (He3 : engine_st w3 = attribute_engine c (_value xe) field x (engine_st w)).
  { rewrite (Lifetime_dispose_value_engine w2 this c _ xp w3 Hctx2
               (live_ext w1 w2 _ _ Hext2 Hp1) eq_refl Hd), He2, Hkp.
    by subst w1. }
  rewrite Ht3, Hc3, Ht2, Hc2, Hlen1. split; [|split; [|exact He3]].
  - subst w1. cbn [trace set_heap set_trace set_engine].
    rewrite disposals_snoc. cbn. by rewrite app_nil_r, <- app_assoc.
  - subst w1. cbn [trace set_heap set_trace set_engine disposer xp from_option
                   release_call _value].
    rewrite calls_snoc, (vm_ctx_ctx_of _ _ _ Hctx2), <- !app_assoc. done.
Qed.

Lemma count_calls_app fn (a b : list (string * list ptr)) :
  count_calls fn (a ++ b) = (count_calls fn a + count_calls fn b)%nat.
Proof. unfold count_calls. by rewrite filter_app, length_app. Qed.

(** An optional attribute block: what it adds to the logs. *)
Lemma error_attribute_opt w this c eh xe (field : string) (o : option string) :
  vm_ctx w this c → live w eh xe →
  ∃ w1 delta dl,
    (match o with
     | Some x => error_attribute this eh field x
     | None => mret tt
     end) w = (w1, Ok tt) ∧
    (∃ ext, heap w1 = heap w ++ ext) ∧ vms w1 = vms w ∧
    disposals (trace w1) = disposals (trace w) ++ dl ∧
    calls (trace w1) = calls (trace w) ++ delta ∧
    Forall (λ l, (length (heap w) ≤ l)%nat) dl ∧
    length dl = (if o is Some _ then 2 else 0)%nat ∧
    count_calls "QTS_NewString" delta = length dl ∧
    count_calls "QTS_FreeValuePointer" delta = length dl ∧
    count_calls "QTS_SetProp" delta = (if o is Some _ then 1 else 0)%nat ∧
    count_calls "QTS_Throw" delta = 0%nat ∧
    count_calls "QTS_NewError" delta = 0%nat ∧
    engine_st w1 =
      from_option (λ t, attribute_engine c (_value xe) field t (engine_st w)) (engine_st w) o.
Proof.
  intros Hctx He. destruct o as [x|].
  - destruct (error_attribute_fields w this c eh xe field x Hctx He)
      as (w1 & p & kp & Hrun & Hext & Hv & Ht & Hc & Hen).
    eexists w1, _, _. split; [exact Hrun|]. split; [exact Hext|]. split; [exact Hv|].
    split; [exact Ht|]. split; [exact Hc|].
    split; [repeat constructor; lia|].
    do 6 (split; [by vm_compute|]). exact Hen.
  - exists w, [], []. rewrite !app_nil_r. repeat split; try done.
    exists []. by rewrite app_nil_r.
Qed.

(** The block for [stack]: the string is made and released, nothing is set. *)
Lemma error_stack_opt w this c (o : option string) :
  vm_ctx w this c →
  ∃ w1 delta dl,
    (match o with
     | Some x => handle ← newString this x; Lifetime_dispose handle
     | None => mret tt
     end) w = (w1, Ok tt) ∧
    (∃ ext, heap w1 = heap w ++ ext) ∧ vms w1 = vms w ∧
    disposals (trace w1) = disposals (trace w) ++ dl ∧
    calls (trace w1) = calls (trace w) ++ delta ∧
    Forall (λ l, (length (heap w) ≤ l)%nat) dl ∧
    length dl = (if o is Some _ then 1 else 0)%nat ∧
    count_calls "QTS_NewString" delta = length dl ∧
    count_calls "QTS_FreeValuePointer" delta = length dl ∧
    count_calls "QTS_SetProp" delta = 0%nat ∧
    count_calls "QTS_Throw" delta = 0%nat ∧
    count_calls "QTS_NewError" delta = 0%nat ∧
    engine_st w1 = from_option (λ t, stack_engine c t (engine_st w)) (engine_st w) o.
Proof.
  intros Hctx. destruct o as [x|].
  - rewrite (bind_ok _ _ _ _ _ (newString_eq _ _ _ x Hctx)).
    set (p := (QTS_NewString _ _ _).2).
    set (xp := mkLifetime p _ _ _).
    match goal with |- context [Lifetime_dispose _ ?W] => set (w1 := W) end.
    assert (Hext : ∃ ext, heap w1 = heap w ++ ext) by by eexists.
    assert (Hctx1 : vm_ctx w1 this c) by exact (vm_ctx_ext w w1 this c eq_refl Hext Hctx).
    destruct (Lifetime_dispose_fields w1 (length (heap w)) xp)
      as (w2 & Hd & Hh2 & Hv2 & _ & _ & _ & _ & Ht2 & Hc2).
    { split; [apply lookup_pushed|done]. }
    { destruct Hctx1 as (s1 & x1 & ? & ? & ?). by exists s1, x1. }
    exists w2, [("QTS_NewString"%string, [c]); ("QTS_FreeValuePointer"%string, [c; p])],
           [length (heap w)].
    split; [exact Hd|]. split; [rewrite Hh2; exact Hext|]. split; [by rewrite Hv2|].
    rewrite Ht2, Hc2. subst w1.
    cbn [trace set_heap set_trace set_engine disposer xp from_option release_call _value].
    rewrite disposals_snoc, calls_snoc, (vm_ctx_ctx_of _ _ _ Hctx1). cbn.
    rewrite app_nil_r, <- app_assoc.
    split; [done|]. split; [done|]. split; [by repeat constructor|].
    do 6 (split; [by vm_compute|]).
    by rewrite (Lifetime_dispose_value_engine _ this c _ xp w2 Hctx1
                  (conj (lookup_pushed _ _) eq_refl) eq_refl Hd).
  - exists w, [], []. rewrite !app_nil_r. repeat split; try done.
    exists []. by rewrite app_nil_r.
Qed.

Lemma errorToHandle_fields w this c (e : JSError) :
  vm_ctx w this c →
  ∃ w1 xe delta dl,
    errorToHandle this (ExnError e) w = (w1, Ok (length (heap w))) ∧
    live w1 (length (heap w)) xe ∧
    _owner xe = Some this ∧ disposer xe = Some (freeJSValue this) ∧
    disposals (trace w1) = disposals (trace w) ++ dl ∧
    (length (heap w) ∉ dl) ∧
    calls (trace w1) = calls (trace w) ++ ("QTS_NewError"%string, [c]) :: delta ∧
    count_calls "QTS_NewString" delta = length dl ∧
    count_calls "QTS_FreeValuePointer" delta = length dl ∧
    count_calls "QTS_SetProp" delta
      = ((if name e is Some _ then 1 else 0) + (if message e is Some _ then 1 else 0))%nat ∧
    length dl = ((if name e is Some _ then 2 else 0) + (if message e is Some _ then 2 else 0)
                 + (if stack e is Some _ then 1 else 0))%nat ∧
    count_calls "QTS_Throw" delta = 0%nat ∧
    vms w1 = vms w ∧ (∃ ext, heap w1 = heap w ++ ext) ∧
    count_calls "QTS_NewError" delta = 0%nat ∧
    engine_st w1 = (error_engine c e (engine_st w)).1 ∧
    _value xe = (error_engine c e (engine_st w)).2.
Proof.
  intros Hctx. unfold errorToHandle.
  rewrite (bind_ok _ _ _ _ _ (ctx_value_ok _ _ _ Hctx)).
  erewrite bind_ok; [|apply ffi_eq].
  erewrite bind_ok; [|apply heapValueHandle_eq].
  set (xe := mkLifetime _ (Some (freeJSValue this)) (Some this) true).
  match goal with |- context [(error_field name _ _ ≫= _) ?W] => set (w0 := W) end.
  assert (Hext0 : ∃ ext, heap w0 = heap w ++ ext) by by eexists.
  assert (Hlen0 : length (heap w0) = S (length (heap w))).
  { subst w0. cbn [heap set_heap]. rewrite length_app. cbn. lia. }
  assert (Hctx0 : vm_ctx w0 this c) by exact (vm_ctx_ext w w0 this c eq_refl Hext0 Hctx).
  assert (He0 : live w0 (length (heap w)) xe) by (split; [apply lookup_pushed|done]).
  assert (Ht0 : disposals (trace w0) = disposals (trace w)).
  { subst w0. cbn [trace set_heap set_trace set_engine]. rewrite disposals_snoc. cbn.
    by rewrite app_nil_r. }
  assert (Hc0 : calls (trace w0) = calls (trace w) ++ [("QTS_NewError"%string, [c])]).
  { subst w0. cbn [trace set_heap set_trace set_engine]. by rewrite calls_snoc. }
  change (heap (set_trace (trace w ++ [EvCall "QTS_NewError" [c]])
                  (set_engine (QTS_NewError c (engine_st w)).1 w))) with (heap w).
  erewrite bind_ok; [|reflexivity]. cbn [error_field].
  destruct (error_attribute_opt w0 this c (length (heap w)) xe "name" (name e) Hctx0 He0)
    as (w1 & d1 & l1 & Hr1 & Hx1 & Hv1 & Ht1 & Hc1 & Hb1 & Hn1 & Hs1 & Hf1 & Hp1 & Hq1
        & Hz1 & Hen1).
  erewrite bind_ok; cycle 1.
  { destruct (name e); exact Hr1. }
  pose proof (vm_ctx_ext w0 w1 this c Hv1 Hx1 Hctx0) as Hctx1.
  pose proof (live_ext w0 w1 _ _ Hx1 He0) as He1.
  erewrite bind_ok; [|reflexivity].
  destruct (error_attribute_opt w1 this c (length (heap w)) xe "message" (message e) Hctx1 He1)
    as (w2 & d2 & l2 & Hr2 & Hx2 & Hv2 & Ht2 & Hc2 & Hb2 & Hn2 & Hs2 & Hf2 & Hp2 & Hq2
        & Hz2 & Hen2).
  erewrite bind_ok; cycle 1.
  { destruct (message e); exact Hr2. }
  pose proof (vm_ctx_ext w1 w2 this c Hv2 Hx2 Hctx1) as Hctx2.
  pose proof (live_ext w1 w2 _ _ Hx2 He1) as He2.
  erewrite bind_ok; [|reflexivity].
  destruct (error_stack_opt w2 this c (stack e) Hctx2)
    as (w3 & d3 & l3 & Hr3 & Hx3 & Hv3 & Ht3 & Hc3 & Hb3 & Hn3 & Hs3 & Hf3 & Hp3 & Hq3
        & Hz3 & Hen3).
  erewrite bind_ok; [|exact Hr3].
  pose proof (live_ext w2 w3 _ _ Hx3 He2) as He3.
  assert (Hge1 : (length (heap w0) ≤ length (heap w1))%nat).
  { destruct Hx1 as [ext ->]. rewrite length_app. lia. }
  assert (Hge2 : (length (heap w1) ≤ length (heap w2))%nat).
  { destruct Hx2 as [ext ->]. rewrite length_app. lia. }
  exists w3, xe, (d1 ++ d2 ++ d3), (l1 ++ l2 ++ l3).
  split; [done|]. split; [exact He3|]. split; [done|]. split; [done|].
  split; [by rewrite Ht3, Ht2, Ht1, Ht0, <- !app_assoc|].
  split.
  { rewrite !elem_of_app. intros [Hin|[Hin|Hin]].
    - eapply Forall_forall in Hb1; [|exact Hin]. lia.
    - eapply Forall_forall in Hb2; [|exact Hin]. lia.
    - eapply Forall_forall in Hb3; [|exact Hin]. lia. }
  split; [by rewrite Hc3, Hc2, Hc1, Hc0, <- !app_assoc|].
  rewrite !count_calls_app, !length_app, Hs1, Hs2, Hs3, Hf1, Hf2, Hf3, Hp1, Hp2, Hp3.
  rewrite Hq1, Hq2, Hq3, Hz1, Hz2, Hz3, Hn1, Hn2, Hn3, Hv3, Hv2, Hv1.
  repeat (split; [lia|]). split; [done|].
  split.
  { destruct Hx3 as [x3 ->], Hx2 as [x2 ->], Hx1 as [x1 ->], Hext0 as [x0 ->].
    eexists. by rewrite <- !app_assoc. }
  split; [done|]. split; [|done].
  rewrite Hen3, Hen2, Hen1. unfold error_engine. by subst w0.
Qed.

(** X16: errorToHandle: a handle is passed through untouched.  For an Error
    object exactly one engine error is created, and it stays undisposed.
    What the engine is asked is exactly [error_engine]: the Error's [name]
    is set under the key 'name' and its [message] under the key 'message',
    each when present and only then, and the stack is set under no key.
    Every string handle made on the way, including the one for [stack], is
    disposed, so that the engine sees as many releases as string
    allocations. *)
Theorem errorToHandle_releases_its_strings w this c (Hctx : vm_ctx w this c) :
  (∀ h, errorToHandle this (ExnHandle h) w = (w, Ok h)) ∧
  (∀ e : JSError,
     ∃ w1 xe delta dl,
       errorToHandle this (ExnError e) w = (w1, Ok (length (heap w))) ∧
       live w1 (length (heap w)) xe ∧
       _owner xe = Some this ∧ disposer xe = Some (freeJSValue this) ∧
       disposals (trace w1) = disposals (trace w) ++ dl ∧
       (length (heap w) ∉ dl) ∧
       calls (trace w1) = calls (trace w) ++ ("QTS_NewError"%string, [c]) :: delta ∧
       count_calls "QTS_NewString" delta = length dl ∧
       count_calls "QTS_FreeValuePointer" delta = length dl ∧
       count_calls "QTS_SetProp" delta
         = ((if name e is Some _ then 1 else 0) + (if message e is Some _ then 1 else 0))%nat ∧
       length dl = ((if name e is Some _ then 2 else 0) + (if message e is Some _ then 2 else 0)
                    + (if stack e is Some _ then 1 else 0))%nat ∧
       count_calls "QTS_NewError" delta = 0%nat ∧
       engine_st w1 = (error_engine c e (engine_st w)).1 ∧
       _value xe = (error_engine c e (engine_st w)).2).
Proof.
  split; [done|]. intros e.
  destruct (errorToHandle_fields w this c e Hctx)
    as (w1 & xe & delta & dl & H1 & H2 & H3 & H4 & H5 & H6 & H7 & H8 & H9 & H10 & H11
        & _ & _ & _ & H12 & H13 & H14).
  by exists w1, xe, delta, dl.
Qed.

(** X17: QuickJSVm.cToHostCallbackFunction, host throwing an Error: the
    exception does not leave the dispatch.  It is turned into a new engine
    error, handed to QTS_Throw exactly once, and that error handle is then
    disposed, followed by the [this] and argument handles; the dispatch
    returns normally. *)
Theorem dispatch_of_host_exception w this c (s : QuickJSVm) (fn : fnImpl)
    (this_ptr : ptr) (argc : nat) (argv fn_data : ptr) w0 fnId w1 th args w2 (e : JSError)
    (Hc : vm_ctx w this c) (Hvm : vms w !! this = Some s)
    (Hid : callback_id c fn_data w = (w0, Ok fnId))
    (Hfn : fnMap s !! fnId = Some fn)
    (Hentry : call_handles this this_ptr argc argv w0 = (w1, Ok (th, args)))
    (Hhost : host_apply fn th args w1 = (w2, Throw (ExnError e)))
    (Hkeep : heap w1 `prefix_of` heap w2)
    (Hc2 : vm_ctx w2 this c) :
  ∃ w' p ep dl delta,
    QuickJSVm_cToHostCallbackFunction host_apply this c this_ptr argc argv fn_data w
      = (w', Ok p) ∧
    disposals (trace w') = disposals (trace w2) ++ dl ++ length (heap w2) :: th :: args ∧
    calls (trace w') =
      calls (trace w2) ++ ("QTS_NewError"%string, [c]) :: delta
        ++ [("QTS_Throw"%string, [c; ep]); ("QTS_FreeValuePointer"%string, [c; ep])] ∧
    count_calls "QTS_Throw" delta = 0%nat ∧
    count_calls "QTS_NewString" delta = length dl ∧
    count_calls "QTS_FreeValuePointer" delta = length dl.
Proof.
  destruct (dispatch_entry w this c s fn this_ptr argc argv fn_data w0 fnId w1 th args
              Hc Hvm Hid Hfn Hentry) as (Hhandles & _ & _ & Hdispatch).
  rewrite Hdispatch. clear Hdispatch.
  destruct (errorToHandle_fields w2 this c e Hc2)
    as (w3 & xe & d3 & dl & Hconv & He3 & _ & Hd3 & Ht3 & _ & Hc3
        & Hns & Hnf & _ & _ & Hnt & Hv3 & Hx3 & _).
  pose proof (vm_ctx_ext w2 w3 this c Hv3 Hx3 Hc2) as Hctx3.
  set (ep := _value xe).
  set (w4 := set_trace (trace w3 ++ [EvCall "QTS_Throw" [c; ep]])
               (set_engine (QTS_Throw c ep (engine_st w3)).1 w3)).
  destruct (Lifetime_dispose_fields w4 (length (heap w2)) xe)
    as (w5 & Hdisp & Hh5 & _ & _ & _ & _ & _ & Ht5 & Hc5).
  { exact He3. }
  { rewrite Hd3. destruct Hctx3 as (s3 & x3 & ? & ? & ?). by exists s3, x3. }
  assert (Hthrow : host_throw this (ExnError e) w2 = (w5, Ok (QTS_Throw c ep (engine_st w3)).2)).
  { unfold host_throw. rewrite (bind_ok _ _ _ _ _ Hconv).
    rewrite (bind_ok _ _ _ _ _ (ctx_value_ok _ _ _ Hctx3)).
    erewrite bind_ok; [|by apply (Lifetime_value_ok _ _ _ (proj1 He3) (proj2 He3))].
    erewrite bind_ok; [|apply ffi_eq]. fold ep. fold w4.
    by rewrite (bind_ok _ _ _ _ _ Hdisp). }
  destruct (dispatch_cleanup w1 w5 th args (QTS_Throw c ep (engine_st w3)).2 Hhandles)
    as (w' & Hfin & Ht' & Hc').
  { rewrite Hh5. cbn [heap w4 set_trace set_engine]. destruct Hx3 as [ext ->].
    by apply prefix_app_r. }
  assert (Hcx : ctx_of w4 this = c) by exact (vm_ctx_ctx_of w3 this c Hctx3).
  exists w', (QTS_Throw c ep (engine_st w3)).2, ep, dl, d3.
  split.
  { erewrite bind_ok; [exact Hfin|].
    unfold try_catch, host_call. by rewrite (bind_throw _ _ _ _ _ Hhost). }
  split.
  { rewrite Ht', Ht5. subst w4. cbn [trace set_trace set_engine].
    rewrite disposals_snoc, Ht3. cbn. by rewrite app_nil_r, <- !app_assoc. }
  split; [|done].
  rewrite Hc', Hc5, Hd3. cbn [from_option release_call]. rewrite Hcx.
  subst w4. cbn [trace set_trace set_engine].
  rewrite calls_snoc, Hc3. cbn.
  rewrite <- !app_assoc. cbn. by rewrite <- ?app_assoc.
Qed.

(** ** Defining a property *)

Lemma vm_grows_refl this (s : QuickJSVm) w :
  vms w !! this = Some s →
  (∀ u, _undefined s = Some u → ∃ xu, live w u xu) →
  vm_grows this s w s w [].
Proof.
  intros Hs Hu. split; [done|]. split; [done|].
  split; [exists []; by rewrite app_nil_r|].
  split; [done|]. split; [done|]. split; [by rewrite app_nil_r|].
  split; [cbn; lia|]. split; [done|]. constructor.
Qed.

Lemma vm_grows_trans this (s s1 s2 : QuickJSVm) w w1 w2 cs cs' :
  vm_grows this s w s1 w1 cs → vm_grows this s1 w1 s2 w2 cs' →
  vm_grows this s w s2 w2 (cs ++ cs').
Proof.
  intros (_ & Hc1 & [e1 He1] & _ & Hd1 & Hk1 & Hn1 & Hg1 & Hf1)
         (Hs2 & Hc2 & [e2 He2] & Hu2 & Hd2 & Hk2 & Hn2 & Hg2 & Hf2).
  split; [done|]. split; [congruence|].
  split; [exists (e1 ++ e2); by rewrite He2, He1, app_assoc|].
  split; [done|]. split; [congruence|].
  split; [by rewrite Hk2, Hk1, app_assoc|].
  rewrite !count_calls_app. split; [lia|]. split; [lia|].
  by apply Forall_app.
Qed.

Lemma count_calls_other fn (names : list string) (cs : list (string * list ptr)) :
  Forall (λ c, c.1 ∈ names) cs → fn ∉ names → count_calls fn cs = 0%nat.
Proof.
  intros Hall Hfn. unfold count_calls.
  induction Hall as [|c cs Hc _ IH]; [done|].
  rewrite filter_cons. destruct (decide (c.1 = fn)) as [<-|]; done.
Qed.

Lemma undefined_grows w this (s : QuickJSVm) :
  vms w !! this = Some s →
  (∀ u, _undefined s = Some u → ∃ xu, live w u xu) →
  ∃ w1 s1 u xu cs,
    QuickJSVm_undefined this w = (w1, Ok u) ∧ live w1 u xu ∧
    vm_grows this s w s1 w1 cs ∧ count_calls "QTS_NewFunction" cs = 0%nat.
Proof.
  intros Hvm Hu. unfold QuickJSVm_undefined.
  rewrite (bind_ok _ _ _ _ _ (get_vm_ok _ _ _ Hvm)).
  destruct (_undefined s) as [u|] eqn:Hund.
  - destruct (Hu u eq_refl) as [xu Hxu].
    exists w, s, u, xu, []. split; [done|]. split; [done|].
    split; [|done]. apply vm_grows_refl; [done|]. by rewrite Hund.
  - erewrite bind_ok; [|apply ffi_eq].
    erewrite bind_ok; [|reflexivity].
    erewrite bind_ok; [|reflexivity].
    set (w1 := set_vms _ _).
    assert (Hs1 : vms w1 !! this = Some (vm_set_undefined (length (heap w)) s)).
    { subst w1. cbn [vms set_vms set_heap set_trace set_engine].
      by rewrite list_lookup_alter_eq, Hvm. }
    assert (Hl : live w1 (length (heap w))
                   (mkLifetime (QTS_GetUndefined (engine_st w)).2 None None true)).
    { subst w1. cbn [heap set_vms set_heap set_trace set_engine].
      split; [apply lookup_pushed|reflexivity]. }
    eexists w1, _, _, _, [("QTS_GetUndefined"%string, [])].
    split; [reflexivity|]. split; [exact Hl|]. split; [|done].
    split; [exact Hs1|]. split; [reflexivity|].
    split; [subst w1; cbn [heap set_vms set_heap set_trace set_engine]; by eexists|].
    split; [intros u [= <-]; by eexists|].
    subst w1. cbn [trace set_vms set_heap set_trace set_engine].
    rewrite calls_snoc, disposals_snoc.
    cbn [from_option is_call is_dispose fnNextId vm_set_undefined]. rewrite app_nil_r.
    split; [done|]. split; [done|].
    split; [change (count_calls _ _) with 0%nat; lia|].
    split; [unfold has_undefined; by rewrite Hund|].
    repeat constructor; cbn; set_solver.
Qed.

Lemma newFunction_grows w this (s : QuickJSVm) xc (nm : string) (fn : fnImpl) :
  vms w !! this = Some s → live w (ctx s) xc →
  (∀ u, _undefined s = Some u → ∃ xu, live w u xu) →
  ∃ w1 s1 f xf cs,
    newFunction this nm fn w = (w1, Ok f) ∧ live w1 f xf ∧
    vm_grows this s w s1 w1 cs ∧ count_calls "QTS_NewFunction" cs = 1%nat.
Proof.
  intros Hvm Hc Hu.
  destruct (newFunction_fields w this s xc nm fn Hvm Hc)
    as (w1 & f & xf & s1 & idp & Hrun & Hf & _ & _ & Hs1 & Hn & _ & _ & Hctx & _ & _
        & Hund & Hext & Hcalls & Hdisp).
  exists w1, s1, f, xf, [("QTS_NewFloat64"%string, [_value xc]);
                         ("QTS_NewFunction"%string, [_value xc; idp]);
                         ("_free"%string, [idp])].
  split; [exact Hrun|]. split; [exact Hf|].
  split; [|reflexivity].
  split; [done|]. split; [done|]. split; [done|].
  split.
  { intros u Hu1. rewrite Hund in Hu1. destruct (Hu u Hu1) as [xu Hxu].
    exists xu. by eapply live_ext. }
  split; [done|]. split; [exact Hcalls|].
  split; [rewrite Hn; change (count_calls _ _) with 1%nat; lia|].
  split; [unfold has_undefined; by rewrite Hund|].
  repeat constructor; cbn; set_solver.
Qed.

Lemma accessor_grows w this (s : QuickJSVm) xc (f : option fnImpl) :
  vms w !! this = Some s → live w (ctx s) xc →
  (∀ u, _undefined s = Some u → ∃ xu, live w u xu) →
  ∃ w1 s1 h xh cs,
    accessor_handle fn_name this f w = (w1, Ok h) ∧ live w1 h xh ∧
    vm_grows this s w s1 w1 cs ∧
    count_calls "QTS_NewFunction" cs = (if f is Some _ then 1 else 0)%nat.
Proof.
  intros Hvm Hc Hu. destruct f as [fn|]; cbn [accessor_handle].
  - by eapply newFunction_grows.
  - by apply undefined_grows.
Qed.

Lemma key_handle_fields w this c (key : PropKey) :
  vm_ctx w this c → (∀ k, key = KeyHandle k → ∃ xk, live w k xk) →
  ∃ w1 kh xk,
    key_handle this key w = (w1, Ok kh) ∧ live w1 kh xk ∧
    vms w1 = vms w ∧ (∃ ext, heap w1 = heap w ++ ext) ∧
    disposals (trace w1) = disposals (trace w) ∧
    calls (trace w1) =
      calls (trace w) ++ (if key is KeyString _ then [("QTS_NewString"%string, [c])] else []) ∧
    (∀ k, key = KeyString k → kh = length (heap w) ∧ disposer xk = Some (freeJSValue this)).
Proof.
  intros Hctx Hkey. destruct key as [k|k]; cbn [key_handle].
  - eexists _, _, _. split; [apply (newString_eq w this c k Hctx)|].
    cbn [heap vms trace set_heap set_trace set_engine].
    split; [split; [apply lookup_pushed|reflexivity]|].
    split; [done|]. split; [by eexists|].
    rewrite calls_snoc, disposals_snoc. cbn [from_option is_call is_dispose].
    rewrite app_nil_r. by repeat split.
  - destruct (Hkey k eq_refl) as [xk Hxk]. exists w, k, xk.
    split; [done|]. split; [done|]. split; [done|].
    split; [exists []; by rewrite app_nil_r|]. split; [done|].
    split; [by rewrite app_nil_r|]. by intros k0 [=].
Qed.

(** X18: defineProp: with live handles it always succeeds and asks the engine
    for exactly one definition.  It registers one host function per
    accessor of the descriptor, fetches [undefined] at most once however
    many slots are empty, and disposes nothing but the string it made for
    a key given as a string: the accessor handles stay allocated. *)
Theorem defineProp_defines_once w this c (s : QuickJSVm) handle xh (key : PropKey)
    (d : VmPropertyDescriptor)
    (Hctx : vm_ctx w this c) (Hvm : vms w !! this = Some s)
    (Hu : ∀ u, _undefined s = Some u → ∃ xu, live w u xu)
    (Hh : live w handle xh)
    (Hkey : ∀ k, key = KeyHandle k → ∃ xk, live w k xk)
    (Hval : ∀ v, d_value d = Some v → ∃ xv, live w v xv) :
  ∃ w' s' delta,
    defineProp fn_name this handle key d w = (w', Ok tt) ∧
    vms w' !! this = Some s' ∧
    fnNextId s' = (fnNextId s + accessors d)%nat ∧
    calls (trace w') = calls (trace w) ++ delta ∧
    count_calls "QTS_DefineProp" delta = 1%nat ∧
    count_calls "QTS_NewFunction" delta = accessors d ∧
    (count_calls "QTS_GetUndefined" delta ≤ 1)%nat ∧
    count_calls "QTS_NewString" delta = (if key is KeyString _ then 1 else 0)%nat ∧
    count_calls "QTS_FreeValuePointer" delta = (if key is KeyString _ then 1 else 0)%nat ∧
    disposals (trace w') =
      disposals (trace w) ++ (if key is KeyString _ then [length (heap w)] else []).
Proof.
  destruct (key_handle_fields w this c key Hctx Hkey)
    as (wk & kh & xk & Hk & Hkl & Hkv & Hke & Hkd & Hkc & Hks).
  assert (Hxc : ∃ xc, live w (ctx s) xc ∧ _value xc = c).
  { destruct Hctx as (s0 & x & Hs0 & Hx & Hc). rewrite Hvm in Hs0.
    injection Hs0 as <-. by exists x. }
  destruct Hxc as (xc & Hxc & Hcv).
  assert (Hvmk : vms wk !! this = Some s) by (by rewrite Hkv).
  assert (Huk : ∀ u, _undefined s = Some u → ∃ xu, live wk u xu).
  { intros u Hu'. destruct (Hu u Hu') as [xu Hxu]. exists xu. by eapply live_ext. }
  assert (Hvalue : ∃ wv sv vh xv cv,
             (match d_value d with
              | Some v => mret v
              | None => QuickJSVm_undefined this
              end) wk = (wv, Ok vh) ∧ live wv vh xv ∧
             vm_grows this s wk sv wv cv ∧ count_calls "QTS_NewFunction" cv = 0%nat).
  { destruct (d_value d) as [v|] eqn:Hdv.
    - destruct (Hval v eq_refl) as [xv Hxv]. exists wk, s, v, xv, [].
      split; [done|]. split; [by eapply live_ext|].
      split; [by apply vm_grows_refl|done].
    - by apply undefined_grows. }
  destruct Hvalue as (wv & sv & vh & xv & cv & Hv & Hvl & Hvg & Hvn).
  pose proof Hvg as (Hvs & Hvc & Hve & Hvu & _).
  destruct (accessor_grows wv this sv xc (d_get d))
    as (wg & sg & gh & xg & cg & Hg & Hgl & Hgg & Hgn); [done| |done|].
  { rewrite Hvc. eapply live_ext; [exact Hve|]. by eapply live_ext. }
  pose proof Hgg as (Hgs & Hgc & Hge & Hgu & _).
  destruct (accessor_grows wg this sg xc (d_set d))
    as (ws & ss & sh & xs & cs & Hs & Hsl & Hsg & Hsn); [done| |done|].
  { rewrite Hgc, Hvc. eapply live_ext; [exact Hge|].
    eapply live_ext; [exact Hve|]. by eapply live_ext. }
  pose proof Hsg as (Hss & Hsc & Hse & _).
  pose proof (vm_grows_trans _ _ _ _ _ _ _ _ _
                (vm_grows_trans _ _ _ _ _ _ _ _ _ Hvg Hgg) Hsg)
    as (_ & Hc' & He' & _ & Hd' & Hk' & Hn' & Hgu' & Hf').
  assert (Hctxs : vm_ctx ws this c).
  { exists ss, xc. split; [done|]. split; [|done].
    rewrite Hc'. eapply live_ext; [exact He'|]. by eapply live_ext. }
  assert (Hhs : live ws handle xh).
  { eapply live_ext; [exact He'|]. by eapply live_ext. }
  assert (Hks' : live ws kh xk) by exact (live_ext _ _ _ _ He' Hkl).
  assert (Hvs' : live ws vh xv).
  { eapply live_ext; [exact Hse|]. exact (live_ext _ _ _ _ Hge Hvl). }
  assert (Hgs' : live ws gh xg) by exact (live_ext _ _ _ _ Hse Hgl).
  unfold defineProp.
  rewrite (bind_ok _ _ _ _ _ Hk).
  rewrite (bind_ok _ _ _ _ _ Hv). cbv beta zeta.
  rewrite (bind_ok _ _ _ _ _ Hg).
  rewrite (bind_ok _ _ _ _ _ Hs).
  rewrite (bind_ok _ _ _ _ _ (ctx_value_ok _ _ _ Hctxs)).
  erewrite bind_ok; [|by apply (Lifetime_value_ok _ _ _ (proj1 Hhs) (proj2 Hhs))].
  erewrite bind_ok; [|by apply (Lifetime_value_ok _ _ _ (proj1 Hks') (proj2 Hks'))].
  erewrite bind_ok; [|by apply (Lifetime_value_ok _ _ _ (proj1 Hvs') (proj2 Hvs'))].
  erewrite bind_ok; [|by apply (Lifetime_value_ok _ _ _ (proj1 Hgs') (proj2 Hgs'))].
  erewrite bind_ok; [|by apply (Lifetime_value_ok _ _ _ (proj1 Hsl) (proj2 Hsl))].
  erewrite bind_ok; [|apply ffi_unit_eq].
  match goal with |- context [key_release _ _ ?W] => set (wd := W) end.
  set (dp := ("QTS_DefineProp"%string,
              [c; _value xh; _value xk; _value xv; _value xg; _value xs])).
  assert (Hdc : calls (trace wd) = calls (trace w) ++
                  (if key is KeyString _ then [("QTS_NewString"%string, [c])] else [])
                  ++ ((cv ++ cg) ++ cs) ++ [dp]).
  { subst wd. cbn [trace set_trace set_engine]. rewrite calls_snoc, Hk', Hkc.
    cbn [from_option is_call]. by rewrite <- !app_assoc. }
  assert (Hdd : disposals (trace wd) = disposals (trace w)).
  { subst wd. cbn [trace set_trace set_engine]. rewrite disposals_snoc, Hd', Hkd.
    cbn [from_option is_dispose]. by rewrite app_nil_r. }
  assert (Hacc : count_calls "QTS_NewFunction" ((cv ++ cg) ++ cs) = accessors d).
  { rewrite !count_calls_app, Hvn, Hgn, Hsn. unfold accessors. lia. }
  assert (Hund : (count_calls "QTS_GetUndefined" ((cv ++ cg) ++ cs) ≤ 1)%nat).
  { assert (has_undefined ss ≤ 1)%nat by (unfold has_undefined; destruct (_undefined ss); lia).
    lia. }
  assert (Hother : ∀ fn, fn ∈ ["QTS_DefineProp"; "QTS_NewString"; "QTS_FreeValuePointer"]%string →
                         count_calls fn ((cv ++ cg) ++ cs) = 0%nat).
  { intros fn Hfn. eapply count_calls_other; [exact Hf'|].
    rewrite !elem_of_cons, elem_of_nil in Hfn.
    rewrite !elem_of_cons, elem_of_nil.
    destruct Hfn as [->|[->|[->|[]]]]; intros [|[|[|[|[]]]]]; discriminate. }
  set (mid := (cv ++ cg) ++ cs) in *. clearbody mid.
  destruct key as [k|k]; cbn [key_release].
  - destruct (Hks k eq_refl) as [-> Hxd].
    destruct (Lifetime_dispose_fields wd (length (heap w)) xk)
      as (w' & Hdisp & _ & Hv' & _ & _ & _ & _ & Ht' & Hc'').
    { subst wd. exact Hks'. }
    { rewrite Hxd. exists ss, xc. split; [done|].
      rewrite Hc'. eapply live_ext; [exact He'|]. by eapply live_ext. }
    exists w', ss, ([("QTS_NewString"%string, [c])] ++ mid ++ [dp]
                    ++ [release_call wd (freeJSValue this) (_value xk)]).
    split; [exact Hdisp|]. split; [by rewrite Hv'|].
    split; [by rewrite Hn', Hacc|].
    split; [rewrite Hc'', Hdc, Hxd; cbn [from_option]; by rewrite <- !app_assoc|].
    rewrite !count_calls_app, Hacc, (Hother "QTS_DefineProp"%string),
      (Hother "QTS_NewString"%string), (Hother "QTS_FreeValuePointer"%string)
      by (rewrite !elem_of_cons; tauto).
    cbn [release_call]. subst dp.
    repeat match goal with
           | |- context [count_calls ?f [?x]] =>
               let v := eval vm_compute in (count_calls f [x]) in
               change (count_calls f [x]) with v
           end.
    split; [done|]. split; [lia|]. split; [lia|]. split; [lia|]. split; [lia|].
    by rewrite Ht', Hdd.
  - exists wd, ss, (mid ++ [dp]).
    split; [done|]. split; [done|].
    split; [by rewrite Hn', Hacc|].
    split; [by rewrite Hdc|].
    rewrite !count_calls_app, Hacc, (Hother "QTS_DefineProp"%string),
      (Hother "QTS_NewString"%string), (Hother "QTS_FreeValuePointer"%string)
      by (rewrite !elem_of_cons; tauto). subst dp.
    repeat match goal with
           | |- context [count_calls ?f [?x]] =>
               let v := eval vm_compute in (count_calls f [x]) in
               change (count_calls f [x]) with v
           end.
    split; [done|]. split; [lia|]. split; [lia|]. split; [lia|]. split; [lia|].
    by rewrite Hdd, app_nil_r.
Qed.

End FacadeMore.

(** * The facade at work on the small engine *)

Import Toy.

(** C1: a lifetime that was disposed is still alive: its value reads back,
    a second [dispose()] succeeds, and the disposer has then run twice. *)
Theorem disposed_lifetime_stays_alive :
  eval dispose_twice one_lifetime = Ok (7, true) ∧
  disposer_runs (trace (exec dispose_twice one_lifetime))
    = [(moduleFree, 7); (moduleFree, 7)].
Proof. by vm_compute. Qed.

(** C2: VM 1 is handed handle 4, which VM 0 created.  [typeof] of VM 1
    refuses it and [typeof] of VM 0 accepts it, but [getProp], [setProp],
    [defineProp] and [callFunction] of VM 1 go through with it. *)
Theorem foreign_handle_reaches_engine :
  eval (typeof 1%nat 4%nat) two_vms = Throw foreign_handle_error ∧
  eval (typeof 0%nat 4%nat) two_vms = Ok "string"%string ∧
  eval (getProp 1%nat 4%nat (KeyHandle 5%nat)) two_vms = Ok 6%nat ∧
  eval (setProp 1%nat 4%nat (KeyHandle 5%nat) 5%nat) two_vms = Ok tt ∧
  eval (defineProp fn_name 1%nat 4%nat (KeyHandle 5%nat) no_descriptor) two_vms = Ok tt ∧
  eval (callFunction 1%nat 4%nat 5%nat []) two_vms = Ok (ResValue 7%nat).
Proof. by vm_compute. Qed.

(** C3: the host function is applied to exactly two argument handles and
    the dispatch disposes the three call-scoped handles (objects 4, 5, 6)
    before it returns; yet after the call all three are alive and their
    addresses can still be read. *)
Theorem callback_handles_outlive_call :
  eval guest_call one_callback = Ok 0 ∧
  drop (length (trace one_callback)) (trace (exec guest_call one_callback))
    = [EvCall "QTS_GetFloat64" [3; 4];
       EvCall "QTS_ArgvGetJSValueConstPointer" [200; 0];
       EvCall "QTS_ArgvGetJSValueConstPointer" [200; 1];
       EvCall "host:readArgs" [200; 201];
       EvDispose 4; EvDispose 5; EvDispose 6] ∧
  eval (guest_call;; map_m Lifetime_alive [4; 5; 6]%nat) one_callback
    = Ok [true; true; true] ∧
  eval (guest_call;; map_m Lifetime_value [4; 5; 6]%nat) one_callback
    = Ok [100; 200; 201].
Proof. by vm_compute. Qed.

(** When the host function hands an argument back, the dispatch disposes it
    as the result; the cleanup then finds it still alive and disposes it a
    second time. *)
Lemma returned_argument_disposed_twice :
  eval guest_call one_callback_first = Ok 200 ∧
  disposals (drop (length (trace one_callback_first))
                  (trace (exec guest_call one_callback_first)))
    = [5; 4; 5; 6]%nat.
Proof. by vm_compute. Qed.

(** C6 as stated fails: VM 1 unwraps an [{error}] whose handle belongs to
    VM 0.  The ownership check of [dump] raises, the error handle is not
    disposed, and what is raised is neither a rebuilt Error nor a dump. *)
Lemma unwrapResult_foreign_error_not_disposed :
  eval (unwrapResult 1%nat (ResError 4%nat)) two_vms_error = Throw foreign_handle_error ∧
  4%nat ∉ disposals (trace (exec (unwrapResult 1%nat (ResError 4%nat)) two_vms_error)).
Proof. split; [by vm_compute|]. vm_compute. by intros ?%elem_of_nil. Qed.


(** ** The general statements applied to the scenarios *)


Lemma toy_keeps_number (c : ptr) (n : Z) : engine_keeps_number c n.
Proof.
  intros e. unfold boundary_number. cbn. unfold peek.
  replace (Z.to_nat (Z.of_nat (length e) + 1 - 1)) with (length e) by lia.
  by rewrite list_lookup_middle.
Qed.

Lemma trampoline_never_throws_witness :
  ∃ w' e, QuickJS_cToHostCallbackFunction host_apply 3 100 2 200 4 boot = (w', Ok 0) ∧
          console w' = console boot ++ [e].
Proof.
  apply (proj1 (proj2 (trampoline_never_throws host_apply boot 3 100 2 200 4))).
  reflexivity.
Defined.

Lemma QuickJS_constructor_once_witness :
  QuickJS_constructor boot = (boot, Throw not_ready_error).
Proof. apply (proj1 (QuickJS_constructor_once boot)). reflexivity. Defined.

Lemma assertOwned_rejects_only_foreign_owner_witness :
  assertOwned 0%nat 2%nat one_vm_undefined = (one_vm_undefined, Ok tt).
Proof.
  refine (proj1 (assertOwned_rejects_only_foreign_owner one_vm_undefined 2%nat
                   (mkLifetime 4 None None true) _ 0%nat) _).
  - vm_compute. reflexivity.
  - reflexivity.
Defined.

Lemma QuickJSVm_dispose_order_witness :
  ∃ w', QuickJSVm_dispose 0%nat one_vm_global = (w', Ok tt) ∧
        disposals (trace w') = [2; 1; 0]%nat ∧
        trace w' =
          trace one_vm_global
            ++ [EvDispose 2; EvDisposer (freeJSValue 0) 4;
                EvCall "QTS_FreeValuePointer" [3; 4];
                EvDispose 1; EvDisposer freeContext 3; EvCall "QTS_FreeContext" [3];
                EvDispose 0; EvDisposer freeRuntime 2; EvCall "QTS_FreeRuntime" [2]].
Proof.
  destruct (QuickJSVm_dispose_order one_vm_global 0%nat
              (mkVm 1%nat 0%nat None (Some 3%nat) [2%nat] 0%nat ∅)
              (mkLifetime 3 (Some freeContext) None true)
              (mkLifetime 2 (Some freeRuntime) None true))
    as (w' & Hrun & Hlog & Htrace & _).
  - vm_compute. reflexivity.
  - split; vm_compute; reflexivity.
  - exact I.
  - split; vm_compute; reflexivity.
  - exact I.
  - cbn [lifetimes]. constructor; [|constructor].
    exists (mkLifetime 4 (Some (freeJSValue 0%nat)) (Some 0%nat) true).
    split; [vm_compute; reflexivity|].
    exists (mkVm 1%nat 0%nat None (Some 3%nat) [2%nat] 0%nat ∅),
           (mkLifetime 3 (Some freeContext) None true).
    split; [vm_compute; reflexivity|]. split; vm_compute; reflexivity.
  - exists w'. split; [exact Hrun|].
    split; [rewrite Hlog; vm_compute; reflexivity|].
    rewrite Htrace. f_equal.
Defined.



Lemma unwrapResult_raises_dumped_error_witness :
  ∃ w',
    unwrapResult 0%nat (ResError 4%nat) two_vms_error
      = (w', Throw (ExnError (mkError (Some "TypeError"%string) (Some "bad"%string) None))) ∧
    disposals (trace w') = [4%nat].
Proof.
  assert (Hctx : vm_ctx two_vms_error 0%nat 3).
  { exists (mkVm 1%nat 0%nat None None [] 0%nat ∅),
           (mkLifetime 3 (Some freeContext) None true).
    split; [vm_compute; reflexivity|]. split; [|reflexivity].
    split; vm_compute; reflexivity. }
  destruct (proj1 (proj2 (unwrapResult_raises_dumped_error two_vms_error 0%nat 3 Hctx))
              4%nat (mkLifetime 7 (Some (freeJSValue 0%nat)) (Some 0%nat) true))
    as (w1 & dumped & w' & thrown & Hdump & _ & Hlog & Hrun & Hshape & _).
  - split; vm_compute; reflexivity.
  - intros v [= <-]. reflexivity.
  - exists (mkVm 1%nat 0%nat None None [] 0%nat ∅),
           (mkLifetime 3 (Some freeContext) None true).
    split; [vm_compute; reflexivity|]. split; vm_compute; reflexivity.
  - exists w'. split; [|rewrite Hlog; vm_compute; reflexivity].
    rewrite Hrun. f_equal. f_equal.
    apply (Hshape [("name"%string, JStr "TypeError"); ("message"%string, JStr "bad")]
                  "bad"%string); [|reflexivity].
    vm_compute in Hdump. by injection Hdump as _ <-.
Defined.

(** ** Further instances on the small engine *)

Lemma vm_teardown_unregisters_witness :
  ∃ w', QuickJSVm_dispose 0%nat one_vm_global = (w', Ok tt) ∧ vmMap w' = ∅.
Proof.
  destruct (vm_teardown_unregisters host_apply one_vm_global 0%nat
              (mkVm 1%nat 0%nat None (Some 3%nat) [2%nat] 0%nat ∅)
              (mkLifetime 3 (Some freeContext) None true)
              (mkLifetime 2 (Some freeRuntime) None true))
    as (w' & Hrun & Hmap & _).
  - vm_compute. reflexivity.
  - split; vm_compute; reflexivity.
  - reflexivity.
  - split; vm_compute; reflexivity.
  - reflexivity.
  - cbn [lifetimes]. constructor; [|constructor].
    exists (mkLifetime 4 (Some (freeJSValue 0%nat)) (Some 0%nat) true).
    split; [vm_compute; reflexivity|]. split; [|discriminate].
    exists (mkVm 1%nat 0%nat None (Some 3%nat) [2%nat] 0%nat ∅),
           (mkLifetime 3 (Some freeContext) None true).
    split; [vm_compute; reflexivity|]. split; vm_compute; reflexivity.
  - exists w'. split; [exact Hrun|]. rewrite Hmap. vm_compute. reflexivity.
Defined.

Lemma undefined_is_memoized_witness :
  ∃ w1 u, QuickJSVm_undefined 0%nat one_vm_global = (w1, Ok u) ∧
          QuickJSVm_undefined 0%nat w1 = (w1, Ok u).
Proof.
  destruct (undefined_is_memoized one_vm_global 0%nat
              (mkVm 1%nat 0%nat None (Some 3%nat) [2%nat] 0%nat ∅))
    as (w1 & u & xu & H1 & H2 & _).
  - vm_compute. reflexivity.
  - reflexivity.
  - exists w1, u. split; [exact H1|exact H2].
Defined.

Lemma global_is_memoized_witness :
  ∃ w1 g, QuickJSVm_global 0%nat one_vm_undefined = (w1, Ok g) ∧
          QuickJSVm_global 0%nat w1 = (w1, Ok g).
Proof.
  destruct (global_is_memoized one_vm_undefined 0%nat 3
              (mkVm 1%nat 0%nat (Some 2%nat) None [] 0%nat ∅))
    as (w1 & g & xg & s1 & l & xl & H1 & H2 & _).
  - exists (mkVm 1%nat 0%nat (Some 2%nat) None [] 0%nat ∅),
           (mkLifetime 3 (Some freeContext) None true).
    split; [vm_compute; reflexivity|].
    split; [split; vm_compute; reflexivity|reflexivity].
  - vm_compute. reflexivity.
  - reflexivity.
  - exists w1, g. split; [exact H1|exact H2].
Defined.

Lemma fresh_handles_are_bound_to_their_vm_witness :
  ∃ w1 h, newString 0%nat "x" two_vms = (w1, Ok h) ∧
          getString 1%nat h w1 = (w1, Throw foreign_handle_error).
Proof.
  destruct (fresh_handles_are_bound_to_their_vm two_vms 0%nat 3) with
    (make := newString (fnImpl:=fn) 0%nat "x") (b := 1%nat)
    as (w1 & h & H1 & _ & H2 & _).
  - exists (mkVm 1%nat 0%nat None None [] 0%nat ∅),
           (mkLifetime 3 (Some freeContext) None true).
    split; [vm_compute; reflexivity|].
    split; [split; vm_compute; reflexivity|reflexivity].
  - right. left. by exists "x"%string.
  - lia.
  - exists w1, h. split; [exact H1|exact H2].
Defined.




Lemma dispatch_refuses_unknown_calls_witness :
  QuickJSVm_cToHostCallbackFunction host_apply 0%nat 9 100 2 200 4 one_callback
    = (one_callback,
       Throw (new_Error "QuickJSVm instance received C -> JS call with mismatched ctx")).
Proof.
  destruct (dispatch_refuses_unknown_calls host_apply one_callback 0%nat 3
              (mkVm 1%nat 0%nat None None [] 1%nat {[1 := FnReadArgs]})) as [Hctx _].
  - vm_compute. reflexivity.
  - exists (mkVm 1%nat 0%nat None None [] 1%nat {[1 := FnReadArgs]}),
           (mkLifetime 3 (Some freeContext) None true).
    split; [vm_compute; reflexivity|].
    split; [split; vm_compute; reflexivity|reflexivity].
  - apply Hctx. lia.
Defined.

Lemma dispatch_of_void_host_function_witness :
  ∃ w', QuickJSVm_cToHostCallbackFunction host_apply 0%nat 3 100 2 200 4 one_callback
          = (w', Ok 0) ∧
        disposals (trace w') = [4; 5; 6]%nat.
Proof.
  pose (w0 := exec (callback_id 3 4) one_callback).
  pose (w1 := exec (call_handles 0%nat 100 2 200) w0).
  pose (w2 := exec (host_apply FnReadArgs 4%nat [5; 6]%nat) w1).
  destruct (dispatch_of_void_host_function host_apply one_callback 0%nat 3
              (mkVm 1%nat 0%nat None None [] 1%nat {[1 := FnReadArgs]}) FnReadArgs
              100 2 200 4 w0 1 w1 4%nat [5; 6]%nat w2)
    as (_ & _ & _ & w' & Hrun & Hd & _).
  - exists (mkVm 1%nat 0%nat None None [] 1%nat {[1 := FnReadArgs]}),
           (mkLifetime 3 (Some freeContext) None true).
    split; [vm_compute; reflexivity|].
    split; [split; vm_compute; reflexivity|reflexivity].
  - vm_compute. reflexivity.
  - vm_compute. reflexivity.
  - vm_compute. reflexivity.
  - vm_compute. reflexivity.
  - vm_compute. reflexivity.
  - exists []. vm_compute. reflexivity.
  - exists w'. split; [exact Hrun|]. rewrite Hd. vm_compute. reflexivity.
Defined.

Lemma dispatch_of_host_handle_witness :
  ∃ w', QuickJSVm_cToHostCallbackFunction host_apply 0%nat 3 100 2 200 4 one_callback_first
          = (w', Ok 200) ∧
        disposals (trace w') = [5; 4; 5; 6]%nat.
Proof.
  pose (w0 := exec (callback_id 3 4) one_callback_first).
  pose (w1 := exec (call_handles 0%nat 100 2 200) w0).
  destruct (dispatch_of_host_handle host_apply one_callback_first 0%nat 3
              (mkVm 1%nat 0%nat None None [] 1%nat {[1 := FnFirst]}) FnFirst
              100 2 200 4 w0 1 w1 4%nat [5; 6]%nat w1 5%nat
              (mkLifetime 200 None (Some 0%nat) true))
    as [Hvalue _].
  - exists (mkVm 1%nat 0%nat None None [] 1%nat {[1 := FnFirst]}),
           (mkLifetime 3 (Some freeContext) None true).
    split; [vm_compute; reflexivity|].
    split; [split; vm_compute; reflexivity|reflexivity].
  - vm_compute. reflexivity.
  - vm_compute. reflexivity.
  - vm_compute. reflexivity.
  - vm_compute. reflexivity.
  - exists []. vm_compute. reflexivity.
  - exists (mkVm 1%nat 0%nat None None [] 1%nat {[1 := FnFirst]}),
           (mkLifetime 3 (Some freeContext) None true).
    split; [vm_compute; reflexivity|].
    split; [split; vm_compute; reflexivity|reflexivity].
  - split; vm_compute; reflexivity.
  - exact I.
  - destruct Hvalue as (w' & Hrun & Hd & _); [left; vm_compute; reflexivity|].
    exists w'. split; [exact Hrun|]. rewrite Hd. vm_compute. reflexivity.
Defined.

Lemma dispatch_of_host_exception_witness :
  ∃ w' p, QuickJSVm_cToHostCallbackFunction host_raise 0%nat 3 100 2 200 4 one_callback
            = (w', Ok p).
Proof.
  pose (w0 := exec (callback_id 3 4) one_callback).
  pose (w1 := exec (call_handles 0%nat 100 2 200) w0).
  destruct (dispatch_of_host_exception host_raise one_callback 0%nat 3
              (mkVm 1%nat 0%nat None None [] 1%nat {[1 := FnReadArgs]}) FnReadArgs
              100 2 200 4 w0 1 w1 4%nat [5; 6]%nat w1
              (mkError (Some "RangeError"%string) (Some "no"%string) None))
    as (w' & p & ep & dl & delta & Hrun & _).
  - exists (mkVm 1%nat 0%nat None None [] 1%nat {[1 := FnReadArgs]}),
           (mkLifetime 3 (Some freeContext) None true).
    split; [vm_compute; reflexivity|].
    split; [split; vm_compute; reflexivity|reflexivity].
  - vm_compute. reflexivity.
  - vm_compute. reflexivity.
  - vm_compute. reflexivity.
  - vm_compute. reflexivity.
  - reflexivity.
  - exists []. vm_compute. reflexivity.
  - exists (mkVm 1%nat 0%nat None None [] 1%nat {[1 := FnReadArgs]}),
           (mkLifetime 3 (Some freeContext) None true).
    split; [vm_compute; reflexivity|].
    split; [split; vm_compute; reflexivity|reflexivity].
  - exists w', p. exact Hrun.
Defined.

Lemma errorToHandle_releases_its_strings_witness :
  errorToHandle 0%nat (ExnHandle 3%nat) one_vm_global = (one_vm_global, Ok 3%nat) ∧
  ∃ w1, errorToHandle 0%nat (TypeError "no") one_vm_global = (w1, Ok 4%nat).
Proof.
  destruct (errorToHandle_releases_its_strings one_vm_global 0%nat 3) as [Hh He].
  - exists (mkVm 1%nat 0%nat None (Some 3%nat) [2%nat] 0%nat ∅),
           (mkLifetime 3 (Some freeContext) None true).
    split; [vm_compute; reflexivity|].
    split; [split; vm_compute; reflexivity|reflexivity].
  - split; [apply Hh|].
    destruct (He (mkError (Some "TypeError"%string) (Some "no"%string) (Error_stack "no")))
      as (w1 & xe & delta & dl & Hrun & _).
    exists w1. exact Hrun.
Defined.

Lemma defineProp_defines_once_witness :
  ∃ w' s',
    defineProp fn_name 0%nat 3%nat (KeyString "k")
               (mkDescriptor None None None (Some FnFirst) None) one_vm_global
      = (w', Ok tt) ∧
    vms w' !! 0%nat = Some s' ∧ fnNextId s' = 1%nat ∧
    disposals (trace w') = [4%nat].
Proof.
  destruct (defineProp_defines_once fn_name one_vm_global 0%nat 3
              (mkVm 1%nat 0%nat None (Some 3%nat) [2%nat] 0%nat ∅) 3%nat
              (mkLifetime 4 None (Some 0%nat) true) (KeyString "k")
              (mkDescriptor None None None (Some FnFirst) None))
    as (w' & s' & delta & Hrun & Hs' & Hn & _ & _ & _ & _ & _ & _ & Hd).
  - exists (mkVm 1%nat 0%nat None (Some 3%nat) [2%nat] 0%nat ∅),
           (mkLifetime 3 (Some freeContext) None true).
    split; [vm_compute; reflexivity|].
    split; [split; vm_compute; reflexivity|reflexivity].
  - vm_compute. reflexivity.
  - intros u [=].
  - split; vm_compute; reflexivity.
  - intros k [=].
  - intros v [=].
  - exists w', s'. split; [exact Hrun|]. split; [exact Hs'|].
    split; [exact Hn|]. rewrite Hd. vm_compute. reflexivity.
Defined.

Lemma toPointerArray_writes_addresses_witness :
  ∃ w', toPointerArray 0%nat [4; 5]%nat two_vms = (w', Ok 6%nat) ∧
        heap w' !! 6%nat = Some (mkLifetime 8 (Some moduleFree) None true).
Proof.
  destruct (toPointerArray_writes_addresses two_vms 0%nat [4; 5]%nat)
    as (w' & Hrun & Hheap & _).
  - repeat constructor.
  - exists w'. split; [exact Hrun|]. rewrite Hheap. vm_compute. reflexivity.
Defined.
